(** * Whiteboard collaboration server: relay, session cache and control plane

    A shallow embedding of the websocket server of the whiteboard app
    (SocketManager.js, JwtSecretManager.js, SharedTokenGenerator.js,
    AppManager.js and SetupType.js) together with the properties the
    specification states about it and further properties of the code.

    Conventions of the embedding:
    - [process.env] is a finite map from variable names to strings;
    - an [ArrayBuffer] is a list of bytes;
    - a JS value that may be [undefined] is an [option];
    - an [async] handler is a state-passing computation over the server
      state that also produces the list of effects it performed (events
      emitted, Room Store calls, signature checks) and either returns or
      throws.  A handler runs against one view of the server state: the
      interleaving of other connections' handlers at its [await] points is
      not represented; what the transport itself does while the handler of
      [disconnecting] waits at its first [await] is.
    - [console.log] / [console.error] lines are not effects of the model. *)

From stdpp Require Import gmap strings list pretty.
From Stdlib Require Import Strings.Byte Strings.String Strings.Ascii ZArith Lia.

Open Scope string_scope.
Open Scope Z_scope.
Open Scope list_scope.

(* ===================================================================== *)
(** * Part I: definitions                                                 *)
(* ===================================================================== *)

(** ** JS strings and truthiness *)

(** [!x] for a value that is a string or [undefined]: the empty string and
    [undefined] are falsy. *)
Definition truthy (v : option string) : bool :=
  match v with
  | Some s => negb (String.eqb s "")
  | None => false
  end.

(** [s.split(c)] for a one-character separator: the pieces between the
    separators, empty pieces included; the empty string splits into one
    empty piece. *)
Fixpoint split (c : ascii) (s : string) : list string :=
  match s with
  | EmptyString => [EmptyString]
  | String a s' =>
      if Ascii.eqb a c then EmptyString :: split c s'
      else match split c s' with
           | h :: t => String a h :: t
           | [] => [String a EmptyString]
           end
  end.

(** ** The process environment *)

Abbreviation Env := (gmap string string).

(** ** JwtSecretManager.js *)

Definition hex_digit (n : nat) : ascii :=
  match String.get n "0123456789abcdef" with
  | Some a => a
  | None => "0"%char
  end.

(** [Buffer.toString('hex')]: two lower-case hexadecimal digits per byte. *)
Fixpoint toString_hex (bs : list byte) : string :=
  match bs with
  | [] => EmptyString
  | b :: bs' =>
      let n := Byte.to_nat b in
      String (hex_digit (Nat.div n 16))
        (String (hex_digit (Nat.modulo n 16)) (toString_hex bs'))
  end.

(** [getOrCreateJwtSecretKey()].  [randomBytes] is the value
    [crypto.randomBytes(32)] yields should the function ask for it; the
    result is the updated environment and the value read back from
    [process.env.JWT_SECRET_KEY]. *)
Definition getOrCreateJwtSecretKey (randomBytes : list byte) (env : Env)
  : Env * option string :=
  let env' :=
    if negb (truthy (env !! "JWT_SECRET_KEY")) then
      let newSecret := toString_hex randomBytes in
      <["JWT_SECRET_KEY" := newSecret]> env
    else env in
  (env', env' !! "JWT_SECRET_KEY").

(** Any number of calls in a row, each with its own random draw; the
    values returned, in call order. *)
Fixpoint getOrCreateJwtSecretKey_calls (draws : list (list byte)) (env : Env)
  : Env * list (option string) :=
  match draws with
  | [] => (env, [])
  | d :: ds =>
      let '(env1, k) := getOrCreateJwtSecretKey d env in
      let '(env2, ks) := getOrCreateJwtSecretKey_calls ds env1 in
      (env2, k :: ks)
  end.

(** ** SharedTokenGenerator.js (constructor) *)

Record SharedTokenGenerator := { SHARED_SECRET : option string }.

Definition SharedTokenGenerator_new (randomBytes : list byte) (env : Env)
  : Env * SharedTokenGenerator :=
  let '(env', k) := getOrCreateJwtSecretKey randomBytes env in
  (env', {| SHARED_SECRET := k |}).

(** ** AppManager.js (constructor and the metrics route) *)

Record AppManager := {
  METRICS_TOKEN : option string;
  JWT_SECRET_KEY : option string
}.

Definition AppManager_new (randomBytes : list byte) (env : Env)
  : Env * AppManager :=
  let metrics_token := env !! "METRICS_TOKEN" in
  let '(env', k) := getOrCreateJwtSecretKey randomBytes env in
  (env', {| METRICS_TOKEN := metrics_token; JWT_SECRET_KEY := k |}).

(** A value of [req.query.token]: the query parser yields a string, or an
    array or object for repeated and bracketed parameters. *)
Inductive QueryValue :=
  | QString (s : string)
  | QStructured.

Record Request := {
  headers_authorization : option string;
  query_token : option QueryValue
}.

Record Response := {
  status : Z;
  contentType : option string;
  body : string
}.

(** [req.headers.authorization?.split(' ')[1] || req.query.token] *)
Definition request_token (req : Request) : option QueryValue :=
  let from_header :=
    match headers_authorization req with
    | Some h => split " " h !! 1%nat
    | None => None
    end in
  if truthy from_header then QString <$> from_header else query_token req.

(** [token !== this.METRICS_TOKEN] *)
Definition strict_neq (token : option QueryValue) (expected : option string) : bool :=
  match token, expected with
  | Some (QString t), Some e => negb (String.eqb t e)
  | None, None => false
  | _, _ => true
  end.

(** [metricsHandler(req, res)].  The registry of PrometheusDataManager is
    not part of the modelled sources: the text it renders and its content
    type are arguments. *)
Definition metricsHandler (this : AppManager) (register_metrics register_contentType : string)
    (req : Request) : Response :=
  let token := request_token req in
  if negb (truthy (METRICS_TOKEN this)) || strict_neq token (METRICS_TOKEN this) then
    {| status := 403; contentType := None; body := "Unauthorized" |}
  else
    {| status := 200; contentType := Some register_contentType; body := register_metrics |}.


(** ** JSON values, as [JSON.parse] yields them *)

(** Numbers are never inspected by the server; they are carried as
    integers. *)
#[local] Unset Elimination Schemes.
Inductive json :=
  | JNull
  | JBool (b : bool)
  | JNum (n : Z)
  | JStr (s : string)
  | JArr (items : list json)
  | JObj (fields : list (string * json)).
#[local] Set Elimination Schemes.

(** An argument that the caller may leave out ([undefined]), pass as
    [null], or pass as a value. *)
Inductive Nullable (A : Type) :=
  | Undefined
  | Null
  | Val (a : A).
Arguments Undefined {A}.
Arguments Null {A}.
Arguments Val {A} a.

(** Completion of a piece of JS code: a value, or a thrown error (the
    error's name or message). *)
Inductive Result (A : Type) :=
  | Ok (a : A)
  | Throw (e : string).
Arguments Ok {A} a.
Arguments Throw {A} e.

(** The value stored under key [k] of an object's field list. *)
Fixpoint field (k : string) (fs : list (string * json)) : option json :=
  match fs with
  | [] => None
  | (k', v) :: fs' => if String.eqb k' k then Some v else field k fs'
  end.

(** The property read [v.k], for the keys the handlers read ([type],
    [payload], [elements]): reading from [undefined] or [null] throws a
    TypeError; an object yields its field or [undefined]; strings, numbers,
    booleans and arrays have no property of these names. *)
Definition prop (k : string) (v : option json) : Result (option json) :=
  match v with
  | None | Some JNull => Throw "TypeError"
  | Some (JObj fs) => Ok (field k fs)
  | Some _ => Ok None
  end.

(** [v === s] for a string literal [s]. *)
Definition strict_eq_string (v : option json) (s : string) : bool :=
  match v with
  | Some (JStr s') => String.eqb s' s
  | _ => false
  end.

(** The own enumerable properties copied by the object spread [{...v}]:
    the fields of an object, the indexed items of an array, the indexed
    characters of a string, and nothing for any other value. *)
Definition spread (v : option json) : list (string * json) :=
  match v with
  | Some (JObj fs) => fs
  | Some (JArr items) => imap (λ i x, (pretty i, x)) items
  | Some (JStr s) =>
      imap (λ i c, (pretty i, JStr (String c EmptyString))) (list_ascii_of_string s)
  | _ => []
  end.

(** Defining property [k] after a spread: an existing property keeps its
    place and takes the new value, a new one goes last. *)
Fixpoint with_field (k : string) (v : json) (fs : list (string * json))
  : list (string * json) :=
  match fs with
  | [] => [(k, v)]
  | (k', v') :: fs' =>
      if String.eqb k' k then (k, v) :: fs' else (k', v') :: with_field k v fs'
  end.

(** ** Session data *)

Module User.
Record t := mk { id : string; name : string }.
End User.

(** The claims decoded from a credential. *)
Record SessionData := {
  user : User.t;
  fileId : string;
  permissions : Z;
  token : option string
}.

Definition json_of_user (u : User.t) : json :=
  JObj [("id", JStr (User.id u)); ("name", JStr (User.name u))].

(** An entry of the presence list: [{ socketId, user }]. *)
Record UserSocket := {
  socketId : string;
  socketUser : User.t
}.

(** ** External collaborators *)

(** [JSON.parse] / [JSON.stringify] of the runtime and the two buffer
    conversions of Utils.js, which are not part of the modelled sources.
    [JSON_parse] yields [None] where the runtime throws a SyntaxError. *)
Class Codec := {
  JSON_parse : string → option json;
  JSON_stringify : json → string;
  convertArrayBufferToString : list byte → string;
  convertStringToArrayBuffer : string → list byte
}.

(** The outcome of [jwt.verify(token, secret, callback)]. *)
Inductive JwtResult :=
  | Decoded (decoded : SessionData)
  | TokenExpiredError
  | JsonWebTokenError.

Class TokenVerifier := {
  jwt_verify : string → option string → JwtResult
}.

(** One call [roomDataManager.syncRoomData(roomID, data, users,
    lastEditedUser, jwtToken)]. *)
Record StoreCall := {
  call_roomID : string;
  call_data : option json;
  call_users : list string;
  call_lastEditedUser : Nullable string;
  call_jwtToken : Nullable string
}.

(** The room object the Room Store hands back; only its [data] is read. *)
Record Room := { room_data : json }.

(** The Room Store (RoomDataManager), an external collaborator with a
    state of its own: a call yields the room, or [None] for [null]. *)
Class RoomStore := {
  StoreSt : Type;
  store_syncRoomData : StoreSt → StoreCall → StoreSt * option Room
}.

(** ** Effects *)

(** Whom an [emit] addresses. *)
Inductive Target :=
  | ToSocket (sid : string)                       (* socket.emit *)
  | InRoom (roomID : string)                      (* io.in(roomID).emit *)
  | BroadcastTo (sender roomID : string)          (* socket.broadcast.to(roomID).emit *)
  | VolatileBroadcastTo (sender roomID : string). (* socket.volatile.broadcast.to(roomID).emit *)

(** The events of the client protocol with their arguments. *)
Inductive Message :=
  | init_room
  | read_only
  | room_not_found
  | joined_data (data : list byte) (files : list json)
  | room_user_change (users : list UserSocket)
  | client_broadcast (args : list (list byte)).

Definition event_name (m : Message) : string :=
  match m with
  | init_room => "init-room"
  | read_only => "read-only"
  | room_not_found => "room-not-found"
  | joined_data _ _ => "joined-data"
  | room_user_change _ => "room-user-change"
  | client_broadcast _ => "client-broadcast"
  end.

(** What a handler does to the outside: an emitted event together with the
    connections it is addressed to at that moment, a Room Store call, a
    signature check. *)
Inductive Effect :=
  | Emit (target : Target) (m : Message) (recipients : list string)
  | SyncRoomData (call : StoreCall)
  | JwtVerify (token : string) (secret : option string).

(** ** Server state *)

(** A live connection: its id and the rooms it has joined, in joining
    order (a JS [Set]); the first one is its self-room. *)
Record Socket := {
  sock_id : string;
  rooms : list string
}.

(** [set.add(x)] on an insertion-ordered set. *)
Definition set_add (x : string) (l : list string) : list string :=
  if bool_decide (x ∈ l) then l else l ++ [x].

Section Relay.
Context {codec : Codec} {verifier : TokenVerifier} {roomStore : RoomStore}.

(** The state the handlers of SocketManager work on: the connections the
    transport holds, in connection order, the rooms of its adapter (each
    room with the ids of its connections in joining order, a JS [Map] of
    [Set]s), the two mappings of the Session Cache, the process environment
    and the state of the Room Store. *)
Record World := {
  conns : list Socket;
  adapter_rooms : gmap string (list string);
  socketData : gmap string SessionData;
  cachedTokens : gmap string SessionData;
  env : Env;
  store : StoreSt
}.

(** The state with one component replaced. *)
Definition with_conns (w : World) (l : list Socket) : World :=
  {| conns := l; adapter_rooms := adapter_rooms w; socketData := socketData w;
     cachedTokens := cachedTokens w; env := env w; store := store w |}.

Definition with_adapter_rooms (w : World) (m : gmap string (list string)) : World :=
  {| conns := conns w; adapter_rooms := m; socketData := socketData w;
     cachedTokens := cachedTokens w; env := env w; store := store w |}.

Definition with_socketData (w : World) (m : gmap string SessionData) : World :=
  {| conns := conns w; adapter_rooms := adapter_rooms w; socketData := m;
     cachedTokens := cachedTokens w; env := env w; store := store w |}.

Definition with_cachedTokens (w : World) (c : gmap string SessionData) : World :=
  {| conns := conns w; adapter_rooms := adapter_rooms w; socketData := socketData w;
     cachedTokens := c; env := env w; store := store w |}.

Definition with_store (w : World) (st : StoreSt) : World :=
  {| conns := conns w; adapter_rooms := adapter_rooms w; socketData := socketData w;
     cachedTokens := cachedTokens w; env := env w; store := st |}.

(** An [async] function: from a state to the new state, the effects
    performed in order, and the completion. *)
Definition Task (A : Type) : Type := World → World * list Effect * Result A.

#[export] Instance Task_ret : MRet Task := λ A a w, (w, [], Ok a).

#[export] Instance Task_bind : MBind Task := λ A B f m w,
  match m w with
  | (w1, t1, Ok a) =>
      match f a w1 with
      | (w2, t2, r) => (w2, t1 ++ t2, r)
      end
  | (w1, t1, Throw e) => (w1, t1, Throw e)
  end.

Definition throw {A} (e : string) : Task A := λ w, (w, [], Throw e).

Definition lift {A} (r : Result A) : Task A := λ w, (w, [], r).

Definition get_world : Task World := λ w, (w, [], Ok w).

Definition set_world (w' : World) : Task unit := λ _, (w', [], Ok tt).

(** [try { body } catch { handler }] *)
Definition try_catch {A} (body : Task A) (handler : string → Task A) : Task A :=
  λ w,
  match body w with
  | (w1, t1, Ok a) => (w1, t1, Ok a)
  | (w1, t1, Throw e) =>
      match handler e w1 with
      | (w2, t2, r) => (w2, t1 ++ t2, r)
      end
  end.

(** *** The transport (socket.io) *)

(** [nsp.sockets.get(id)] *)
Definition socket_of (w : World) (i : string) : option Socket :=
  find (λ s, String.eqb (sock_id s) i) (conns w).

(** The ids the adapter holds for a room, in joining order. *)
Definition room_ids (w : World) (roomID : string) : list string :=
  default [] (adapter_rooms w !! roomID).

(** The connections of a room as the adapter enumerates them: the ids of
    the room in joining order, each one's connection if there is one. *)
Definition room_sockets (w : World) (roomID : string) : list Socket :=
  omap (socket_of w) (room_ids w roomID).

(** [io.in(roomID).fetchSockets()] *)
Definition fetchSockets (roomID : string) : Task (list Socket) :=
  w ← get_world; mret (room_sockets w roomID).

(** [socket.rooms] *)
Definition socket_rooms (sid : string) : Task (list string) :=
  w ← get_world;
  mret (match find (λ s, String.eqb (sock_id s) sid) (conns w) with
        | Some s => rooms s
        | None => []
        end).

(** [socket.join(roomID)]: the room enters the rooms of the connection and
    the connection's id enters the room, last if it is new there. *)
Definition socket_join (sid roomID : string) : Task unit :=
  w ← get_world;
  set_world (with_adapter_rooms
               (with_conns w
                  ((λ s, if String.eqb (sock_id s) sid
                         then {| sock_id := sock_id s;
                                 rooms := set_add roomID (rooms s) |}
                         else s) <$> conns w))
               (<[roomID := set_add sid (room_ids w roomID)]> (adapter_rooms w))).

(** The connections an [emit] reaches. *)
Definition recipients (w : World) (t : Target) : list string :=
  match t with
  | ToSocket sid => [sid]
  | InRoom roomID => sock_id <$> room_sockets w roomID
  | BroadcastTo sender roomID
  | VolatileBroadcastTo sender roomID =>
      filter (λ i, i ≠ sender) (sock_id <$> room_sockets w roomID)
  end.

Definition emit (t : Target) (m : Message) : Task unit :=
  λ w, (w, [Emit t m (recipients w t)], Ok tt).

(** *** The Session Cache (SocketDataManager) *)

(** Modelled from the spec: SocketDataManager.js is not among the sources;
    its credential cache is the process-local mapping from a credential to
    the SessionData verified for it, with no expiry check at lookup. *)
Definition getCachedToken (token : string) : Task (option SessionData) :=
  w ← get_world; mret (cachedTokens w !! token).

(** Modelled from the spec: SocketDataManager.js is not among the sources;
    an entry of the credential cache is written after a verification and
    lives until overwritten. *)
Definition setCachedToken (token : string) (decoded : SessionData) : Task unit :=
  w ← get_world;
  set_world (with_cachedTokens w (<[token := decoded]> (cachedTokens w))).

(** Modelled from the spec: SocketDataManager.js is not among the sources;
    the session data of the connections is the process-local mapping from a
    connection id to its SessionData. *)
Definition getSocketData (sid : string) : Task (option SessionData) :=
  w ← get_world; mret (socketData w !! sid).

(** Modelled from the spec: SocketDataManager.js is not among the sources;
    the entry of a connection is written when the connection is accepted. *)
Definition setSocketData (sid : string) (data : SessionData) : Task unit :=
  w ← get_world;
  set_world (with_socketData w (<[sid := data]> (socketData w))).

(** Modelled from the spec: SocketDataManager.js is not among the sources;
    the entry of a connection is removed when the connection closes. *)
Definition deleteSocketData (sid : string) : Task unit :=
  w ← get_world;
  set_world (with_socketData w (delete sid (socketData w))).

(** *** The Room Store and the verifier *)

Definition syncRoomData (roomID : string) (data : option json) (users : list string)
    (lastEditedUser jwtToken : Nullable string) : Task (option Room) :=
  λ w,
  let call := {| call_roomID := roomID; call_data := data; call_users := users;
                 call_lastEditedUser := lastEditedUser;
                 call_jwtToken := jwtToken |} in
  let '(st, room) := store_syncRoomData (store w) call in
  (with_store w st, [SyncRoomData call], Ok room).

Definition jwtVerify (token : string) : Task JwtResult :=
  λ w, (w, [JwtVerify token (env w !! "JWT_SECRET_KEY")],
        Ok (jwt_verify token (env w !! "JWT_SECRET_KEY"))).

(** [JSON.parse(Utils.convertArrayBufferToString(buffer))] *)
Definition decode (buffer : list byte) : Task json :=
  match JSON_parse (convertArrayBufferToString buffer) with
  | Some v => mret v
  | None => throw "SyntaxError"
  end.

(** [Utils.convertStringToArrayBuffer(JSON.stringify(v))] *)
Definition encode (v : json) : list byte :=
  convertStringToArrayBuffer (JSON_stringify v).

(** *** SocketManager *)

(** [data.user]: a TypeError when the connection has no session data. *)
Definition user_of (data : option SessionData) : Task User.t :=
  match data with
  | Some d => mret (user d)
  | None => throw "TypeError"
  end.

Definition verifyToken (token : string) : Task SessionData :=
  cachedToken ← getCachedToken token;
  match cachedToken with
  | Some cached => mret cached
  | None =>
      r ← jwtVerify token;
      match r with
      | Decoded decoded =>
          _ ← setCachedToken token decoded;
          mret decoded
      | TokenExpiredError | JsonWebTokenError => throw "Authentication error"
      end
  end.

(** The argument [next] is called with: nothing, or an error. *)
Inductive Next :=
  | next_ok
  | next_error (e : string).

Definition socketAuthenticateHandler (sid : string) (handshake_token : option string)
  : Task Next :=
  try_catch
    (token ← (if truthy handshake_token
              then match handshake_token with
                   | Some t => mret t
                   | None => throw "No token provided"
                   end
              else throw "No token provided");
     decodedData ← verifyToken token;
     _ ← setSocketData sid decodedData;
     _ ← (if Z.eqb (permissions decodedData) 1
          then emit (ToSocket sid) read_only
          else mret tt);
     mret next_ok)
    (λ _, mret (next_error "Authentication error")).

Definition isSocketReadOnly (sid : string) : Task bool :=
  socketData ← getSocketData sid;
  mret (match socketData with
        | Some d => Z.eqb (permissions d) 1
        | None => false
        end).

Definition getUserSockets (roomID : string) : Task (list UserSocket) :=
  sockets ← fetchSockets roomID;
  mapM (λ s,
          data ← getSocketData (sock_id s);
          u ← user_of data;
          mret {| socketId := sock_id s; socketUser := u |})
       sockets.

Definition getOtherUserSockets (roomID currentSocketId : string)
  : Task (list UserSocket) :=
  sockets ← fetchSockets roomID;
  mapM (λ s,
          data ← getSocketData (sock_id s);
          u ← user_of data;
          mret {| socketId := sock_id s; socketUser := u |})
       (filter (λ s, sock_id s ≠ currentSocketId) sockets).

(** The member-id list the three handlers compute from [userSockets]:
    [Promise.all(userSockets.map(async s => (await getSocketData(s.socketId)).user.id))] *)
Definition userIds_of (userSockets : list UserSocket) : Task (list string) :=
  mapM (λ s,
          data ← getSocketData (socketId s);
          u ← user_of data;
          mret (User.id u))
       userSockets.

Definition joinRoomHandler (sid roomID : string) : Task unit :=
  _ ← socket_join sid roomID;
  userSockets ← getUserSockets roomID;
  userIds ← userIds_of userSockets;
  socketData ← getSocketData sid;
  jwtToken ← match socketData with
             | Some d => mret (match token d with
                               | Some t => Val t
                               | None => Undefined
                               end)
             | None => throw "TypeError"
             end;
  room ← syncRoomData roomID (Some JNull) userIds Null jwtToken;
  match room with
  | Some r =>
      _ ← emit (ToSocket sid) (joined_data (encode (room_data r)) []);
      otherUserSockets ← getOtherUserSockets roomID sid;
      emit (InRoom roomID) (room_user_change otherUserSockets)
  | None => emit (ToSocket sid) room_not_found
  end.

Definition serverBroadcastHandler (sid roomID : string) (encryptedData iv : list byte)
  : Task unit :=
  isReadOnly ← isSocketReadOnly sid;
  socketRooms ← socket_rooms sid;
  if negb (bool_decide (roomID ∈ socketRooms)) || isReadOnly then mret tt
  else
    _ ← emit (BroadcastTo sid roomID) (client_broadcast [encryptedData; iv]);
    decryptedData ← decode encryptedData;
    socketData ← getSocketData sid;
    u ← user_of socketData;
    let userId := User.id u in
    userSockets ← getUserSockets roomID;
    userIds ← userIds_of userSockets;
    payload ← lift (prop "payload" (Some decryptedData));
    elements ← lift (prop "elements" payload);
    _ ← syncRoomData roomID elements userIds (Val userId) Undefined;
    mret tt.

Definition serverVolatileBroadcastHandler (sid roomID : string) (encryptedData : list byte)
  : Task unit :=
  payload ← decode encryptedData;
  type ← lift (prop "type" (Some payload));
  if strict_eq_string type "MOUSE_LOCATION" then
    socketData ← getSocketData sid;
    inner ← lift (prop "payload" (Some payload));
    u ← user_of socketData;
    let eventData :=
      JObj [("type", JStr "MOUSE_LOCATION");
            ("payload", JObj (with_field "user" (json_of_user u) (spread inner)))] in
    emit (VolatileBroadcastTo sid roomID) (client_broadcast [encode eventData])
  else mret tt.

(** The body of the loop of [disconnectingHandler] for one room. *)
Definition disconnecting_room (sid roomID : string) : Task unit :=
  if String.eqb roomID sid then mret tt
  else
    otherUserSockets ← getOtherUserSockets roomID sid;
    _ ← (if bool_decide (0 < List.length otherUserSockets)%nat
         then emit (BroadcastTo sid roomID) (room_user_change otherUserSockets)
         else mret tt);
    userSockets ← getUserSockets roomID;
    userIds ← userIds_of userSockets;
    _ ← syncRoomData roomID (Some JNull) userIds Undefined Undefined;
    mret tt.

(** The handler of [disconnecting].  It asks for the session data and is
    suspended at that [await]; [meanwhile] is what the caller goes on to
    do before the handler resumes.  [socket.rooms] is read only then.  The
    first log line reads [socketData.fileId] and [socketData.user.name]: a
    TypeError without session data. *)
Definition disconnectingHandler (sid : string) (meanwhile : Task unit) : Task unit :=
  socketData ← getSocketData sid;
  _ ← meanwhile;
  _ ← user_of socketData;
  socketRooms ← socket_rooms sid;
  _ ← mapM (disconnecting_room sid) socketRooms;
  mret tt.

Definition handleDisconnect (sid : string) : Task unit :=
  deleteSocketData sid.

Definition handleConnection (sid : string) : Task unit :=
  emit (ToSocket sid) init_room.

(** *** The event loop *)

(** What reaches the server from the clients. *)
Inductive Event :=
  | handshake (sid : string) (handshake_token : option string)
  | join_room (sid roomID : string)
  | server_broadcast (sid roomID : string) (encryptedData iv : list byte)
  | server_volatile_broadcast (sid roomID : string) (encryptedData : list byte)
  | close (sid : string).

Definition connected (w : World) (sid : string) : bool :=
  bool_decide (sid ∈ sock_id <$> conns w).

(** The transport adds an accepted connection, member of its self-room. *)
Definition add_socket (sid : string) : Task unit :=
  w ← get_world;
  set_world (with_adapter_rooms
               (with_conns w (conns w ++ [{| sock_id := sid; rooms := [sid] |}]))
               (<[sid := set_add sid (room_ids w sid)]> (adapter_rooms w))).

(** The transport drops a closing connection: it leaves all its rooms and
    is removed. *)
Definition remove_socket (sid : string) : Task unit :=
  w ← get_world;
  set_world (with_adapter_rooms
               (with_conns w (filter (λ s, sock_id s ≠ sid) (conns w)))
               (filter (λ i, i ≠ sid) <$> adapter_rooms w)).

(** The handling of one event.  The middleware runs on a handshake and the
    connection comes into being only if it calls [next()]; the other events
    are those of a live connection's listeners, whose rejection nobody
    handles.  On a closing the transport fires [disconnecting], leaves the
    rooms, removes the connection and fires [disconnect], all in one go:
    the handler of [disconnecting], suspended at its first [await],
    resumes after that. *)
Definition dispatch (ev : Event) : Task unit :=
  w ← get_world;
  match ev with
  | handshake sid handshake_token =>
      n ← socketAuthenticateHandler sid handshake_token;
      match n with
      | next_ok => _ ← add_socket sid; handleConnection sid
      | next_error _ => mret tt
      end
  | join_room sid roomID =>
      if connected w sid then joinRoomHandler sid roomID else mret tt
  | server_broadcast sid roomID encryptedData iv =>
      if connected w sid
      then serverBroadcastHandler sid roomID encryptedData iv
      else mret tt
  | server_volatile_broadcast sid roomID encryptedData =>
      if connected w sid
      then serverVolatileBroadcastHandler sid roomID encryptedData
      else mret tt
  | close sid =>
      if connected w sid
      then disconnectingHandler sid (_ ← remove_socket sid; handleDisconnect sid)
      else mret tt
  end.

(** The server handling a sequence of events, one after the other.  The
    rejection of a listener's promise is an unhandled rejection, on which
    the process ends: the events after it are not handled. *)
Fixpoint run (evs : list Event) (w : World) : World * list Effect :=
  match evs with
  | [] => (w, [])
  | ev :: evs' =>
      match dispatch ev w with
      | (w1, t1, Ok _) =>
          let '(w2, t2) := run evs' w1 in
          (w2, t1 ++ t2)
      | (w1, t1, Throw _) => (w1, t1)
      end
  end.

(** The messages a connection receives from a list of effects. *)
Definition received (sid : string) (trace : list Effect) : list Message :=
  omap (λ e, match e with
             | Emit _ m to => if bool_decide (sid ∈ to) then Some m else None
             | _ => None
             end) trace.

(** The Room Store calls among a list of effects. *)
Definition store_calls (trace : list Effect) : list StoreCall :=
  omap (λ e, match e with SyncRoomData c => Some c | _ => None end) trace.

(** The signature checks among a list of effects. *)
Definition verifications (trace : list Effect) : list string :=
  omap (λ e, match e with JwtVerify t _ => Some t | _ => None end) trace.

(** The relays of client payloads a connection issued: its durable and
    volatile [client-broadcast] emissions with their recipients. *)
Definition relayed_by (sid : string) (trace : list Effect)
  : list (Target * list (list byte) * list string) :=
  omap (λ e, match e with
             | Emit (BroadcastTo s r) (client_broadcast args) to =>
                 if String.eqb s sid
                 then Some (BroadcastTo s r, args, to) else None
             | Emit (VolatileBroadcastTo s r) (client_broadcast args) to =>
                 if String.eqb s sid
                 then Some (VolatileBroadcastTo s r, args, to) else None
             | _ => None
             end) trace.

End Relay.

(** ** JS strings, continued *)

(** [a || d] for a value [a] that is a string or [undefined] and a string
    [d]. *)
Definition or_default (a : option string) (d : string) : string :=
  match a with
  | Some s => if truthy a then s else d
  | None => d
  end.

(** [`${v}`] in a template literal, for a value that is a string or
    [undefined]. *)
Definition template (v : option string) : string :=
  match v with
  | Some s => s
  | None => "undefined"
  end.

(** [a !== b] for two values that are strings or [undefined]. *)
Definition strict_neq_string (a b : option string) : bool :=
  match a, b with
  | Some x, Some y => negb (String.eqb x y)
  | None, None => false
  | _, _ => true
  end.

(** The character occurs in the string. *)
Fixpoint occurs (c : ascii) (s : string) : bool :=
  match s with
  | EmptyString => false
  | String a s' => Ascii.eqb a c || occurs c s'
  end.

(** ** SetupType.js *)

(** [Utils.getOriginFromUrl] of Utils.js, which is not part of the
    modelled sources: from the configured URL, a string or [undefined], to
    its origin or a falsy value. *)
Class UrlUtils := {
  getOriginFromUrl : option string → option string
}.

Section SetupType.
Context {urlUtils : UrlUtils}.

Definition getSetupType (env : Env) : string :=
  or_default (env !! "SETUP_TYPE") "standalone".

Definition isExApp (env : Env) : bool :=
  String.eqb (getSetupType env) "ex_app".

Definition getNextcloudSocketUrl (env : Env) : string :=
  or_default (getOriginFromUrl (env !! "NEXTCLOUD_URL")) "http://nextcloud.local".

Definition getNextcloudUrl (env : Env) : option string :=
  if isExApp env then env !! "NEXTCLOUD_EX_APP_URL"
  else Some (getNextcloudSocketUrl env).

End SetupType.

(** ** AppManager.js (the registration route) *)

(** [Buffer.from(s, 'base64').toString()] and
    [Buffer.from(s).toString('base64')] of the runtime. *)
Class Base64 := {
  fromBase64 : string → string;
  toBase64 : string → string
}.

(** The request [fetch(url, { method, headers, body })] sends; the body is
    the object that is stringified. *)
Record FetchRequest := {
  fetch_url : string;
  fetch_method : string;
  fetch_headers : list (string * option string);
  fetch_body : json
}.

(** What the handler reads of a response: [ok], [status], and the
    completions of [text()] and [json()]. *)
Record FetchResponse := {
  response_ok : bool;
  response_status : Z;
  response_text : Result string;
  response_json : Result json
}.

(** [fetch] of node-fetch: a response, or a rejection with its message. *)
Class Fetch := {
  fetch : FetchRequest → Result FetchResponse
}.

Inductive ReplyBody :=
  | body_text (s : string)
  | body_json (j : json).

(** What the handler answers with: [res.status(n).send(s)] or
    [res.status(n).json(j)]. *)
Record Reply := {
  reply_status : Z;
  reply_body : ReplyBody
}.

Section Enabled.
Context {urlUtils : UrlUtils} {base64 : Base64} {fetcher : Fetch}.

(** The request the handler sends to Nextcloud on behalf of [userId]. *)
Definition settings_request (this : AppManager) (env : Env) (userId : option string)
  : FetchRequest :=
  {| fetch_url := template (getNextcloudUrl env)
                  +:+ "/index.php/apps/whiteboard/ex_app/settings";
     fetch_method := "POST";
     fetch_headers :=
       [("EX-APP-ID", env !! "APP_ID");
        ("EX-APP-VERSION", env !! "APP_VERSION");
        ("OCS-APIRequest", Some "true");
        ("AUTHORIZATION-APP-API",
         Some (toBase64 (template userId +:+ ":" +:+ template (env !! "APP_SECRET"))));
        ("Content-Type", Some "application/json")];
     fetch_body :=
       JObj (("serverUrl",
              JStr (getNextcloudSocketUrl env
                    +:+ "/index.php/apps/app_api/proxy/whiteboard_websocket"))
             :: match JWT_SECRET_KEY this with
                | Some k => [("secret", JStr k)]
                | None => []
                end) |}.

(** The answer of the [catch] block for an error with message [e]. *)
Definition failed (e : string) : Reply :=
  {| reply_status := 500;
     reply_body := body_text ("Failed to update Nextcloud configuration: " +:+ e) |}.

(** [enabledHandler(req, res)]: the answer, and the requests sent out.
    [authHeader] is [req.headers['authorization-app-api']]. *)
Definition enabledHandler (this : AppManager) (env : Env) (authHeader : option string)
  : Reply * list FetchRequest :=
  match authHeader with
  | None =>
      ({| reply_status := 401;
          reply_body := body_text "Unauthorized: Missing AUTHORIZATION-APP-API header" |},
       [])
  | Some header =>
      if negb (truthy authHeader) then
        ({| reply_status := 401;
            reply_body := body_text "Unauthorized: Missing AUTHORIZATION-APP-API header" |},
         [])
      else
        let pieces := split ":" (fromBase64 header) in
        let userId := pieces !! 0%nat in
        let appSecret := pieces !! 1%nat in
        if strict_neq_string appSecret (env !! "APP_SECRET") then
          ({| reply_status := 401;
              reply_body := body_text "Unauthorized: Invalid APP_SECRET" |},
           [])
        else
          let request := settings_request this env userId in
          (match fetch request with
           | Throw e => failed e
           | Ok response =>
               if negb (response_ok response) then
                 match response_text response with
                 | Ok responseBody =>
                     failed ("HTTP error! status: " +:+ pretty (response_status response)
                             +:+ ", body: " +:+ responseBody)
                 | Throw e => failed e
                 end
               else
                 match response_json response with
                 | Ok data => {| reply_status := 200; reply_body := body_json data |}
                 | Throw e => failed e
                 end
           end,
           [request])
  end.

(** The secret a request presents: the second of the pieces between the
    colons of the decoded header. *)
Definition presented_secret (authHeader : option string) : option string :=
  header ← authHeader; split ":" (fromBase64 header) !! 1%nat.

(** The user a request names: the first of those pieces. *)
Definition presented_user (authHeader : option string) : option string :=
  header ← authHeader; split ":" (fromBase64 header) !! 0%nat.

(** The request passes the check of the handler: it has a non-empty header
    and presents what APP_SECRET holds. *)
Definition authorized (env : Env) (authHeader : option string) : Prop :=
  truthy authHeader = true ∧ presented_secret authHeader = env !! "APP_SECRET".

End Enabled.

(** ** SharedTokenGenerator.js (the token) *)

(** [crypto.createHmac('sha256', key).update(message).digest()]. *)
Class Hmac := {
  hmac_sha256 : string → string → list byte
}.

Section Token.
Context {hmac : Hmac}.

(** [handle(roomId)], [timestamp] being the value of [Date.now()].
    [createHmac] throws a TypeError for a key that is [undefined]. *)
Definition handle (this : SharedTokenGenerator) (roomId : string) (timestamp : N)
  : Result string :=
  let payload := roomId +:+ ":" +:+ pretty timestamp in
  match SHARED_SECRET this with
  | None => Throw "TypeError"
  | Some key =>
      let signature := toString_hex (hmac_sha256 key payload) in
      Ok (payload +:+ ":" +:+ signature)
  end.

End Token.

(** ** SocketManager.js (start-up) *)

(** The adapter of the socket server. *)
Inductive Adapter :=
  | in_memory
  | redis_streams (maxLen : Z).

(** What [init] installs on the socket server: the adapter, the
    middleware ([io.use]), the metrics and the listeners ([io.on]), each
    handler by its name. *)
Record Io := {
  io_adapter : Adapter;
  io_middleware : list string;
  io_metrics : bool;
  io_listeners : list (string * string)
}.

(** [createAdapter(redisClient, options)] of the Redis streams adapter
    together with the read of [strategy.client]: it yields the adapter or
    throws. *)
Class RedisAdapter := {
  createAdapter : Z → Result Adapter
}.

Section Init.
Context {redisAdapter : RedisAdapter}.

(** [shouldUseRedis()], [strategy] being
    [this.storageManager.strategy.constructor.name]. *)
Definition shouldUseRedis (strategy : string) : bool :=
  String.eqb strategy "RedisStrategy".

(** [setupRedisStreamsAdapter()]: the error of a failed set-up is caught
    and logged. *)
Definition setupRedisStreamsAdapter (io : Io) : Io :=
  match createAdapter 10000 with
  | Ok adapter =>
      {| io_adapter := adapter; io_middleware := io_middleware io;
         io_metrics := io_metrics io; io_listeners := io_listeners io |}
  | Throw _ => io
  end.

(** [init()] *)
Definition init (strategy : string) (io : Io) : Io :=
  let io1 := if shouldUseRedis strategy then setupRedisStreamsAdapter io else io in
  {| io_adapter := io_adapter io1;
     io_middleware := io_middleware io1 ++ ["socketAuthenticateHandler"];
     io_metrics := true;
     io_listeners := io_listeners io1 ++ [("connection", "handleConnection")] |}.

End Init.

(** ** Vocabulary of the properties *)

Section RelayVocabulary.
Context {codec : Codec} {verifier : TokenVerifier} {roomStore : RoomStore}.

(** The connections of a room, in enumeration order. *)
Definition members (w : World) (roomID : string) : list Socket :=
  room_sockets w roomID.

(** The rooms a connection has joined. *)
Definition rooms_of (w : World) (sid : string) : list string :=
  match find (λ s, String.eqb (sock_id s) sid) (conns w) with
  | Some s => rooms s
  | None => []
  end.

(** The presence entry of a connection that has session data. *)
Definition user_socket (w : World) (s : Socket) : option UserSocket :=
  d ← socketData w !! sock_id s;
  Some {| socketId := sock_id s; socketUser := user d |}.

(** The presence list of some connections. *)
Definition presence (w : World) (l : list Socket) : list UserSocket :=
  omap (user_socket w) l.

(** The user id on record for a connection. *)
Definition user_id_of (w : World) (sid : string) : option string :=
  d ← socketData w !! sid; Some (User.id (user d)).

(** One user id per connection of the room, in enumeration order. *)
Definition member_ids (w : World) (roomID : string) : list string :=
  omap (λ s, user_id_of w (sock_id s)) (members w roomID).

(** The completion of a lookup that throws a TypeError when the value is
    missing. *)
Definition pure_result {A} (o : option A) : Result A :=
  match o with
  | Some a => Ok a
  | None => Throw "TypeError"
  end.

(** Every connection of the room went through the handshake. *)
Definition room_authenticated (w : World) (roomID : string) : Prop :=
  Forall (λ s, is_Some (socketData w !! sock_id s)) (members w roomID).

(** The connection's session data has permission level 1. *)
Definition read_only_conn (w : World) (sid : string) : Prop :=
  ∃ d, socketData w !! sid = Some d ∧ permissions d = 1.

(** The state after [socket.join(roomID)]. *)
Definition joined (w : World) (sid roomID : string) : World :=
  (socket_join sid roomID w).1.1.

(** The state after the transport has added a connection. *)
Definition added (w : World) (sid : string) : World :=
  (add_socket sid w).1.1.

(** The state after the transport has dropped a connection. *)
Definition removed (w : World) (sid : string) : World :=
  (remove_socket sid w).1.1.

(** The type the handlers look at in a volatile payload: the [type] field
    of the object the buffer decodes to, if it decodes to one. *)
Definition decoded_type (encryptedData : list byte) : option json :=
  match JSON_parse (convertArrayBufferToString encryptedData) with
  | Some (JObj fs) => field "type" fs
  | _ => None
  end.

(** The [payload] field of the object a buffer decodes to. *)
Definition decoded_payload (encryptedData : list byte) : option json :=
  match JSON_parse (convertArrayBufferToString encryptedData) with
  | Some (JObj fs) => field "payload" fs
  | _ => None
  end.

(** The payload fields of the event a volatile relay carries for a sender
    [u]: those of the payload sent, with [user] set to [u]. *)
Definition relayed_fields (u : User.t) (inner : option json) : list (string * json) :=
  with_field "user" (json_of_user u) (spread inner).

(** The event a volatile relay carries for a sender [u]. *)
Definition mouse_location_event (u : User.t) (inner : option json) : json :=
  JObj [("type", JStr "MOUSE_LOCATION"); ("payload", JObj (relayed_fields u inner))].

(** What a volatile broadcast emits, as decided by the decoded type and
    the sender's session data. *)
Definition volatile_trace (w : World) (sid roomID : string) (encryptedData : list byte)
  : list Effect :=
  match socketData w !! sid with
  | Some d =>
      if strict_eq_string (decoded_type encryptedData) "MOUSE_LOCATION" then
        [Emit (VolatileBroadcastTo sid roomID)
           (client_broadcast
              [encode (mouse_location_event (user d) (decoded_payload encryptedData))])
           (recipients w (VolatileBroadcastTo sid roomID))]
      else []
  | None => []
  end.

(** The presence list of a room without the connection [sid]. *)
Definition others (w : World) (sid roomID : string) : list UserSocket :=
  presence w (filter (λ s, sock_id s ≠ sid) (members w roomID)).

(** The Room Store call of [disconnectingHandler] for a room. *)
Definition disconnecting_call (w : World) (roomID : string) : StoreCall :=
  {| call_roomID := roomID; call_data := Some JNull;
     call_users := member_ids w roomID;
     call_lastEditedUser := Undefined; call_jwtToken := Undefined |}.

(** What [disconnectingHandler] does for one room other than the
    self-room: the notification of the others, if any, and the member list
    for the Room Store. *)
Definition disconnecting_trace (w : World) (sid roomID : string) : list Effect :=
  (if bool_decide (0 < List.length (others w sid roomID))%nat
   then [Emit (BroadcastTo sid roomID) (room_user_change (others w sid roomID))
           (recipients w (BroadcastTo sid roomID))]
   else [])
  ++ [SyncRoomData (disconnecting_call w roomID)].

(** An effect is the durable relay of some payload by [sid]. *)
Definition durable_relay_by (sid : string) (e : Effect) : Prop :=
  ∃ roomID args to, e = Emit (BroadcastTo sid roomID) (client_broadcast args) to.

(** An effect is anything but a durable relay by [sid]. *)
Definition no_durable_relay_by (sid : string) (e : Effect) : Prop :=
  ¬ durable_relay_by sid e.

(** The relation that relates any two states. *)
Definition any_state (w w' : World) : Prop := True.

(** An event is a handshake for connection id [sid]. *)
Definition handshake_of (sid : string) (ev : Event) : Prop :=
  ∃ t, ev = handshake sid t.

(** A task keeps a relation between the states before and after it, and
    performs only effects of a given kind, whatever state it starts in. *)
Definition keeps {A} (R : World → World → Prop) (E : Effect → Prop) (t : Task A) : Prop :=
  ∀ w, R w (t w).1.1 ∧ Forall E (t w).1.2.

(** A relation on states and a kind of effects that the parts common to
    all handlers respect: the relation is a preorder that ignores the Room
    Store's state, the rooms joined and a cache entry for a credential the
    verifier accepts, and the kind covers every effect but the relays of
    client payloads on behalf of a sender. *)
Class Frame (R : World → World → Prop) (E : Effect → Prop) : Prop := {
  frame_refl : ∀ w, R w w;
  frame_trans : ∀ w1 w2 w3, R w1 w2 → R w2 w3 → R w1 w3;
  frame_store : ∀ w st, R w (with_store w st);
  frame_cache : ∀ w t d,
    jwt_verify t (env w !! "JWT_SECRET_KEY") = Decoded d →
    R w (with_cachedTokens w (<[t := d]> (cachedTokens w)));
  frame_join : ∀ w s r, R w (joined w s r);
  frame_sync : ∀ c, E (SyncRoomData c);
  frame_verify : ∀ t s, E (JwtVerify t s);
  frame_to_socket : ∀ s m to, E (Emit (ToSocket s) m to);
  frame_in_room : ∀ r m to, E (Emit (InRoom r) m to);
  frame_volatile : ∀ s r m to, E (Emit (VolatileBroadcastTo s r) m to);
  frame_presence : ∀ t us to, E (Emit t (room_user_change us) to)
}.

(** What the relation and the kind of effects must allow for the handling
    of an event to respect them: the changes the event makes to the
    connections and their session data, and the durable relay it may
    draw. *)
Definition respects (R : World → World → Prop) (E : Effect → Prop) (ev : Event) : Prop :=
  match ev with
  | handshake s _ =>
      (∀ w d, R w (with_socketData w (<[s := d]> (socketData w)))) ∧
      (∀ w, R w (added w s))
  | server_broadcast s r b iv =>
      ∀ to, E (Emit (BroadcastTo s r) (client_broadcast [b; iv]) to)
  | close s =>
      (∀ w, R w (removed w s)) ∧
      (∀ w, R w (with_socketData w (delete s (socketData w))))
  | _ => True
  end.

(** Every entry of the later credential cache was in the earlier one or
    holds the claims the verifier decodes for its credential, the
    environment being the same. *)
Definition cache_verified (w w' : World) : Prop :=
  env w' = env w ∧
  ∀ t d, cachedTokens w' !! t = Some d →
         cachedTokens w !! t = Some d ∨
         jwt_verify t (env w !! "JWT_SECRET_KEY") = Decoded d.

(** Every connection went through the handshake: it has session data. *)
Definition authenticated (w : World) : Prop :=
  ∀ i, i ∈ sock_id <$> conns w → is_Some (socketData w !! i).

(** The same connections with the same session data. *)
Definition same_sessions (w w' : World) : Prop :=
  socketData w' = socketData w ∧ sock_id <$> conns w' = sock_id <$> conns w.

(** The kind of all effects. *)
Definition any_effect (e : Effect) : Prop := True.

(** What concerns one connection in a state: its session data and whether
    it is connected. *)
Definition same_conn (sid : string) (w w' : World) : Prop :=
  socketData w' !! sid = socketData w !! sid ∧ connected w' sid = connected w sid.

(** The connection is read-only for as long as it is connected. *)
Definition read_only_while_connected (sid : string) (w : World) : Prop :=
  connected w sid = false ∨ read_only_conn w sid.

End RelayVocabulary.

(** ** A small instance for the examples *)

Module Example.

Definition quote : string := String "034"%char EmptyString.

Definition quoted (s : string) : string := quote +:+ s +:+ quote.

(** JSON text of a value whose strings need no escaping. *)
Fixpoint stringify (v : json) : string :=
  match v with
  | JNull => "null"
  | JBool true => "true"
  | JBool false => "false"
  | JNum n => pretty n
  | JStr s => quoted s
  | JArr items =>
      "[" +:+ (fix go (l : list json) : string :=
                 match l with
                 | [] => EmptyString
                 | x :: l' =>
                     stringify x +:+
                     match l' with [] => EmptyString | _ => "," +:+ go l' end
                 end) items +:+ "]"
  | JObj fs =>
      "{" +:+ (fix go (l : list (string * json)) : string :=
                 match l with
                 | [] => EmptyString
                 | (k, x) :: l' =>
                     quoted k +:+ ":" +:+ stringify x +:+
                     match l' with [] => EmptyString | _ => "," +:+ go l' end
                 end) fs +:+ "}"
  end.

Definition cursor : json :=
  JObj [("type", JStr "MOUSE_LOCATION");
        ("payload", JObj [("pointer", JObj [("x", JNum 10); ("y", JNum 20)]);
                          ("user", JObj [("id", JStr "mallory")])])].

Definition scene : json :=
  JObj [("type", JStr "SCENE_UPDATE");
        ("payload", JObj [("elements", JArr [JObj [("id", JStr "e1")]])])].

Definition idle : json :=
  JObj [("type", JStr "IDLE_STATUS"); ("payload", JObj [])].

(** The values the example parser knows the text of. *)
Definition vocabulary : list json := [cursor; scene; idle].

Definition parse (s : string) : option json :=
  find (λ v, String.eqb (stringify v) s) vocabulary.

#[export] Instance codec : Codec := {|
  JSON_parse := parse;
  JSON_stringify := stringify;
  convertArrayBufferToString := string_of_list_byte;
  convertStringToArrayBuffer := list_byte_of_string
|}.

Definition alice : User.t := User.mk "alice" "Alice".
Definition bob : User.t := User.mk "bob" "Bob".

Definition alice_session : SessionData :=
  {| user := alice; fileId := "doc-42"; permissions := 31; token := Some "jwt-alice" |}.

Definition bob_session : SessionData :=
  {| user := bob; fileId := "doc-42"; permissions := 1; token := Some "jwt-bob" |}.

(** A verifier that accepts two credentials and knows a third as expired. *)
#[export] Instance verifier : TokenVerifier := {|
  jwt_verify t _ :=
    if String.eqb t "jwt-alice" then Decoded alice_session
    else if String.eqb t "jwt-bob" then Decoded bob_session
    else if String.eqb t "jwt-old" then TokenExpiredError
    else JsonWebTokenError
|}.

(** A Room Store that holds the documents by room id and answers with the
    room when it has the document. *)
#[export] Instance roomStore : RoomStore := {|
  StoreSt := gmap string json;
  store_syncRoomData st call := (st, (λ d, {| room_data := d |}) <$> st !! call_roomID call)
|}.

Definition documents : gmap string json :=
  {[ "doc-42" := JArr [] ]}.

Definition sock (sid : string) (joined_rooms : list string) : Socket :=
  {| sock_id := sid; rooms := sid :: joined_rooms |}.

(** Alice on connection A in room doc-42, Bob connected on B, not yet in
    the room. *)
Definition w_alice_in : World :=
  {| conns := [sock "A" ["doc-42"]; sock "B" []];
     adapter_rooms := {[ "A" := ["A"]; "B" := ["B"]; "doc-42" := ["A"] ]};
     socketData := {[ "A" := alice_session; "B" := bob_session ]};
     cachedTokens := ∅;
     env := {[ "JWT_SECRET_KEY" := "s3cret" ]};
     store := documents |}.

(** Alice on A and read-only Bob on B, both in room doc-42. *)
Definition w_both_in : World :=
  {| conns := [sock "A" ["doc-42"]; sock "B" ["doc-42"]];
     adapter_rooms := {[ "A" := ["A"]; "B" := ["B"]; "doc-42" := ["A"; "B"] ]};
     socketData := {[ "A" := alice_session; "B" := bob_session ]};
     cachedTokens := ∅;
     env := {[ "JWT_SECRET_KEY" := "s3cret" ]};
     store := documents |}.

(** Alice on two connections A and A2, A in the room, with Bob on B. *)
Definition w_two_tabs : World :=
  {| conns := [sock "A" ["doc-42"]; sock "A2" []; sock "B" ["doc-42"]];
     adapter_rooms := {[ "A" := ["A"]; "A2" := ["A2"]; "B" := ["B"];
                         "doc-42" := ["A"; "B"] ]};
     socketData := {[ "A" := alice_session; "A2" := alice_session;
                      "B" := bob_session ]};
     cachedTokens := ∅;
     env := {[ "JWT_SECRET_KEY" := "s3cret" ]};
     store := documents |}.

(** A server that has seen the credential jwt-old before it expired. *)
Definition w_cached : World :=
  {| conns := [];
     adapter_rooms := ∅;
     socketData := ∅;
     cachedTokens := {[ "jwt-old" := alice_session ]};
     env := {[ "JWT_SECRET_KEY" := "s3cret" ]};
     store := documents |}.

Definition cursor_bytes : list byte := list_byte_of_string (stringify cursor).
Definition scene_bytes : list byte := list_byte_of_string (stringify scene).
Definition idle_bytes : list byte := list_byte_of_string (stringify idle).
Definition iv_bytes : list byte := list_byte_of_string "iv-0001".

End Example.

(** ** Vocabulary of the properties, continued *)

(** A verifier that refuses every credential. *)
Definition no_verifier : TokenVerifier :=
  {| jwt_verify _ _ := JsonWebTokenError |}.

Section SessionVocabulary.
Context {codec : Codec} {verifier : TokenVerifier} {roomStore : RoomStore}.

(** What a durable broadcast reads for the Room Store from the buffer it
    relays: [decryptedData.payload.elements], or the error thrown on the
    way to it. *)
Definition decoded_elements (encryptedData : list byte) : Result (option json) :=
  match JSON_parse (convertArrayBufferToString encryptedData) with
  | Some v =>
      match prop "payload" (Some v) with
      | Ok payload => prop "elements" payload
      | Throw e => Throw e
      end
  | None => Throw "SyntaxError"
  end.

(** The claims the handshake accepts a credential with in a state: those
    cached for it, else those the verifier decodes. *)
Definition accepted_claims (w : World) (tok : string) : option SessionData :=
  match cachedTokens w !! tok with
  | Some cached => Some cached
  | None =>
      match jwt_verify tok (env w !! "JWT_SECRET_KEY") with
      | Decoded decoded => Some decoded
      | _ => None
      end
  end.

(** The later credential cache holds every entry of the earlier one. *)
Definition cache_kept (w w' : World) : Prop :=
  env w' = env w ∧ cachedTokens w ⊆ cachedTokens w'.

(** The same connections, session data, credential cache and environment:
    all of the state but the Room Store's and the rooms joined. *)
Definition sessions_kept (w w' : World) : Prop :=
  socketData w' = socketData w ∧ cachedTokens w' = cachedTokens w ∧
  env w' = env w ∧ sock_id <$> conns w' = sock_id <$> conns w.

(** An event of a connection's listeners other than its closing. *)
Definition relay_event (ev : Event) : Prop :=
  match ev with
  | join_room _ _ | server_broadcast _ _ _ _ | server_volatile_broadcast _ _ _ => True
  | handshake _ _ | close _ => False
  end.

End SessionVocabulary.

(** ** A small instance for the examples of the control plane *)

Module ControlExample.

(** Stand-ins for the runtime: headers that are given decoded, URLs that
    are origins already, and a digest that is the bytes of the key followed
    by those of the message. *)
#[export] Instance base64 : Base64 := {|
  fromBase64 s := s;
  toBase64 s := s
|}.

#[export] Instance urlUtils : UrlUtils := {|
  getOriginFromUrl url := url
|}.

#[export] Instance hmac : Hmac := {|
  hmac_sha256 key message := list_byte_of_string (key +:+ message)
|}.

(** A Nextcloud that answers every request with an empty object. *)
#[export] Instance fetcher : Fetch := {|
  fetch _ := Ok {| response_ok := true; response_status := 200;
                   response_text := Ok "{}"; response_json := Ok (JObj []) |}
|}.

Definition app : AppManager :=
  {| METRICS_TOKEN := None; JWT_SECRET_KEY := Some "s3cret" |}.

Definition generator : SharedTokenGenerator :=
  {| SHARED_SECRET := Some "s3cret" |}.

End ControlExample.
(* ===================================================================== *)
(** * Part II: properties                                                 *)
(* ===================================================================== *)

(** ** Secret provisioning *)

Lemma toString_hex_length bs :
  String.length (toString_hex bs) = (2 * List.length bs)%nat.
Proof. induction bs as [|b bs IH]; simpl; lia. Qed.

Lemma truthy_Some_iff s : truthy (Some s) = true ↔ s ≠ "".
Proof.
  unfold truthy. destruct (String.eqb_spec s ""); simpl; split; congruence.
Qed.

Lemma toString_hex_truthy bs :
  List.length bs = 32%nat → truthy (Some (toString_hex bs)) = true.
Proof.
  intros Hlen. apply truthy_Some_iff. intros Heq.
  pose proof (toString_hex_length bs) as Hl. rewrite Heq, Hlen in Hl.
  simpl in Hl. lia.
Qed.

Lemma getOrCreateJwtSecretKey_sets rnd env :
  List.length rnd = 32%nat →
  ∃ k, getOrCreateJwtSecretKey rnd env
       = (<["JWT_SECRET_KEY" := k]> env, Some k) ∧ k ≠ "".
Proof.
  intros Hlen. unfold getOrCreateJwtSecretKey.
  destruct (env !! "JWT_SECRET_KEY") as [k|] eqn:Hk.
  - destruct (truthy (Some k)) eqn:Ht; simpl.
    + exists k. rewrite insert_id by done. rewrite Hk.
      split; [done|]. by apply truthy_Some_iff.
    + exists (toString_hex rnd). rewrite lookup_insert_eq.
      split; [done|]. apply truthy_Some_iff. by apply toString_hex_truthy.
  - simpl. exists (toString_hex rnd). rewrite lookup_insert_eq.
    split; [done|]. apply truthy_Some_iff. by apply toString_hex_truthy.
Qed.

Lemma getOrCreateJwtSecretKey_keeps rnd env k :
  env !! "JWT_SECRET_KEY" = Some k → k ≠ "" →
  getOrCreateJwtSecretKey rnd env = (env, Some k).
Proof.
  intros Hk Hne. unfold getOrCreateJwtSecretKey. rewrite Hk.
  apply truthy_Some_iff in Hne. rewrite Hne. simpl. by rewrite Hk.
Qed.

Lemma getOrCreateJwtSecretKey_calls_keep draws env k :
  env !! "JWT_SECRET_KEY" = Some k → k ≠ "" →
  getOrCreateJwtSecretKey_calls draws env = (env, (λ _, Some k) <$> draws).
Proof.
  intros Hk Hne. induction draws as [|d ds IH]; [done|].
  cbn [getOrCreateJwtSecretKey_calls].
  rewrite (getOrCreateJwtSecretKey_keeps d env k Hk Hne). by rewrite IH.
Qed.

(** C9: getOrCreateJwtSecretKey is idempotent.  After a first call that
    may draw 32 random bytes, JWT_SECRET_KEY is set to a non-empty value,
    which the call returns; every later call returns that value and leaves
    the environment as it is; hence SharedTokenGenerator and AppManager,
    constructed one after the other in either order, hold the same
    secret. *)
Theorem getOrCreateJwtSecretKey_idempotent env rnd1 rnd2 :
  List.length rnd1 = 32%nat → List.length rnd2 = 32%nat →
  (∃ k, k ≠ EmptyString ∧
        getOrCreateJwtSecretKey rnd1 env = (<["JWT_SECRET_KEY" := k]> env, Some k) ∧
        <["JWT_SECRET_KEY" := k]> env !! "JWT_SECRET_KEY" = Some k ∧
        ∀ draws,
          getOrCreateJwtSecretKey_calls draws (<["JWT_SECRET_KEY" := k]> env)
          = (<["JWT_SECRET_KEY" := k]> env, (λ _, Some k) <$> draws)) ∧
  (let '(env1, generator) := SharedTokenGenerator_new rnd1 env in
   let '(env2, app) := AppManager_new rnd2 env1 in
   SHARED_SECRET generator = JWT_SECRET_KEY app ∧
   truthy (SHARED_SECRET generator) = true ∧ env2 = env1) ∧
  (let '(env1, app) := AppManager_new rnd1 env in
   let '(env2, generator) := SharedTokenGenerator_new rnd2 env1 in
   SHARED_SECRET generator = JWT_SECRET_KEY app ∧
   truthy (JWT_SECRET_KEY app) = true ∧ env2 = env1).
Proof.
  intros Hlen1 Hlen2.
  destruct (getOrCreateJwtSecretKey_sets rnd1 env Hlen1) as (k & Hfirst & Hk).
  assert (<["JWT_SECRET_KEY" := k]> env !! "JWT_SECRET_KEY" = Some k) as Hset
    by apply lookup_insert_eq.
  pose proof (getOrCreateJwtSecretKey_keeps rnd2 _ k Hset Hk) as Hsecond.
  split; [|split].
  - exists k. repeat split; try done.
    intros draws. by apply getOrCreateJwtSecretKey_calls_keep.
  - unfold SharedTokenGenerator_new, AppManager_new.
    rewrite Hfirst, Hsecond. cbn. repeat split. by apply truthy_Some_iff.
  - unfold SharedTokenGenerator_new, AppManager_new.
    rewrite Hfirst, Hsecond. cbn. repeat split. by apply truthy_Some_iff.
Qed.

(** ** The metrics route *)

Lemma truthy_false_iff v : truthy v = false ↔ v = None ∨ v = Some EmptyString.
Proof.
  destruct v as [s|]; cbn.
  - rewrite negb_false_iff, String.eqb_eq. split; [intros ->; by right|].
    intros [H|H]; [done|]. by injection H.
  - split; [by left|done].
Qed.

Lemma strict_neq_true_iff token expected :
  strict_neq token expected = true ↔ token ≠ QString <$> expected.
Proof.
  destruct token as [[t|]|], expected as [e|]; cbn; try (split; congruence).
  rewrite negb_true_iff, String.eqb_neq. split; congruence.
Qed.

(** The pieces of a split do not hold the separator. *)
Lemma split_pieces c s : Forall (λ p, occurs c p = false) (split c s).
Proof.
  induction s as [|a s IH]; cbn [split]; [by constructor|].
  destruct (Ascii.eqb a c) eqn:Hac; [by constructor|].
  destruct (split c s) as [|h t];
    [by repeat constructor; cbn [occurs]; rewrite Hac|].
  inversion_clear IH as [|?? Hh Ht]. constructor; [|done].
  cbn [occurs]. by rewrite Hac, Hh.
Qed.

(** A string without the separator is its own single piece. *)
Lemma split_none c s : occurs c s = false → split c s = [s].
Proof.
  induction s as [|a s IH]; cbn [split occurs]; [done|].
  intros [Hac Hs]%orb_false_elim. rewrite Hac, IH; done.
Qed.

(** A separator after a string without one ends the first piece. *)
Lemma split_first c a b :
  occurs c a = false → split c (a +:+ String c b) = a :: split c b.
Proof.
  induction a as [|x a IH].
  - intros _. change (EmptyString +:+ String c b) with (String c b).
    cbn [split]. by rewrite Ascii.eqb_refl.
  - change (String x a +:+ String c b) with (String x (a +:+ String c b)).
    cbn [split occurs]. intros [Hxc Ha]%orb_false_elim. rewrite Hxc, IH; done.
Qed.


(** The token the metrics route compares: the second word of the header
    if there is a non-empty one, else the query parameter. *)
Lemma request_token_word req :
  request_token req
  = match h ← headers_authorization req; split " " h !! 1%nat with
    | Some t => if String.eqb t "" then query_token req else Some (QString t)
    | None => query_token req
    end.
Proof.
  unfold request_token. destruct (headers_authorization req) as [h|]; [|done].
  cbn [mbind option_bind]. destruct (split " " h !! 1%nat) as [t|]; [|done].
  cbn [truthy]. by destruct (String.eqb t "").
Qed.

(** C10 (amended): the metrics route answers 403 exactly when
    METRICS_TOKEN is unset or empty, or the token of the request is not
    that value; with METRICS_TOKEN unset or empty every request gets 403;
    any other request gets the metrics with status 200.  The token of the
    request is the second space-separated word of the authorization
    header, whatever the first word, if there is a non-empty one, and the
    query parameter only otherwise: without a header, or with a header of
    one word. *)
Theorem metrics_forbidden_iff this register_metrics register_contentType req :
  let res := metricsHandler this register_metrics register_contentType req in
  let supplied :=
    match h ← headers_authorization req; split " " h !! 1%nat with
    | Some t => if String.eqb t "" then query_token req else Some (QString t)
    | None => query_token req
    end in
  (status res = 403 ↔
   (METRICS_TOKEN this = None ∨ METRICS_TOKEN this = Some EmptyString) ∨
   supplied ≠ QString <$> METRICS_TOKEN this) ∧
  (METRICS_TOKEN this = None ∨ METRICS_TOKEN this = Some EmptyString →
   ∀ req', status (metricsHandler this register_metrics register_contentType req')
           = 403) ∧
  (status res ≠ 403 →
   res = {| status := 200; contentType := Some register_contentType;
            body := register_metrics |}) ∧
  (∀ scheme t,
     occurs " " scheme = false → occurs " " t = false → t ≠ EmptyString →
     headers_authorization req = Some (scheme +:+ " " +:+ t) →
     supplied = Some (QString t)) ∧
  (headers_authorization req = None → supplied = query_token req) ∧
  (∀ h, headers_authorization req = Some h → occurs " " h = false →
        supplied = query_token req).
Proof.
  intros res supplied. unfold res, metricsHandler.
  split; [|split; [|split; [|split; [|split]]]].
  - rewrite request_token_word. fold supplied.
    rewrite <- truthy_false_iff, <- strict_neq_true_iff.
    destruct (truthy (METRICS_TOKEN this)), (strict_neq _ _); cbn;
      (split; intros H; [first [done|by left|by right]|]);
      first [done|by destruct H].
  - intros Hunset%truthy_false_iff req'. by rewrite Hunset.
  - by destruct (negb _ || _).
  - intros scheme t Hscheme Hword Hne Hheader. unfold supplied. rewrite Hheader.
    cbn [mbind option_bind]. change (" " +:+ t) with (String " " t).
    rewrite (split_first _ _ _ Hscheme), (split_none _ _ Hword).
    cbn [lookup list_lookup].
    by rewrite (proj2 (String.eqb_neq t "") Hne).
  - intros Hheader. unfold supplied. by rewrite Hheader.
  - intros h Hheader Hone. unfold supplied. rewrite Hheader.
    cbn [mbind option_bind]. by rewrite (split_none _ _ Hone).
Qed.
Section ControlFacts.
Context {urlUtils : UrlUtils} {base64 : Base64} {fetcher : Fetch} {hmac : Hmac}
        {redisAdapter : RedisAdapter}.





(** ** The registration route *)

Lemma strict_neq_string_false a b : strict_neq_string a b = false ↔ a = b.
Proof.
  destruct a as [x|], b as [y|]; cbn; try (split; congruence).
  rewrite negb_false_iff, String.eqb_eq. split; congruence.
Qed.

Lemma authorized_dec env authHeader : Decision (authorized env authHeader).
Proof. unfold authorized. apply _. Qed.

(** What the handler does with a request that passes the check, and with
    one that does not. *)
Lemma enabledHandler_authorized this env authHeader :
  authorized env authHeader →
  let request := settings_request this env (presented_user authHeader) in
  enabledHandler this env authHeader
  = (match fetch request with
     | Throw e => failed e
     | Ok response =>
         if negb (response_ok response) then
           match response_text response with
           | Ok responseBody =>
               failed ("HTTP error! status: " +:+ pretty (response_status response)
                       +:+ ", body: " +:+ responseBody)
           | Throw e => failed e
           end
         else
           match response_json response with
           | Ok data => {| reply_status := 200; reply_body := body_json data |}
           | Throw e => failed e
           end
     end, [request]).
Proof.
  intros [Ht Hs]. unfold enabledHandler.
  destruct authHeader as [header|]; [|done]. rewrite Ht. cbn [negb].
  cbn [presented_secret presented_user mbind option_bind] in *.
  by rewrite (proj2 (strict_neq_string_false _ _) Hs).
Qed.

Lemma enabledHandler_unauthorized this env authHeader :
  ¬ authorized env authHeader →
  reply_status (enabledHandler this env authHeader).1 = 401 ∧
  (enabledHandler this env authHeader).2 = [].
Proof.
  intros Hno. unfold enabledHandler.
  destruct authHeader as [header|]; [|done].
  destruct (truthy (Some header)) eqn:Ht; cbn [negb]; [|done].
  destruct (strict_neq_string _ _) eqn:Hs; [done|].
  destruct Hno. split; [done|].
  by apply strict_neq_string_false in Hs.
Qed.

(** X2: the registration route sends its request to Nextcloud, which
    carries the JWT secret, exactly when the request has a non-empty
    AUTHORIZATION-APP-API header whose decoded second piece is what
    APP_SECRET holds; any other request is answered 401 and nothing is
    sent.  It sends at most that one request, it answers 200 only with the
    JSON of a response that was ok, and its answers are 200, 401 or 500. *)
Theorem enabledHandler_gate this env authHeader :
  let out := enabledHandler this env authHeader in
  let request := settings_request this env (presented_user authHeader) in
  (out.2 = [request] ↔ authorized env authHeader) ∧
  (¬ authorized env authHeader → reply_status out.1 = 401 ∧ out.2 = []) ∧
  (reply_status out.1 = 200 →
   ∃ response data,
     fetch request = Ok response ∧ response_ok response = true ∧
     response_json response = Ok data ∧ reply_body out.1 = body_json data) ∧
  (reply_status out.1 = 200 ∨ reply_status out.1 = 401 ∨ reply_status out.1 = 500).
Proof.
  intros out request. unfold out.
  destruct (authorized_dec env authHeader) as [Hyes|Hno].
  - rewrite (enabledHandler_authorized this env authHeader Hyes). fold request.
    cbn [fst snd]. split; [done|]. split; [done|].
    destruct (fetch request) as [response|e]; [|split; [done|by right; right]].
    destruct (response_ok response) eqn:Hok; cbn [negb].
    + destruct (response_json response) as [data|e] eqn:Hjson;
        [|split; [done|by right; right]].
      split; [|by left].
      intros _. by exists response, data.
    + destruct (response_text response); (split; [done|by right; right]).
  - destruct (enabledHandler_unauthorized this env authHeader Hno) as [H401 Hnone].
    split; [|split; [done|split]].
    + rewrite Hnone. split; [done|by intros ?].
    + rewrite H401. done.
    + right. by left.
Qed.

(** X3: an APP_SECRET that contains a colon locks the registration route:
    the secret a request presents is a piece between colons and never
    holds one, so every request is answered 401 and Nextcloud is never
    contacted. *)
Theorem app_secret_with_colon_locks_out this env secret authHeader :
  env !! "APP_SECRET" = Some secret →
  occurs ":" secret = true →
  reply_status (enabledHandler this env authHeader).1 = 401 ∧
  (enabledHandler this env authHeader).2 = [].
Proof.
  intros Hsecret Hcolon. apply enabledHandler_unauthorized.
  intros [_ Hpresented]. rewrite Hsecret in Hpresented.
  destruct authHeader as [header|]; [|done].
  cbn [presented_secret mbind option_bind] in Hpresented.
  pose proof (split_pieces ":" (fromBase64 header)) as Hpieces.
  rewrite Forall_forall in Hpieces.
  assert (occurs ":" secret = false) as Hnone
    by (apply Hpieces; by eapply list_elem_of_lookup_2).
  congruence.
Qed.

(** X4: with APP_SECRET not set, the check compares [undefined] with
    [undefined] for a header whose decoded value has no colon: such a
    request, whatever it holds, passes, and the request with the JWT secret
    goes out in the name of the whole decoded value. *)
Theorem unset_app_secret_accepts_colonless_header this env header :
  env !! "APP_SECRET" = None →
  header ≠ EmptyString →
  occurs ":" (fromBase64 header) = false →
  (enabledHandler this env (Some header)).2
  = [settings_request this env (Some (fromBase64 header))] ∧
  reply_status (enabledHandler this env (Some header)).1 ≠ 401.
Proof.
  intros Hunset Hne Hnocolon.
  assert (authorized env (Some header)) as Hauth.
  { split; [by apply truthy_Some_iff|].
    cbn [presented_secret mbind option_bind].
    by rewrite (split_none _ _ Hnocolon), Hunset. }
  rewrite (enabledHandler_authorized this env (Some header) Hauth).
  cbn [presented_user mbind option_bind]. rewrite (split_none _ _ Hnocolon).
  cbn [fst snd lookup]. split; [done|].
  destruct (fetch _) as [response|e]; [|done].
  destruct (response_ok response); cbn [negb].
  - by destruct (response_json response).
  - by destruct (response_text response).
Qed.

(** ** The shared token *)

Lemma split_nonempty c s : split c s ≠ [].
Proof.
  destruct s as [|a s]; cbn [split]; [done|].
  destruct (Ascii.eqb a c); [done|]. by destruct (split c s).
Qed.

(** Splitting around a separator splits the two sides. *)
Lemma split_app c a b :
  split c (a +:+ String c b) = split c a ++ split c b.
Proof.
  induction a as [|x a IH].
  - change (EmptyString +:+ String c b) with (String c b).
    cbn [split]. by rewrite Ascii.eqb_refl.
  - change (String x a +:+ String c b) with (String x (a +:+ String c b)).
    cbn [split]. rewrite IH. destruct (Ascii.eqb x c); [done|].
    pose proof (split_nonempty c a) as Hne.
    by destruct (split c a).
Qed.

Lemma split_occurs c s : occurs c s = true → (1 < List.length (split c s))%nat.
Proof.
  induction s as [|a s IH]; cbn [split occurs]; [done|].
  pose proof (split_nonempty c s) as Hne.
  destruct (Ascii.eqb a c); cbn [orb].
  - intros _. destruct (split c s); [done|]. cbn. lia.
  - intros Hs%IH. destruct (split c s); [done|]. done.
Qed.

Lemma hex_digit_occurs n : Ascii.eqb (hex_digit n) ":" = false.
Proof. do 16 (destruct n as [|n]; [done|]). done. Qed.

Lemma toString_hex_occurs bs : occurs ":" (toString_hex bs) = false.
Proof.
  induction bs as [|b bs IH]; [done|].
  cbn [toString_hex occurs]. by rewrite !hex_digit_occurs, IH.
Qed.

Lemma pretty_N_char_occurs x : Ascii.eqb (pretty_N_char x) ":" = false.
Proof. unfold pretty_N_char. by repeat case_match. Qed.

Lemma pretty_N_go_occurs x s :
  occurs ":" s = false → occurs ":" (pretty_N_go x s) = false.
Proof.
  revert s. induction (N.lt_wf_0 x) as [x _ IH]; intros s Hs.
  assert (x = 0 ∨ 0 < x)%N as [->|Hpos] by lia.
  - by rewrite pretty_N_go_0.
  - rewrite pretty_N_go_step by done. apply IH.
    + by apply N.div_lt.
    + cbn [occurs]. by rewrite pretty_N_char_occurs, Hs.
Qed.

Lemma pretty_N_occurs (x : N) : occurs ":" (pretty x) = false.
Proof.
  unfold pretty, pretty_N. case_decide; [done|].
  by apply pretty_N_go_occurs.
Qed.

(** X5: a generator that holds a key returns, for any room id and time
    stamp, a token that splits at its colons into the pieces of the room
    id, the decimal time stamp and the hexadecimal signature of
    [roomId:timestamp] under the key: three pieces, the first being the
    room id, exactly when the room id holds no colon, and more than three
    otherwise. *)
Theorem handle_token_pieces this key roomId timestamp :
  SHARED_SECRET this = Some key →
  let signature :=
    toString_hex (hmac_sha256 key (roomId +:+ ":" +:+ pretty timestamp)) in
  ∃ token,
    handle this roomId timestamp = Ok token ∧
    split ":" token = split ":" roomId ++ [pretty timestamp; signature] ∧
    (occurs ":" roomId = false →
     split ":" token = [roomId; pretty timestamp; signature]) ∧
    (occurs ":" roomId = true → (3 < List.length (split ":" token))%nat).
Proof.
  intros Hkey signature. unfold handle. rewrite Hkey. fold signature.
  eexists. split; [done|].
  assert (split ":" ((roomId +:+ ":" +:+ pretty timestamp) +:+ ":" +:+ signature)
          = split ":" roomId ++ [pretty timestamp; signature]) as Hsplit.
  { change (":" +:+ signature) with (String ":" signature).
    change (":" +:+ pretty timestamp) with (String ":" (pretty timestamp)).
    rewrite !split_app, <- app_assoc.
    rewrite (split_none _ _ (pretty_N_occurs timestamp)).
    by rewrite (split_none ":" signature (toString_hex_occurs _)). }
  rewrite Hsplit. split; [done|]. split.
  - intros Hnone. by rewrite (split_none _ _ Hnone).
  - intros Hsome%split_occurs. rewrite length_app. cbn [List.length]. lia.
Qed.

(** X6: the secret the registration route sends to Nextcloud is the key
    the tokens are signed with: for an AppManager and a
    SharedTokenGenerator constructed one after the other in a process,
    whatever the environment held before, the request of the route carries
    a non-empty [secret], and the generator never throws and signs with
    that same value. *)
Theorem registered_secret_signs_tokens rnd1 rnd2 env userId roomId timestamp :
  List.length rnd1 = 32%nat →
  let app_made := AppManager_new rnd1 env in
  let gen_made := SharedTokenGenerator_new rnd2 app_made.1 in
  let payload := roomId +:+ ":" +:+ pretty timestamp in
  ∃ key,
    key ≠ EmptyString ∧
    prop "secret" (Some (fetch_body (settings_request app_made.2 gen_made.1 userId)))
    = Ok (Some (JStr key)) ∧
    handle gen_made.2 roomId timestamp
    = Ok (payload +:+ ":" +:+ toString_hex (hmac_sha256 key payload)).
Proof.
  intros Hlen app_made gen_made payload.
  destruct (getOrCreateJwtSecretKey_sets rnd1 env Hlen) as (key & Hfirst & Hne).
  assert (app_made = (<["JWT_SECRET_KEY" := key]> env,
                      {| METRICS_TOKEN := env !! "METRICS_TOKEN";
                         JWT_SECRET_KEY := Some key |})) as Happ.
  { unfold app_made, AppManager_new. by rewrite Hfirst. }
  assert (gen_made = (<["JWT_SECRET_KEY" := key]> env,
                      {| SHARED_SECRET := Some key |})) as Hgen.
  { unfold gen_made, SharedTokenGenerator_new. rewrite Happ. cbn [fst].
    rewrite (getOrCreateJwtSecretKey_keeps rnd2 _ key); [done| |done].
    by rewrite lookup_insert_eq. }
  exists key. rewrite Happ, Hgen. cbn [fst snd]. split; [done|]. split.
  - unfold settings_request. cbn [fetch_body JWT_SECRET_KEY prop field].
    by rewrite String.eqb_refl.
  - unfold handle. cbn [SHARED_SECRET]. done.
Qed.

(** ** Start-up of the socket server *)

(** X7: [init] always installs the handshake middleware and the
    connection listener after what was installed before and switches the
    metrics on, whatever becomes of the adapter; the adapter changes only
    under the Redis strategy and only to the adapter the set-up yields with
    a stream length of 10000: under any other strategy, and when the set-up
    throws, the server starts with the adapter it had. *)
Theorem init_installs strategy io :
  let io' := init strategy io in
  io_middleware io' = io_middleware io ++ ["socketAuthenticateHandler"] ∧
  io_listeners io' = io_listeners io ++ [("connection", "handleConnection")] ∧
  io_metrics io' = true ∧
  (strategy ≠ "RedisStrategy" → io_adapter io' = io_adapter io) ∧
  (∀ e, createAdapter 10000 = Throw e → io_adapter io' = io_adapter io) ∧
  (io_adapter io' ≠ io_adapter io →
   strategy = "RedisStrategy" ∧ createAdapter 10000 = Ok (io_adapter io')).
Proof.
  intros io'. unfold io', init, shouldUseRedis, setupRedisStreamsAdapter.
  destruct (String.eqb_spec strategy "RedisStrategy") as [Hredis|Hother].
  - destruct (createAdapter 10000) as [adapter|e] eqn:Hcreate;
      cbn [io_adapter io_middleware io_metrics io_listeners].
    + split; [done|]. split; [done|]. split; [done|]. split; [done|].
      split; [by intros e He|]. by intros _.
    + split; [done|]. split; [done|]. split; [done|]. split; [done|].
      split; [done|]. by intros Hchanged.
  - cbn [io_adapter io_middleware io_metrics io_listeners].
    split; [done|]. split; [done|]. split; [done|]. split; [done|].
    split; [done|]. by intros Hchanged.
Qed.
(** ** The metrics route, continued *)

(** X18: the metrics route reads the second space-separated word of the
    authorization header and never looks at the first: with a configured
    token that holds no space, a header made of any scheme word, a space
    and the token is answered 200 whatever the query holds; with a
    configured token that holds a space, no header can present it, and a
    request without a query token is answered 403. *)
Theorem metrics_header_word this t register_metrics register_contentType :
  METRICS_TOKEN this = Some t → t ≠ EmptyString →
  (occurs " " t = false →
   ∀ scheme q,
     occurs " " scheme = false →
     status (metricsHandler this register_metrics register_contentType
               {| headers_authorization := Some (scheme +:+ " " +:+ t);
                  query_token := q |}) = 200) ∧
  (occurs " " t = true →
   ∀ h,
     status (metricsHandler this register_metrics register_contentType
               {| headers_authorization := Some h; query_token := None |}) = 403).
Proof.
  intros Htoken Hne. pose proof (proj2 (truthy_Some_iff t) Hne) as Htruthy.
  split.
  - intros Hword scheme q Hscheme.
    unfold metricsHandler, request_token. cbn [headers_authorization query_token].
    change (" " +:+ t) with (String " " t).
    rewrite (split_first _ _ _ Hscheme), (split_none _ _ Hword).
    cbn [lookup list_lookup]. rewrite Htruthy, Htoken, Htruthy.
    cbn [negb orb fmap option_fmap option_map strict_neq].
    by rewrite String.eqb_refl.
  - intros Hspace h.
    unfold metricsHandler, request_token. cbn [headers_authorization query_token].
    rewrite Htoken, Htruthy. cbn [negb orb].
    destruct (split " " h !! 1%nat) as [word|] eqn:Hword; [|done].
    destruct (truthy (Some word)); [|done].
    cbn [fmap option_fmap option_map strict_neq].
    pose proof (split_pieces " " h) as Hpieces. rewrite Forall_forall in Hpieces.
    assert (occurs " " word = false) as Hnone
      by (apply Hpieces; by eapply list_elem_of_lookup_2).
    destruct (String.eqb_spec word t) as [->|_]; [congruence|done].
Qed.
End ControlFacts.

(** ** Running tasks *)

Section RelayFacts.
Context {codec : Codec} {verifier : TokenVerifier} {roomStore : RoomStore}.

Lemma bind_run {A B} (m : Task A) (f : A → Task B) w :
  (m ≫= f) w =
  match m w with
  | (w1, t1, Ok a) => match f a w1 with (w2, t2, r) => (w2, t1 ++ t2, r) end
  | (w1, t1, Throw e) => (w1, t1, Throw e)
  end.
Proof. reflexivity. Qed.

Lemma bind_pure {A B} (m : Task A) (f : A → Task B) w a :
  m w = (w, [], Ok a) → (m ≫= f) w = f a w.
Proof. intros Hm. rewrite bind_run, Hm. by destruct (f a w) as [[??]?]. Qed.

Lemma bind_ok {A B} (m : Task A) (f : A → Task B) w w1 t1 a :
  m w = (w1, t1, Ok a) →
  (m ≫= f) w = match f a w1 with (w2, t2, r) => (w2, t1 ++ t2, r) end.
Proof. intros Hm. by rewrite bind_run, Hm. Qed.

Lemma bind_throw {A B} (m : Task A) (f : A → Task B) w w1 t1 e :
  m w = (w1, t1, Throw e) → (m ≫= f) w = (w1, t1, Throw e).
Proof. intros Hm. by rewrite bind_run, Hm. Qed.

(** A [Promise.all] over lookups performs no effect: it yields the list of
    the values, or throws when one of them is missing. *)
Lemma mapM_pure {A B} (f : A → Task B) (g : A → option B) w l :
  (∀ a, a ∈ l → f a w = (w, [], pure_result (g a))) →
  mapM f l w = (w, [], pure_result (mapM g l)).
Proof.
  induction l as [|x l IH]; intros Hf; [done|].
  cbn [mapM]. rewrite bind_run, Hf by left.
  destruct (g x) as [b|] eqn:Hg; cbn [pure_result].
  - rewrite bind_run, IH by (intros; apply Hf; by right).
    cbn [mbind option_bind].
    by destruct (mapM g l).
  - done.
Qed.

Lemma lookup_user_socket w s :
  (data ← getSocketData (sock_id s);
   u ← user_of data;
   mret {| socketId := sock_id s; socketUser := u |}) w
  = (w, [], pure_result (user_socket w s)).
Proof.
  unfold user_socket. cbv [getSocketData get_world mbind mret Task_bind Task_ret].
  by destruct (socketData w !! sock_id s).
Qed.

Lemma lookup_user_id w (s : UserSocket) :
  (data ← getSocketData (socketId s);
   u ← user_of data;
   mret (User.id u)) w
  = (w, [], pure_result (user_id_of w (socketId s))).
Proof.
  unfold user_id_of. cbv [getSocketData get_world mbind mret Task_bind Task_ret].
  by destruct (socketData w !! socketId s).
Qed.

Lemma fetchSockets_run w roomID :
  fetchSockets roomID w = (w, [], Ok (members w roomID)).
Proof. reflexivity. Qed.

Lemma socket_rooms_run w sid :
  socket_rooms sid w = (w, [], Ok (rooms_of w sid)).
Proof. reflexivity. Qed.

Lemma getSocketData_run w sid :
  getSocketData sid w = (w, [], Ok (socketData w !! sid)).
Proof. reflexivity. Qed.

Lemma getUserSockets_run w roomID :
  getUserSockets roomID w
  = (w, [], pure_result (mapM (user_socket w) (members w roomID))).
Proof.
  unfold getUserSockets. rewrite (bind_pure _ _ _ _ (fetchSockets_run w roomID)).
  apply mapM_pure. intros s _. apply lookup_user_socket.
Qed.

Lemma getOtherUserSockets_run w roomID sid :
  getOtherUserSockets roomID sid w
  = (w, [], pure_result (mapM (user_socket w)
                           (filter (λ s, sock_id s ≠ sid) (members w roomID)))).
Proof.
  unfold getOtherUserSockets. rewrite (bind_pure _ _ _ _ (fetchSockets_run w roomID)).
  apply mapM_pure. intros s _. apply lookup_user_socket.
Qed.

Lemma userIds_of_run w us :
  userIds_of us w
  = (w, [], pure_result (mapM (λ s, user_id_of w (socketId s)) us)).
Proof. apply mapM_pure. intros s _. apply lookup_user_id. Qed.

(** With session data for each connection, the lookups all succeed. *)
Lemma mapM_user_socket w l :
  Forall (λ s, is_Some (socketData w !! sock_id s)) l →
  mapM (user_socket w) l = Some (presence w l).
Proof.
  induction 1 as [|s l [d Hd] _ IH]; [done|].
  assert (user_socket w s
          = Some {| socketId := sock_id s; socketUser := user d |}) as Hs
    by (unfold user_socket; by rewrite Hd).
  cbn [mapM]. rewrite Hs, IH. unfold presence. cbn. by rewrite Hs.
Qed.

(** The user ids read back for a presence list are those on record, one
    for each of its connections. *)
Lemma mapM_user_id_presence w l :
  mapM (λ s, user_id_of w (socketId s)) (presence w l)
  = Some (omap (λ s, user_id_of w (sock_id s)) l).
Proof.
  induction l as [|s l IH]; [done|].
  unfold presence in *. cbn [omap list_omap].
  destruct (socketData w !! sock_id s) as [d|] eqn:Hd.
  - assert (user_socket w s
            = Some {| socketId := sock_id s; socketUser := user d |}) as ->
      by (unfold user_socket; by rewrite Hd).
    assert (user_id_of w (sock_id s) = Some (User.id (user d))) as Hu
      by (unfold user_id_of; by rewrite Hd).
    cbn [mapM socketId]. rewrite Hu, IH. done.
  - assert (user_socket w s = None) as ->
      by (unfold user_socket; by rewrite Hd).
    assert (user_id_of w (sock_id s) = None) as ->
      by (unfold user_id_of; by rewrite Hd).
    done.
Qed.


(** ** The handlers, step by step *)

Lemma isSocketReadOnly_run w sid :
  isSocketReadOnly sid w
  = (w, [], Ok (match socketData w !! sid with
                | Some d => Z.eqb (permissions d) 1
                | None => false
                end)).
Proof. reflexivity. Qed.

Lemma read_only_conn_true w sid :
  read_only_conn w sid ↔
  match socketData w !! sid with
  | Some d => Z.eqb (permissions d) 1
  | None => false
  end = true.
Proof.
  unfold read_only_conn. destruct (socketData w !! sid) as [d|].
  - rewrite Z.eqb_eq. split; [by intros (? & [= <-] & ?)|eauto].
  - split; [by intros (? & ? & ?)|done].
Qed.

(** The guard of the durable broadcast: a connection that is read-only or
    outside the room gets an immediate return. *)
Lemma serverBroadcastHandler_guarded w sid roomID encryptedData iv :
  read_only_conn w sid ∨ roomID ∉ rooms_of w sid →
  serverBroadcastHandler sid roomID encryptedData iv w = (w, [], Ok tt).
Proof.
  intros Hguard. unfold serverBroadcastHandler.
  rewrite (bind_pure _ _ _ _ (isSocketReadOnly_run w sid)).
  rewrite (bind_pure _ _ _ _ (socket_rooms_run w sid)).
  destruct Hguard as [Hro|Hout].
  - apply read_only_conn_true in Hro. rewrite Hro.
    by rewrite orb_true_r.
  - rewrite bool_decide_eq_false_2 by done. done.
Qed.

Lemma emit_run w t m :
  emit t m w = (w, [Emit t m (recipients w t)], Ok tt).
Proof. reflexivity. Qed.

Lemma decode_run w buffer :
  decode buffer w
  = (w, [], match JSON_parse (convertArrayBufferToString buffer) with
            | Some v => Ok v
            | None => Throw "SyntaxError"
            end).
Proof. unfold decode. by destruct (JSON_parse _). Qed.

Lemma user_of_run w data :
  user_of data w = (w, [], pure_result (user <$> data)).
Proof. by destruct data. Qed.

Lemma lift_run {A} w (r : Result A) : lift r w = (w, [], r).
Proof. reflexivity. Qed.

Lemma syncRoomData_run w roomID data users lastEditedUser jwtToken :
  syncRoomData roomID data users lastEditedUser jwtToken w
  = let call := {| call_roomID := roomID; call_data := data; call_users := users;
                   call_lastEditedUser := lastEditedUser;
                   call_jwtToken := jwtToken |} in
    (with_store w (store_syncRoomData (store w) call).1,
     [SyncRoomData call], Ok (store_syncRoomData (store w) call).2).
Proof.
  unfold syncRoomData. cbn zeta. by destruct (store_syncRoomData _ _).
Qed.

Lemma mapM_user_socket_Some w l us :
  mapM (user_socket w) l = Some us → us = presence w l.
Proof.
  revert us. induction l as [|s l IH]; intros us; [by intros [= <-]|].
  cbn [mapM]. unfold presence. cbn [omap list_omap].
  destruct (user_socket w s) as [u|]; [|done]. cbn [mbind option_bind].
  destruct (mapM (user_socket w) l) as [us'|]; [|done].
  cbn. intros [= <-]. by rewrite (IH us' eq_refl).
Qed.

Lemma bind_quiet {A B} (m : Task A) (f : A → Task B) w r :
  m w = (w, [], r) →
  (m ≫= f) w = match r with Ok a => f a w | Throw e => (w, [], Throw e) end.
Proof.
  intros Hm. rewrite bind_run, Hm. destruct r as [a|e]; [|done].
  by destruct (f a w) as [[??]?].
Qed.

(** The member-id list the handlers hand to the Room Store: the
    enumeration of the room, then one user id per entry. *)
Lemma bind_member_ids {B} w roomID (k : list string → Task B) :
  (userSockets ← getUserSockets roomID;
   userIds ← userIds_of userSockets;
   k userIds) w
  = match mapM (user_socket w) (members w roomID) with
    | Some _ => k (member_ids w roomID) w
    | None => (w, [], Throw "TypeError")
    end.
Proof.
  rewrite (bind_quiet _ _ _ _ (getUserSockets_run w roomID)).
  destruct (mapM (user_socket w) (members w roomID)) as [us|] eqn:Hus; [|done].
  cbn [pure_result]. apply mapM_user_socket_Some in Hus as ->.
  rewrite (bind_quiet _ _ _ _ (userIds_of_run w _)).
  by rewrite mapM_user_id_presence.
Qed.

(** Past the guard, the first thing the handler does is the relay; what
    follows is at most one Room Store call. *)
Lemma serverBroadcastHandler_relays w sid roomID encryptedData iv :
  ¬ read_only_conn w sid → roomID ∈ rooms_of w sid →
  ∃ w' rest r,
    serverBroadcastHandler sid roomID encryptedData iv w
    = (w', Emit (BroadcastTo sid roomID) (client_broadcast [encryptedData; iv])
             (recipients w (BroadcastTo sid roomID)) :: rest, r) ∧
    (rest = [] ∨
     ∃ c, rest = [SyncRoomData c] ∧ call_roomID c = roomID ∧
          call_users c = member_ids w roomID).
Proof.
  intros Hrw Hin. unfold serverBroadcastHandler.
  rewrite (bind_pure _ _ _ _ (isSocketReadOnly_run w sid)).
  rewrite (bind_pure _ _ _ _ (socket_rooms_run w sid)).
  rewrite bool_decide_eq_true_2 by done.
  rewrite read_only_conn_true in Hrw. apply not_true_is_false in Hrw. rewrite Hrw.
  cbn [negb orb].
  rewrite (bind_ok _ _ _ _ _ _ (emit_run _ _ _)).
  rewrite (bind_quiet _ _ _ _ (decode_run _ _)).
  destruct (JSON_parse _) as [decryptedData|]; [|by eauto 6].
  rewrite (bind_pure _ _ _ _ (getSocketData_run w sid)).
  rewrite (bind_quiet _ _ _ _ (user_of_run _ _)).
  destruct (socketData w !! sid) as [d|]; [|by eauto 6].
  cbn [fmap option_fmap option_map pure_result].
  rewrite bind_member_ids.
  destruct (mapM _ _) as [?|]; [|by eauto 6].
  rewrite (bind_quiet _ _ _ _ (lift_run _ _)).
  destruct (prop "payload" _) as [payload|]; [|by eauto 6].
  rewrite (bind_quiet _ _ _ _ (lift_run _ _)).
  destruct (prop "elements" _) as [elements|]; [|by eauto 6].
  rewrite (bind_ok _ _ _ _ _ _ (syncRoomData_run _ _ _ _ _ _)).
  cbn. do 3 eexists. split; [done|]. right. eauto.
Qed.

(** The volatile broadcast emits what the decoded type and the sender's
    session data decide. *)
Lemma serverVolatileBroadcastHandler_run w sid roomID encryptedData :
  ∃ r, serverVolatileBroadcastHandler sid roomID encryptedData w
       = (w, volatile_trace w sid roomID encryptedData, r).
Proof.
  unfold serverVolatileBroadcastHandler, volatile_trace, decoded_type, decoded_payload.
  rewrite (bind_quiet _ _ _ _ (decode_run _ _)).
  destruct (JSON_parse _) as [payload|].
  2:{ destruct (socketData w !! sid); eauto. }
  rewrite (bind_quiet _ _ _ _ (lift_run _ _)).
  destruct payload as [| | | |items|fs]; cbn [prop strict_eq_string];
    try (destruct (socketData w !! sid); by eauto).
  destruct (strict_eq_string (field "type" fs) "MOUSE_LOCATION").
  2:{ destruct (socketData w !! sid); eauto. }
  rewrite (bind_pure _ _ _ _ (getSocketData_run w sid)).
  rewrite (bind_quiet _ _ _ _ (lift_run _ _)).
  rewrite (bind_quiet _ _ _ _ (user_of_run _ _)).
  destruct (socketData w !! sid) as [d|]; [|by eauto].
  cbn [fmap option_fmap option_map pure_result]. rewrite emit_run.
  eauto.
Qed.

Lemma mret_run {A} (w : World) (a : A) : (mret a : Task A) w = (w, [], Ok a).
Proof. reflexivity. Qed.

(** Joining a room whose members all have session data, the joiner
    included, when the Room Store knows the room. *)
Lemma joinRoomHandler_found w sid roomID d st room :
  let w1 := joined w sid roomID in
  let call := {| call_roomID := roomID; call_data := Some JNull;
                 call_users := member_ids w1 roomID;
                 call_lastEditedUser := Null;
                 call_jwtToken := match token d with
                                  | Some t => Val t
                                  | None => Undefined
                                  end |} in
  room_authenticated w1 roomID →
  socketData w !! sid = Some d →
  store_syncRoomData (store w) call = (st, Some room) →
  joinRoomHandler sid roomID w
  = (with_store w1 st,
     [SyncRoomData call;
      Emit (ToSocket sid) (joined_data (encode (room_data room)) []) [sid];
      Emit (InRoom roomID)
        (room_user_change
           (presence w1 (filter (λ s, sock_id s ≠ sid) (members w1 roomID))))
        (sock_id <$> members w1 roomID)],
     Ok tt).
Proof.
  intros w1 call Hauth Hd Hstore. unfold joinRoomHandler.
  assert (socket_join sid roomID w = (w1, [], Ok tt)) as Hjoin by done.
  rewrite (bind_ok _ _ _ _ _ _ Hjoin).
  rewrite bind_member_ids.
  rewrite (mapM_user_socket _ _ Hauth).
  rewrite (bind_pure _ _ _ _ (getSocketData_run w1 sid)).
  assert (socketData w1 = socketData w) as Hsd by done.
  rewrite Hsd, Hd.
  rewrite (bind_pure _ _ _ _ (mret_run w1 _)).
  rewrite (bind_ok _ _ _ _ _ _ (syncRoomData_run _ _ _ _ _ _)).
  change (store w1) with (store w). cbn zeta. fold call. rewrite Hstore. cbn [fst snd].
  rewrite (bind_ok _ _ _ _ _ _ (emit_run _ _ _)).
  rewrite (bind_quiet _ _ _ _ (getOtherUserSockets_run _ _ _)).
  change (members (with_store w1 st) roomID) with (members w1 roomID).
  change (user_socket (with_store w1 st)) with (user_socket w1).
  rewrite mapM_user_socket.
  2:{ unfold room_authenticated in Hauth. rewrite Forall_forall in Hauth |- *.
      intros s [_ Hs]%list_elem_of_filter. by apply Hauth. }
  cbn [pure_result]. rewrite emit_run. done.
Qed.

Lemma disconnecting_room_run w sid roomID :
  roomID ≠ sid → room_authenticated w roomID →
  disconnecting_room sid roomID w
  = (with_store w (store_syncRoomData (store w) (disconnecting_call w roomID)).1,
     disconnecting_trace w sid roomID, Ok tt).
Proof.
  intros Hne Hauth. unfold disconnecting_room, disconnecting_trace.
  rewrite (proj2 (String.eqb_neq _ _)) by done.
  rewrite (bind_quiet _ _ _ _ (getOtherUserSockets_run _ _ _)).
  rewrite mapM_user_socket.
  2:{ unfold room_authenticated in Hauth. rewrite Forall_forall in Hauth |- *.
      intros s [_ Hs]%list_elem_of_filter. by apply Hauth. }
  cbn [pure_result]. fold (others w sid roomID).
  assert (∀ B (k : Task B),
            ((if bool_decide (0 < List.length (others w sid roomID))%nat
              then emit (BroadcastTo sid roomID) (room_user_change (others w sid roomID))
              else mret tt) ≫= λ _, k) w
            = match k w with
              | (w2, t2, r) =>
                  (w2, (if bool_decide (0 < List.length (others w sid roomID))%nat
                        then [Emit (BroadcastTo sid roomID)
                                (room_user_change (others w sid roomID))
                                (recipients w (BroadcastTo sid roomID))]
                        else []) ++ t2, r)
              end) as Hnotify.
  { intros B k. destruct (bool_decide _).
    - by rewrite (bind_ok _ _ _ _ _ _ (emit_run _ _ _)).
    - rewrite (bind_pure _ _ _ _ (mret_run _ _)). by destruct (k w) as [[??]?]. }
  rewrite Hnotify. rewrite bind_member_ids, (mapM_user_socket _ _ Hauth).
  rewrite (bind_ok _ _ _ _ _ _ (syncRoomData_run _ _ _ _ _ _)).
  done.
Qed.

Lemma verifyToken_hit w token cached :
  cachedTokens w !! token = Some cached →
  verifyToken token w = (w, [], Ok cached).
Proof.
  intros Hc. unfold verifyToken.
  assert (getCachedToken token w = (w, [], Ok (Some cached))) as Hget
    by (rewrite <- Hc; reflexivity).
  by rewrite (bind_pure _ _ _ _ Hget).
Qed.

Lemma verifyToken_miss w token :
  cachedTokens w !! token = None →
  verifyToken token w
  = match jwt_verify token (env w !! "JWT_SECRET_KEY") with
    | Decoded decoded =>
        (with_cachedTokens w (<[token := decoded]> (cachedTokens w)),
         [JwtVerify token (env w !! "JWT_SECRET_KEY")], Ok decoded)
    | _ => (w, [JwtVerify token (env w !! "JWT_SECRET_KEY")],
            Throw "Authentication error")
    end.
Proof.
  intros Hc. unfold verifyToken.
  assert (getCachedToken token w = (w, [], Ok None)) as Hget
    by (rewrite <- Hc; reflexivity).
  rewrite (bind_pure _ _ _ _ Hget).
  assert (jwtVerify token w
          = (w, [JwtVerify token (env w !! "JWT_SECRET_KEY")],
             Ok (jwt_verify token (env w !! "JWT_SECRET_KEY")))) as Hv by done.
  rewrite (bind_ok _ _ _ _ _ _ Hv).
  by destruct (jwt_verify _ _).
Qed.

Lemma setSocketData_run w s d :
  setSocketData s d w = (with_socketData w (<[s := d]> (socketData w)), [], Ok tt).
Proof. reflexivity. Qed.

Lemma deleteSocketData_run w s :
  deleteSocketData s w = (with_socketData w (delete s (socketData w)), [], Ok tt).
Proof. reflexivity. Qed.

Lemma add_socket_run w s : add_socket s w = (added w s, [], Ok tt).
Proof. reflexivity. Qed.

Lemma remove_socket_run w s : remove_socket s w = (removed w s, [], Ok tt).
Proof. reflexivity. Qed.

Lemma get_world_run w : get_world w = (w, [], Ok w).
Proof. reflexivity. Qed.

(** A connection that has been dropped has no rooms. *)
Lemma rooms_of_removed w s m : rooms_of (with_socketData (removed w s) m) s = [].
Proof.
  unfold rooms_of.
  change (conns (with_socketData (removed w s) m))
    with (filter (λ c, sock_id c ≠ s) (conns w)).
  induction (conns w) as [|c l IH]; [done|].
  rewrite filter_cons. destruct (decide (sock_id c ≠ s)) as [Hne|Heq]; [|done].
  cbn [find]. by rewrite (proj2 (String.eqb_neq _ _) Hne).
Qed.

(** The closing of a live connection: by the time the handler of
    [disconnecting] resumes, the connection has left its rooms, so the
    loop over its rooms has nothing to go through. *)
Lemma dispatch_close_run w s :
  connected w s = true →
  dispatch (close s) w
  = (with_socketData (removed w s) (delete s (socketData w)), [],
     match socketData w !! s with
     | Some _ => Ok tt
     | None => Throw "TypeError"
     end).
Proof.
  intros Hlive. unfold dispatch. rewrite (bind_pure _ _ _ _ (get_world_run w)).
  rewrite Hlive. unfold disconnectingHandler.
  rewrite (bind_pure _ _ _ _ (getSocketData_run w s)).
  assert ((remove_socket s ≫= λ _, handleDisconnect s) w
          = (with_socketData (removed w s) (delete s (socketData w)), [], Ok tt))
    as Hgone by reflexivity.
  rewrite (bind_ok _ _ _ _ _ _ Hgone).
  rewrite (bind_quiet _ _ _ _ (user_of_run _ _)).
  destruct (socketData w !! s) as [d|]; [|done].
  cbn [fmap option_fmap option_map pure_result].
  rewrite (bind_pure _ _ _ _ (socket_rooms_run _ _)).
  by rewrite rooms_of_removed.
Qed.

(** What the transport's steps leave of the state. *)
Lemma added_conns w s :
  conns (added w s) = conns w ++ [{| sock_id := s; rooms := [s] |}].
Proof. reflexivity. Qed.

Lemma added_sessions w s :
  socketData (added w s) = socketData w ∧ cachedTokens (added w s) = cachedTokens w ∧
  env (added w s) = env w.
Proof. by repeat split. Qed.

Lemma removed_conns w s :
  conns (removed w s) = filter (λ c, sock_id c ≠ s) (conns w).
Proof. reflexivity. Qed.

Lemma removed_sessions w s :
  socketData (removed w s) = socketData w ∧
  cachedTokens (removed w s) = cachedTokens w ∧ env (removed w s) = env w.
Proof. by repeat split. Qed.

(** ** What every run of a handler keeps *)

Section Keeps.
Context (R : World → World → Prop) (E : Effect → Prop) `{!Frame R E}.

Lemma keeps_quiet {A} (t : Task A) :
  (∀ w, ∃ r, t w = (w, [], r)) → keeps R E t.
Proof.
  intros Ht w. destruct (Ht w) as [r ->]. split; [apply frame_refl|done].
Qed.

Lemma keeps_ret {A} (a : A) : keeps R E (mret a : Task A).
Proof. apply keeps_quiet. by eexists. Qed.

Lemma keeps_throw {A} e : keeps R E (throw e : Task A).
Proof. apply keeps_quiet. by eexists. Qed.

Lemma keeps_lift {A} (r : Result A) : keeps R E (lift r).
Proof. apply keeps_quiet. by eexists. Qed.

Lemma keeps_bind {A B} (m : Task A) (f : A → Task B) :
  keeps R E m → (∀ a, keeps R E (f a)) → keeps R E (m ≫= f).
Proof.
  intros Hm Hf w. rewrite bind_run.
  specialize (Hm w). destruct (m w) as [[w1 t1] [a|e]]; [|done].
  specialize (Hf a w1). destruct (f a w1) as [[w2 t2] r]. cbn in *.
  destruct Hm, Hf. split; [by eapply frame_trans|by apply Forall_app].
Qed.

Lemma keeps_try_catch {A} (body : Task A) (handler : string → Task A) :
  keeps R E body → (∀ e, keeps R E (handler e)) → keeps R E (try_catch body handler).
Proof.
  intros Hm Hf w. unfold try_catch.
  specialize (Hm w). destruct (body w) as [[w1 t1] [a|e]]; [done|].
  specialize (Hf e w1). destruct (handler e w1) as [[w2 t2] r]. cbn in *.
  destruct Hm, Hf. split; [by eapply frame_trans|by apply Forall_app].
Qed.

Lemma keeps_mapM {A B} (f : A → Task B) (l : list A) :
  (∀ a, keeps R E (f a)) → keeps R E (mapM f l).
Proof.
  intros Hf. induction l as [|x l IH]; [apply keeps_ret|].
  cbn [mapM]. apply keeps_bind; [done|]. intros b.
  apply keeps_bind; [done|]. intros. apply keeps_ret.
Qed.

Lemma keeps_getSocketData s : keeps R E (getSocketData s).
Proof. apply keeps_quiet. by eexists. Qed.

Lemma keeps_fetchSockets r : keeps R E (fetchSockets r).
Proof. apply keeps_quiet. by eexists. Qed.

Lemma keeps_socket_rooms s : keeps R E (socket_rooms s).
Proof. apply keeps_quiet. by eexists. Qed.

Lemma keeps_user_of d : keeps R E (user_of d).
Proof. apply keeps_quiet. intros w. rewrite user_of_run. by eexists. Qed.

Lemma keeps_decode b : keeps R E (decode b).
Proof. apply keeps_quiet. intros w. rewrite decode_run. by eexists. Qed.

Lemma keeps_getUserSockets r : keeps R E (getUserSockets r).
Proof. apply keeps_quiet. intros w. rewrite getUserSockets_run. by eexists. Qed.

Lemma keeps_getOtherUserSockets r s : keeps R E (getOtherUserSockets r s).
Proof. apply keeps_quiet. intros w. rewrite getOtherUserSockets_run. by eexists. Qed.

Lemma keeps_userIds_of us : keeps R E (userIds_of us).
Proof. apply keeps_quiet. intros w. rewrite userIds_of_run. by eexists. Qed.

Lemma keeps_isSocketReadOnly s : keeps R E (isSocketReadOnly s).
Proof. apply keeps_quiet. intros w. rewrite isSocketReadOnly_run. by eexists. Qed.

Lemma keeps_emit t m : (∀ to, E (Emit t m to)) → keeps R E (emit t m).
Proof.
  intros HE w. rewrite emit_run. split; [apply frame_refl|]. by constructor.
Qed.

Lemma keeps_syncRoomData r d us l t : keeps R E (syncRoomData r d us l t).
Proof.
  intros w. rewrite syncRoomData_run. split; [apply frame_store|].
  constructor; [apply frame_sync|done].
Qed.

Lemma keeps_joinRoomHandler s r : keeps R E (joinRoomHandler s r).
Proof.
  unfold joinRoomHandler.
  apply keeps_bind; [intros w; split; [apply frame_join|done]|]. intros _.
  apply keeps_bind; [apply keeps_getUserSockets|]. intros us.
  apply keeps_bind; [apply keeps_userIds_of|]. intros ids.
  apply keeps_bind; [apply keeps_getSocketData|]. intros d.
  apply keeps_bind; [destruct d; [apply keeps_ret|apply keeps_throw]|].
  intros tok.
  apply keeps_bind; [apply keeps_syncRoomData|]. intros [room|].
  - apply keeps_bind; [apply keeps_emit, frame_to_socket|]. intros _.
    apply keeps_bind; [apply keeps_getOtherUserSockets|]. intros o.
    apply keeps_emit, frame_in_room.
  - apply keeps_emit, frame_to_socket.
Qed.

Lemma keeps_serverVolatileBroadcastHandler s r b :
  keeps R E (serverVolatileBroadcastHandler s r b).
Proof.
  unfold serverVolatileBroadcastHandler.
  apply keeps_bind; [apply keeps_decode|]. intros payload.
  apply keeps_bind; [apply keeps_lift|]. intros type.
  destruct (strict_eq_string _ _); [|apply keeps_ret].
  apply keeps_bind; [apply keeps_getSocketData|]. intros d.
  apply keeps_bind; [apply keeps_lift|]. intros inner.
  apply keeps_bind; [apply keeps_user_of|]. intros u.
  apply keeps_emit, frame_volatile.
Qed.

Lemma keeps_disconnectingHandler s meanwhile :
  keeps R E meanwhile → keeps R E (disconnectingHandler s meanwhile).
Proof.
  intros Hmeanwhile. unfold disconnectingHandler.
  apply keeps_bind; [apply keeps_getSocketData|]. intros d.
  apply keeps_bind; [done|]. intros _.
  apply keeps_bind; [apply keeps_user_of|]. intros _.
  apply keeps_bind; [apply keeps_socket_rooms|]. intros rs.
  apply keeps_bind; [|intros; apply keeps_ret].
  apply keeps_mapM. intros r. unfold disconnecting_room.
  destruct (String.eqb r s); [apply keeps_ret|].
  apply keeps_bind; [apply keeps_getOtherUserSockets|]. intros o.
  apply keeps_bind.
  { destruct (bool_decide _); [apply keeps_emit, frame_presence|apply keeps_ret]. }
  intros _.
  apply keeps_bind; [apply keeps_getUserSockets|]. intros us.
  apply keeps_bind; [apply keeps_userIds_of|]. intros ids.
  apply keeps_bind; [apply keeps_syncRoomData|]. intros _. apply keeps_ret.
Qed.

Lemma keeps_serverBroadcastHandler s r b iv :
  (∀ to, E (Emit (BroadcastTo s r) (client_broadcast [b; iv]) to)) →
  keeps R E (serverBroadcastHandler s r b iv).
Proof.
  intros HE. unfold serverBroadcastHandler.
  apply keeps_bind; [apply keeps_isSocketReadOnly|]. intros ro.
  apply keeps_bind; [apply keeps_socket_rooms|]. intros rs.
  destruct (_ || _); [apply keeps_ret|].
  apply keeps_bind; [by apply keeps_emit|]. intros _.
  apply keeps_bind; [apply keeps_decode|]. intros v.
  apply keeps_bind; [apply keeps_getSocketData|]. intros d.
  apply keeps_bind; [apply keeps_user_of|]. intros u.
  apply keeps_bind; [apply keeps_getUserSockets|]. intros us.
  apply keeps_bind; [apply keeps_userIds_of|]. intros ids.
  apply keeps_bind; [apply keeps_lift|]. intros p.
  apply keeps_bind; [apply keeps_lift|]. intros el.
  apply keeps_bind; [apply keeps_syncRoomData|]. intros _. apply keeps_ret.
Qed.

Lemma keeps_verifyToken t : keeps R E (verifyToken t).
Proof.
  intros w. destruct (cachedTokens w !! t) as [c|] eqn:Hc.
  - rewrite (verifyToken_hit _ _ _ Hc). split; [apply frame_refl|done].
  - rewrite (verifyToken_miss _ _ Hc).
    destruct (jwt_verify _ _) eqn:Hv; cbn [fst snd];
      (split; [first [by apply frame_cache|apply frame_refl]|]);
      (constructor; [apply frame_verify|done]).
Qed.

Lemma keeps_socketAuthenticateHandler s t :
  (∀ w d, R w (with_socketData w (<[s := d]> (socketData w)))) →
  keeps R E (socketAuthenticateHandler s t).
Proof.
  intros HR. unfold socketAuthenticateHandler.
  apply keeps_try_catch; [|intros; apply keeps_ret].
  apply keeps_bind.
  { destruct (truthy t); [|apply keeps_throw].
    destruct t; [apply keeps_ret|apply keeps_throw]. }
  intros tok. apply keeps_bind; [apply keeps_verifyToken|].
  intros d. apply keeps_bind.
  { intros w. rewrite setSocketData_run. split; [apply HR|done]. }
  intros _. apply keeps_bind; [|intros; apply keeps_ret].
  destruct (_ =? _); [|apply keeps_ret].
  apply keeps_emit, frame_to_socket.
Qed.

(** The handling of one event keeps what the event respects. *)
Lemma keeps_dispatch ev : respects R E ev → keeps R E (dispatch ev).
Proof.
  intros Hev. unfold dispatch.
  apply keeps_bind; [apply keeps_quiet; by eexists|].
  intros w0. destruct ev as [s t|s r|s r b iv|s r b|s]; cbn [respects] in Hev.
  - destruct Hev as [Hdata Hconn].
    apply keeps_bind; [by apply keeps_socketAuthenticateHandler|].
    intros [|e]; [|apply keeps_ret].
    apply keeps_bind.
    + intros w. rewrite add_socket_run. split; [apply Hconn|done].
    + intros _. apply keeps_emit, frame_to_socket.
  - destruct (connected w0 s); [|apply keeps_ret].
    apply keeps_joinRoomHandler.
  - destruct (connected w0 s); [|apply keeps_ret].
    by apply keeps_serverBroadcastHandler.
  - destruct (connected w0 s); [|apply keeps_ret].
    apply keeps_serverVolatileBroadcastHandler.
  - destruct Hev as [Hconn Hdata].
    destruct (connected w0 s); [|apply keeps_ret].
    apply keeps_disconnectingHandler. apply keeps_bind.
    { intros w. rewrite remove_socket_run. split; [apply Hconn|done]. }
    intros _ w. unfold handleDisconnect. rewrite deleteSocketData_run.
    split; [apply Hdata|done].
Qed.

(** So does the handling of a sequence of such events. *)
Lemma keeps_run evs :
  Forall (respects R E) evs →
  ∀ w, R w (run evs w).1 ∧ Forall E (run evs w).2.
Proof.
  induction 1 as [|ev evs Hev _ IH]; intros w; [split; [apply frame_refl|done]|].
  cbn [run]. destruct (keeps_dispatch ev Hev w) as [HR HE].
  destruct (dispatch ev w) as [[w1 t1] [[]|e]]; cbn [fst snd] in *; [|done].
  destruct (IH w1) as [HR' HE']. destruct (run evs w1) as [w2 t2]. cbn [fst snd] in *.
  split; [by eapply frame_trans|by apply Forall_app].
Qed.

End Keeps.

(** ** A read-only connection across events *)

Section ReadOnly.
Variable sid : string.

Lemma ids_joined w s r : sock_id <$> conns (joined w s r) = sock_id <$> conns w.
Proof.
  change (conns (joined w s r))
    with ((λ s0, if String.eqb (sock_id s0) s
                 then {| sock_id := sock_id s0; rooms := set_add r (rooms s0) |}
                 else s0) <$> conns w).
  rewrite <- list_fmap_compose. apply list_fmap_ext.
  intros ? x _. cbn. by destruct (String.eqb _ _).
Qed.

Lemma no_durable_relay_by_other s r m to :
  s ≠ sid → no_durable_relay_by sid (Emit (BroadcastTo s r) m to).
Proof. intros Hne (? & ? & ? & [=]). congruence. Qed.

#[local] Instance same_conn_frame :
  Frame (same_conn sid) (no_durable_relay_by sid).
Proof.
  split; try done.
  - intros w1 w2 w3 [??] [??]. split; congruence.
  - intros w s r. split; [done|]. unfold connected. by rewrite ids_joined.
  - by intros c (? & ? & ? & [=]).
  - by intros t s (? & ? & ? & [=]).
  - by intros s m to (? & ? & ? & [=]).
  - by intros r m to (? & ? & ? & [=]).
  - by intros s r m to (? & ? & ? & [=]).
  - by intros t us to (? & ? & ? & [=]).
Qed.

#[local] Instance any_state_frame :
  Frame any_state (no_durable_relay_by sid).
Proof.
  split; try done.
  - by intros c (? & ? & ? & [=]).
  - by intros t s (? & ? & ? & [=]).
  - by intros s m to (? & ? & ? & [=]).
  - by intros r m to (? & ? & ? & [=]).
  - by intros s r m to (? & ? & ? & [=]).
  - by intros t us to (? & ? & ? & [=]).
Qed.

Lemma same_conn_read_only w w' :
  same_conn sid w w' →
  read_only_while_connected sid w → read_only_while_connected sid w'.
Proof.
  intros [Hd Hc] [Hoff|(d & Hsd & Hp)]; [left; congruence|].
  right. exists d. split; [congruence|done].
Qed.

Lemma connected_add_other w s :
  s ≠ sid →
  connected (with_conns w (conns w ++ [{| sock_id := s; rooms := [s] |}])) sid
  = connected w sid.
Proof.
  intros Hne. unfold connected. apply bool_decide_ext.
  cbn [conns with_conns]. rewrite fmap_app, elem_of_app.
  split; [intros [?|H]; [done|]|by left].
  apply list_elem_of_fmap in H as (x & -> & ->%list_elem_of_singleton).
  by destruct Hne.
Qed.

Lemma connected_remove_other w s :
  s ≠ sid →
  connected (with_conns w (filter (λ c, sock_id c ≠ s) (conns w))) sid
  = connected w sid.
Proof.
  intros Hne. unfold connected. apply bool_decide_ext.
  cbn [conns with_conns]. rewrite !list_elem_of_fmap. split.
  - intros (c & -> & [_ Hc]%list_elem_of_filter). eauto.
  - intros (c & -> & Hc). exists c. split; [done|].
    apply list_elem_of_filter. split; [congruence|done].
Qed.

Lemma connected_remove_self w :
  connected (with_conns w (filter (λ c, sock_id c ≠ sid) (conns w))) sid = false.
Proof.
  unfold connected. apply bool_decide_eq_false_2.
  cbn [conns with_conns]. rewrite list_elem_of_fmap.
  by intros (c & -> & [Hc _]%list_elem_of_filter).
Qed.

(** The events that leave the connection [sid] as it is. *)
Lemma respects_same_conn ev :
  match ev with
  | handshake s _ | server_broadcast s _ _ _ | close s => s ≠ sid
  | _ => True
  end →
  respects (same_conn sid) (no_durable_relay_by sid) ev.
Proof.
  destruct ev as [s t|s r|s r b iv|s r b|s]; intros Hne; cbn [respects]; try done.
  - split.
    + intros w d. split; [|done].
      cbn [with_socketData socketData]. by rewrite lookup_insert_ne.
    + intros w. split; [done|]. by apply connected_add_other.
  - intros to. by apply no_durable_relay_by_other.
  - split.
    + intros w. split; [done|]. by apply connected_remove_other.
    + intros w. split; [|done].
      cbn [with_socketData socketData]. by rewrite lookup_delete_ne.
Qed.

(** One event keeps a read-only connection read-only and draws no durable
    relay from it, unless the event is a handshake under its id. *)
Lemma dispatch_read_only ev w :
  ¬ handshake_of sid ev →
  read_only_while_connected sid w →
  read_only_while_connected sid (dispatch ev w).1.1 ∧
  Forall (no_durable_relay_by sid) (dispatch ev w).1.2.
Proof.
  intros Hev Hro.
  assert (∀ ev', match ev' with
                 | handshake s _ | server_broadcast s _ _ _ | close s => s ≠ sid
                 | _ => True
                 end →
                 read_only_while_connected sid (dispatch ev' w).1.1 ∧
                 Forall (no_durable_relay_by sid) (dispatch ev' w).1.2) as Hother.
  { intros ev' Hev'.
    destruct (keeps_dispatch _ _ ev' (respects_same_conn ev' Hev') w) as [HR HE].
    split; [by eapply same_conn_read_only|done]. }
  destruct ev as [s t|s r|s r b iv|s r b|s]; try (by apply Hother).
  - apply Hother. intros ->. apply Hev. by eexists.
  - destruct (decide (s = sid)) as [->|Hne]; [|by apply Hother].
    unfold dispatch. rewrite (bind_pure _ _ _ _ (get_world_run w)).
    destruct (connected w sid) eqn:Hc; [|by split].
    destruct Hro as [Hoff|Hro]; [congruence|].
    rewrite (serverBroadcastHandler_guarded w sid r b iv (or_introl Hro)).
    split; [by right|done].
  - destruct (decide (s = sid)) as [->|Hne]; [|by apply Hother].
    destruct (connected w sid) eqn:Hc.
    + rewrite (dispatch_close_run w sid Hc). cbn [fst snd]. split; [|done].
      left. apply connected_remove_self.
    + unfold dispatch. rewrite (bind_pure _ _ _ _ (get_world_run w)).
      rewrite Hc. by split.
Qed.

End ReadOnly.

(** ** Permissions and the durable relay *)

Lemma run_read_only sid evs w :
  Forall (λ ev, ¬ handshake_of sid ev) evs →
  read_only_while_connected sid w →
  Forall (no_durable_relay_by sid) (run evs w).2.
Proof.
  intros Hevs. revert w. induction Hevs as [|ev evs Hev _ IH]; intros w Hro; [done|].
  cbn [run]. destruct (dispatch_read_only sid ev w Hev Hro) as [Hro1 HE].
  destruct (dispatch ev w) as [[w1 t1] [[]|e]]; cbn [fst snd] in *; [|done].
  specialize (IH w1 Hro1). destruct (run evs w1) as [w2 t2]. cbn [snd] in *.
  by apply Forall_app.
Qed.

Lemma strict_eq_string_true v s :
  strict_eq_string v s = true ↔ v = Some (JStr s).
Proof.
  destruct v as [[]|]; cbn; try (split; [discriminate|by intros [=]]).
  rewrite String.eqb_eq. split; [by intros ->|by intros [= ->]].
Qed.

(** C1 (amended): a connection whose session data has permission level 1
    never has a durable broadcast relayed, whatever events the server
    handles and however often it tries, for as long as no new handshake
    takes its connection id; its volatile broadcasts are not subject to
    the permission level, one of type MOUSE_LOCATION is relayed. *)
Theorem read_only_relays_only_volatile sid w evs :
  read_only_conn w sid →
  Forall (λ ev, ¬ handshake_of sid ev) evs →
  Forall (no_durable_relay_by sid) (run evs w).2 ∧
  ∀ roomID encryptedData,
    decoded_type encryptedData = Some (JStr "MOUSE_LOCATION") →
    ∃ d,
      socketData w !! sid = Some d ∧
      (serverVolatileBroadcastHandler sid roomID encryptedData w).1.2
      = [Emit (VolatileBroadcastTo sid roomID)
           (client_broadcast
              [encode (mouse_location_event (user d) (decoded_payload encryptedData))])
           (recipients w (VolatileBroadcastTo sid roomID))].
Proof.
  intros Hro Hevs. split; [apply run_read_only; [done|by right]|].
  intros roomID encryptedData Htype. destruct Hro as (d & Hd & _).
  exists d. split; [done|].
  destruct (serverVolatileBroadcastHandler_run w sid roomID encryptedData) as [r ->].
  cbn [fst snd]. unfold volatile_trace. rewrite Hd.
  by rewrite (proj2 (strict_eq_string_true _ _) Htype).
Qed.

(** C6: a durable broadcast from a connection that is read-only, or that
    is not a member of the target room, is a complete no-op: the state is
    unchanged, no effect is performed (no relay, no Room Store call, nothing
    emitted to the sender) and the handler returns normally. *)
Theorem durable_broadcast_guard_noop w sid roomID encryptedData iv :
  read_only_conn w sid ∨ roomID ∉ rooms_of w sid →
  serverBroadcastHandler sid roomID encryptedData iv w = (w, [], Ok tt) ∧
  dispatch (server_broadcast sid roomID encryptedData iv) w = (w, [], Ok tt).
Proof.
  intros Hguard.
  pose proof (serverBroadcastHandler_guarded w sid roomID encryptedData iv Hguard) as H.
  split; [done|]. unfold dispatch.
  rewrite (bind_pure _ _ _ _ (get_world_run w)).
  destruct (connected w sid); [exact H|reflexivity].
Qed.

Lemma received_cons peer e tr :
  received peer (e :: tr)
  = match e with
    | Emit _ m to => if bool_decide (peer ∈ to) then [m] else []
    | _ => []
    end ++ received peer tr.
Proof. unfold received. cbn. destruct e; [|done|done]. by destruct (bool_decide _). Qed.

Lemma read_only_conn_dec w sid : Decision (read_only_conn w sid).
Proof.
  destruct (match socketData w !! sid with
            | Some d => Z.eqb (permissions d) 1
            | None => false
            end) eqn:H.
  - left. by apply read_only_conn_true.
  - right. rewrite read_only_conn_true. congruence.
Qed.

(** C7: whatever a peer receives from a durable broadcast is the event
    client-broadcast carrying exactly the two buffers the sender submitted;
    past the guard, each connection the relay is addressed to receives it,
    once. *)
Theorem durable_relay_verbatim w sid roomID encryptedData iv :
  let tr := (serverBroadcastHandler sid roomID encryptedData iv w).1.2 in
  (∀ peer m, m ∈ received peer tr → m = client_broadcast [encryptedData; iv]) ∧
  (¬ read_only_conn w sid → roomID ∈ rooms_of w sid →
   ∀ peer, peer ∈ recipients w (BroadcastTo sid roomID) →
           received peer tr = [client_broadcast [encryptedData; iv]]).
Proof.
  intros tr.
  assert (∀ peer, ¬ read_only_conn w sid → roomID ∈ rooms_of w sid →
            received peer tr
            = if bool_decide (peer ∈ recipients w (BroadcastTo sid roomID))
              then [client_broadcast [encryptedData; iv]] else []) as Hrec.
  { intros peer Hrw Hin. unfold tr.
    destruct (serverBroadcastHandler_relays w sid roomID encryptedData iv Hrw Hin)
      as (w' & rest & r & -> & Hrest).
    cbn [fst snd]. rewrite received_cons.
    destruct Hrest as [->|(c & -> & _)]; cbn; by rewrite app_nil_r. }
  split.
  - intros peer m Hm.
    destruct (read_only_conn_dec w sid) as [Hro|Hrw];
      [|destruct (decide (roomID ∈ rooms_of w sid)) as [Hin|Hout]].
    + unfold tr in Hm.
      rewrite (serverBroadcastHandler_guarded _ _ _ _ _ (or_introl Hro)) in Hm.
      by apply elem_of_nil in Hm.
    + rewrite (Hrec peer Hrw Hin) in Hm.
      destruct (bool_decide _); [by apply list_elem_of_singleton in Hm|].
      by apply elem_of_nil in Hm.
    + unfold tr in Hm.
      rewrite (serverBroadcastHandler_guarded _ _ _ _ _ (or_intror Hout)) in Hm.
      by apply elem_of_nil in Hm.
  - intros Hrw Hin peer Hpeer. rewrite (Hrec peer Hrw Hin).
    by rewrite bool_decide_eq_true_2.
Qed.

(** ** The volatile relay and the credential cache *)

Lemma field_with_field k v fs : field k (with_field k v fs) = Some v.
Proof.
  induction fs as [|[k' v'] fs IH]; cbn.
  - by rewrite String.eqb_refl.
  - destruct (String.eqb k' k) eqn:Hk; cbn; [by rewrite String.eqb_refl|].
    by rewrite Hk.
Qed.

Lemma field_with_field_ne k k' v fs :
  k' ≠ k → field k' (with_field k v fs) = field k' fs.
Proof.
  intros Hne. induction fs as [|[k0 v0] fs IH]; cbn.
  - by rewrite (proj2 (String.eqb_neq _ _)) by done.
  - destruct (String.eqb k0 k) eqn:Hk; cbn.
    + apply String.eqb_eq in Hk as ->.
      by rewrite !(proj2 (String.eqb_neq k k')) by done.
    + by rewrite IH.
Qed.

Lemma received_nil peer : received peer [] = [].
Proof. reflexivity. Qed.

(** C8: a volatile broadcast from a connection with session data is
    relayed exactly when the type of the decoded payload is MOUSE_LOCATION;
    any other payload changes nothing and performs no effect; the Room Store
    is never called; and the one event relayed carries the sender's payload
    with its user field set to the user of the sender's session data, its
    other fields as sent. *)
Theorem volatile_relay_iff_mouse_location w sid roomID encryptedData d :
  socketData w !! sid = Some d →
  let out := serverVolatileBroadcastHandler sid roomID encryptedData w in
  let inner := decoded_payload encryptedData in
  out.1.1 = w ∧
  (relayed_by sid out.1.2 ≠ [] ↔
   decoded_type encryptedData = Some (JStr "MOUSE_LOCATION")) ∧
  (decoded_type encryptedData ≠ Some (JStr "MOUSE_LOCATION") → out.1.2 = []) ∧
  (decoded_type encryptedData = Some (JStr "MOUSE_LOCATION") →
   out.1.2
   = [Emit (VolatileBroadcastTo sid roomID)
        (client_broadcast [encode (mouse_location_event (user d) inner)])
        (recipients w (VolatileBroadcastTo sid roomID))]) ∧
  store_calls out.1.2 = [] ∧
  field "user" (relayed_fields (user d) inner) = Some (json_of_user (user d)) ∧
  (∀ k, k ≠ "user" →
        field k (relayed_fields (user d) inner) = field k (spread inner)).
Proof.
  intros Hd out inner. unfold out.
  destruct (serverVolatileBroadcastHandler_run w sid roomID encryptedData) as [r ->].
  cbn [fst snd]. unfold volatile_trace. rewrite Hd.
  split; [done|].
  destruct (strict_eq_string (decoded_type encryptedData) "MOUSE_LOCATION") eqn:Ht.
  - apply strict_eq_string_true in Ht.
    repeat split; try done.
    + intros _. cbn. by rewrite String.eqb_refl.
    + apply field_with_field.
    + intros k Hk. by apply field_with_field_ne.
  - assert (decoded_type encryptedData ≠ Some (JStr "MOUSE_LOCATION")) as Hne.
    { intros H%strict_eq_string_true. congruence. }
    repeat split; try done.
    + apply field_with_field.
    + intros k Hk. by apply field_with_field_ne.
Qed.

#[local] Instance cache_verified_frame : Frame cache_verified any_effect.
Proof.
  split; try done.
  - intros w. split; [done|]. intros t d Ht. by left.
  - intros w1 w2 w3 [Henv1 H1] [Henv2 H2]. split; [congruence|].
    intros t d Ht. destruct (H2 t d Ht) as [Ht2|Hv]; [by apply H1|].
    right. by rewrite <- Henv1.
  - intros w st. split; [done|]. intros t d Ht. by left.
  - intros w t d Hv. split; [done|]. intros t' d' Ht'.
    cbn [with_cachedTokens cachedTokens] in Ht'.
    destruct (decide (t = t')) as [<-|Hne].
    + rewrite lookup_insert_eq in Ht'. injection Ht' as <-. by right.
    + rewrite lookup_insert_ne in Ht' by done. by left.
  - intros w s r. split; [done|]. intros t d Ht. by left.
Qed.

Lemma respects_cache_verified ev : respects cache_verified any_effect ev.
Proof.
  destruct ev; cbn [respects]; try done;
    split; intros; (split; [done|]); intros t' d' Ht'; by left.
Qed.

(** C5: for a credential that has an entry in the credential cache,
    verifyToken returns the cached session data, leaves the state as it is
    and performs no effect, so no signature or expiry check takes place,
    whatever the verifier would answer; a call that changes the cache is
    one in which the verifier accepted the credential, the change being the
    entry for that credential with the claims decoded; and whatever events
    the server handles, an entry of its cache was there before or holds
    what the verifier decodes for its credential. *)
Theorem verifyToken_cache w token :
  (∀ cached, cachedTokens w !! token = Some cached →
             verifyToken token w = (w, [], Ok cached) ∧
             verifications (verifyToken token w).1.2 = []) ∧
  (cachedTokens (verifyToken token w).1.1 ≠ cachedTokens w →
   ∃ decoded,
     jwt_verify token (env w !! "JWT_SECRET_KEY") = Decoded decoded ∧
     verifyToken token w
     = (with_cachedTokens w (<[token := decoded]> (cachedTokens w)),
        [JwtVerify token (env w !! "JWT_SECRET_KEY")], Ok decoded)) ∧
  (∀ evs decoded,
     cachedTokens (run evs w).1 !! token = Some decoded →
     cachedTokens w !! token = Some decoded ∨
     jwt_verify token (env w !! "JWT_SECRET_KEY") = Decoded decoded).
Proof.
  split; [|split].
  - intros cached Hc. by rewrite (verifyToken_hit _ _ _ Hc).
  - destruct (cachedTokens w !! token) as [c|] eqn:Hc.
    + by rewrite (verifyToken_hit _ _ _ Hc).
    + rewrite (verifyToken_miss _ _ Hc).
      destruct (jwt_verify _ _) as [decoded| |]; [by eauto|done|done].
  - intros evs decoded.
    assert (Forall (respects cache_verified any_effect) evs) as Hevs
      by (apply Forall_forall; intros; apply respects_cache_verified).
    destruct (keeps_run cache_verified any_effect evs Hevs w) as [[_ Hcache] _].
    apply Hcache.
Qed.

(** ** Member lists and presence *)

Lemma store_calls_app t1 t2 :
  store_calls (t1 ++ t2) = store_calls t1 ++ store_calls t2.
Proof. apply omap_app. Qed.

(** The Room Store calls of a join: at most one, with the member ids of
    the room as it is once the connection has joined. *)
Lemma joinRoomHandler_calls w sid roomID :
  ∀ c, c ∈ store_calls (joinRoomHandler sid roomID w).1.2 →
       call_roomID c = roomID ∧ call_data c = Some JNull ∧
       call_users c = member_ids (joined w sid roomID) roomID.
Proof.
  intros c. unfold joinRoomHandler.
  assert (socket_join sid roomID w = (joined w sid roomID, [], Ok tt)) as Hjoin by done.
  rewrite (bind_ok _ _ _ _ _ _ Hjoin). set (w1 := joined w sid roomID).
  rewrite bind_member_ids.
  destruct (mapM _ _) as [_u|]; [|by intros ?%elem_of_nil].
  rewrite (bind_pure _ _ _ _ (getSocketData_run w1 sid)).
  destruct (socketData w1 !! sid) as [d|].
  2:{ rewrite (bind_throw _ _ _ w1 [] "TypeError") by done.
      by intros ?%elem_of_nil. }
  rewrite (bind_pure _ _ _ _ (mret_run w1 _)).
  rewrite (bind_ok _ _ _ _ _ _ (syncRoomData_run _ _ _ _ _ _)). cbn zeta.
  set (call := {| call_roomID := roomID |}).
  set (w2 := with_store w1 _).
  destruct (store_syncRoomData (store w1) call).2 as [room|].
  - rewrite (bind_ok _ _ _ _ _ _ (emit_run _ _ _)).
    rewrite (bind_quiet _ _ _ _ (getOtherUserSockets_run _ _ _)).
    destruct (mapM _ _) as [o|]; cbn [pure_result].
    + rewrite emit_run. cbn. by intros ->%list_elem_of_singleton.
    + cbn. by intros ->%list_elem_of_singleton.
  - rewrite emit_run. cbn. by intros ->%list_elem_of_singleton.
Qed.

(** With session data for every member, the joiner included, a join
    does call the Room Store, once. *)
Lemma joinRoomHandler_syncs w sid roomID :
  room_authenticated (joined w sid roomID) roomID →
  is_Some (socketData w !! sid) →
  ∃ c, store_calls (joinRoomHandler sid roomID w).1.2 = [c] ∧
       call_users c = member_ids (joined w sid roomID) roomID.
Proof.
  intros Hauth [d Hd]. unfold joinRoomHandler.
  assert (socket_join sid roomID w = (joined w sid roomID, [], Ok tt)) as Hjoin by done.
  rewrite (bind_ok _ _ _ _ _ _ Hjoin). set (w1 := joined w sid roomID) in *.
  rewrite bind_member_ids, (mapM_user_socket _ _ Hauth).
  rewrite (bind_pure _ _ _ _ (getSocketData_run w1 sid)).
  change (socketData w1) with (socketData w). rewrite Hd.
  rewrite (bind_pure _ _ _ _ (mret_run w1 _)).
  rewrite (bind_ok _ _ _ _ _ _ (syncRoomData_run _ _ _ _ _ _)). cbn zeta.
  set (call := {| call_roomID := roomID |}).
  exists call. split; [|done].
  destruct (store_syncRoomData (store w1) call).2 as [room|].
  - rewrite (bind_ok _ _ _ _ _ _ (emit_run _ _ _)).
    rewrite (bind_quiet _ _ _ _ (getOtherUserSockets_run _ _ _)).
    destruct (mapM _ _) as [o|]; cbn [pure_result]; [by rewrite emit_run|done].
  - by rewrite emit_run.
Qed.

Lemma serverBroadcastHandler_calls w sid roomID encryptedData iv :
  ∀ c, c ∈ store_calls (serverBroadcastHandler sid roomID encryptedData iv w).1.2 →
       call_roomID c = roomID ∧ call_users c = member_ids w roomID.
Proof.
  intros c.
  destruct (read_only_conn_dec w sid) as [Hro|Hrw];
    [|destruct (decide (roomID ∈ rooms_of w sid)) as [Hin|Hout]].
  - rewrite (serverBroadcastHandler_guarded _ _ _ _ _ (or_introl Hro)).
    by intros ?%elem_of_nil.
  - destruct (serverBroadcastHandler_relays w sid roomID encryptedData iv Hrw Hin)
      as (w' & rest & r & -> & Hrest).
    destruct Hrest as [->|(c' & -> & ? & ?)]; cbn.
    + by intros ?%elem_of_nil.
    + by intros ->%list_elem_of_singleton.
  - rewrite (serverBroadcastHandler_guarded _ _ _ _ _ (or_intror Hout)).
    by intros ?%elem_of_nil.
Qed.

Lemma member_ids_members w roomID :
  room_authenticated w roomID →
  Forall2 (λ s uid, user_id_of w (sock_id s) = Some uid)
    (members w roomID) (member_ids w roomID).
Proof.
  unfold room_authenticated, member_ids.
  induction 1 as [|s l [d Hd] _ IH]; [constructor|].
  assert (user_id_of w (sock_id s) = Some (User.id (user d))) as Hu
    by (unfold user_id_of; by rewrite Hd).
  cbn [omap list_omap]. rewrite Hu. by constructor.
Qed.


Lemma presence_ext w w' l :
  socketData w' = socketData w → presence w' l = presence w l.
Proof.
  intros Hsd. unfold presence. apply list_omap_ext.
  apply Forall2_same_length_lookup_2; [done|].
  intros i x y Hx Hy. assert (x = y) as -> by congruence.
  unfold user_socket. by rewrite Hsd.
Qed.

Lemma socket_of_Some w i s : socket_of w i = Some s → s ∈ conns w ∧ sock_id s = i.
Proof.
  unfold socket_of. induction (conns w) as [|c l IH]; [done|].
  cbn [find]. destruct (String.eqb_spec (sock_id c) i) as [Heq|Hne].
  - intros [= <-]. split; [left|done].
  - intros [Hin Hid]%IH. split; [by right|done].
Qed.

(** The enumeration of some ids without a connection id. *)
Lemma omap_socket_of_filter w sid (ids : list string) :
  filter (λ s, sock_id s ≠ sid) (omap (socket_of w) ids)
  = omap (socket_of w) (filter (λ i, i ≠ sid) ids).
Proof.
  induction ids as [|i ids IH]; [done|].
  cbn [omap list_omap]. rewrite filter_cons.
  destruct (socket_of w i) as [s|] eqn:Hs.
  - apply socket_of_Some in Hs as Hid. destruct Hid as [_ Hid].
    rewrite filter_cons. rewrite Hid.
    destruct (decide (i ≠ sid)); [|done].
    cbn [omap list_omap]. by rewrite Hs, <- IH.
  - destruct (decide (i ≠ sid)); [|done].
    cbn [omap list_omap]. by rewrite Hs.
Qed.

(** A join changes the connection of the joiner only. *)
Lemma socket_of_joined w sid roomID i :
  i ≠ sid → socket_of (joined w sid roomID) i = socket_of w i.
Proof.
  intros Hne. unfold socket_of.
  change (conns (joined w sid roomID))
    with ((λ s0, if String.eqb (sock_id s0) sid
                 then {| sock_id := sock_id s0; rooms := set_add roomID (rooms s0) |}
                 else s0) <$> conns w).
  induction (conns w) as [|c l IH]; [done|].
  cbn [fmap list_fmap find].
  destruct (String.eqb_spec (sock_id c) sid) as [Heq|Hother].
  - cbn [sock_id]. rewrite Heq.
    rewrite (proj2 (String.eqb_neq sid i)) by done. apply IH.
  - destruct (String.eqb (sock_id c) i); [done|apply IH].
Qed.

Lemma room_ids_joined w sid roomID :
  room_ids (joined w sid roomID) roomID = set_add sid (room_ids w roomID).
Proof.
  unfold room_ids at 1.
  change (adapter_rooms (joined w sid roomID))
    with (<[roomID := set_add sid (room_ids w roomID)]> (adapter_rooms w)).
  by rewrite lookup_insert_eq.
Qed.

Lemma filter_set_add sid l :
  filter (λ i, i ≠ sid) (set_add sid l) = filter (λ i, i ≠ sid) l.
Proof.
  unfold set_add. case_bool_decide; [done|].
  rewrite filter_app, filter_cons. destruct (decide (sid ≠ sid)); [done|].
  by rewrite filter_nil, app_nil_r.
Qed.

(** A join changes the rooms of the joiner only: the other members of the
    room are who they were. *)
Lemma members_joined_others w sid roomID :
  filter (λ s, sock_id s ≠ sid) (members (joined w sid roomID) roomID)
  = filter (λ s, sock_id s ≠ sid) (members w roomID).
Proof.
  unfold members, room_sockets.
  rewrite !omap_socket_of_filter, room_ids_joined, filter_set_add.
  apply list_omap_ext, Forall2_same_length_lookup_2; [done|].
  intros n x y Hx Hy. assert (x = y) as -> by congruence.
  apply socket_of_joined.
  by apply list_elem_of_lookup_2, list_elem_of_filter in Hx as [Hne _].
Qed.

Lemma others_joined w sid roomID :
  others (joined w sid roomID) sid roomID = others w sid roomID.
Proof.
  unfold others. rewrite members_joined_others. by apply presence_ext.
Qed.

(** The connection of a live joiner after the join. *)
Lemma socket_of_joined_self w sid roomID :
  connected w sid = true →
  ∃ s, socket_of (joined w sid roomID) sid = Some s ∧ sock_id s = sid.
Proof.
  unfold connected, socket_of.
  change (conns (joined w sid roomID))
    with ((λ s0, if String.eqb (sock_id s0) sid
                 then {| sock_id := sock_id s0; rooms := set_add roomID (rooms s0) |}
                 else s0) <$> conns w).
  intros Hin%bool_decide_eq_true.
  induction (conns w) as [|c l IH]; [by apply elem_of_nil in Hin|].
  cbn [fmap list_fmap find].
  destruct (String.eqb_spec (sock_id c) sid) as [Heq|Hne].
  - cbn [sock_id]. rewrite (proj2 (String.eqb_eq _ _) Heq). by eexists.
  - rewrite (proj2 (String.eqb_neq _ _) Hne). apply IH.
    apply elem_of_cons in Hin as [Hhead|Htail]; [by destruct Hne|done].
Qed.

(** A connection that joins a room it is new to comes last in the
    enumeration of the room, whatever its place among the connections. *)
Lemma member_ids_joined_new w sid roomID d :
  connected w sid = true → sid ∉ room_ids w roomID →
  socketData w !! sid = Some d →
  member_ids (joined w sid roomID) roomID
  = member_ids w roomID ++ [User.id (user d)].
Proof.
  intros Hlive Hnew Hd. unfold member_ids, members, room_sockets.
  rewrite room_ids_joined. unfold set_add. rewrite bool_decide_false by done.
  rewrite !omap_app. f_equal.
  - assert (omap (socket_of (joined w sid roomID)) (room_ids w roomID)
            = omap (socket_of w) (room_ids w roomID)) as ->; [|done].
    apply list_omap_ext, Forall2_same_length_lookup_2; [done|].
    intros n x y Hx Hy. assert (x = y) as -> by congruence.
    apply socket_of_joined. intros ->. apply Hnew.
    by eapply list_elem_of_lookup_2.
  - destruct (socket_of_joined_self w sid roomID Hlive) as (s & Hs & Hid).
    cbn [omap list_omap]. rewrite Hs. cbn [omap list_omap].
    unfold user_id_of. rewrite Hid.
    change (socketData (joined w sid roomID)) with (socketData w).
    by rewrite Hd.
Qed.

(** C4 (amended): the member-id list passed to the Room Store on join and
    on durable broadcast holds one entry per live connection of the room,
    in the order in which the connections joined the room, namely the user
    id of that connection's session data; nothing removes repetitions, so
    a user id is listed once for each connection of that user in the room:
    a connection that joins a room it is new to adds its user id at the
    end of the list, whether or not the id is in the list already. *)
Theorem member_ids_one_per_connection w sid roomID :
  (∀ c, c ∈ store_calls (joinRoomHandler sid roomID w).1.2 →
        call_users c = member_ids (joined w sid roomID) roomID) ∧
  (∀ encryptedData iv c,
     c ∈ store_calls (serverBroadcastHandler sid roomID encryptedData iv w).1.2 →
     call_users c = member_ids w roomID) ∧
  (∀ w', room_authenticated w' roomID →
         Forall2 (λ s uid, user_id_of w' (sock_id s) = Some uid)
           (members w' roomID) (member_ids w' roomID)) ∧
  (room_authenticated (joined w sid roomID) roomID →
   is_Some (socketData w !! sid) →
   ∃ c, store_calls (joinRoomHandler sid roomID w).1.2 = [c]) ∧
  (∀ d, connected w sid = true → sid ∉ room_ids w roomID →
        socketData w !! sid = Some d →
        member_ids (joined w sid roomID) roomID
        = member_ids w roomID ++ [User.id (user d)]).
Proof.
  split; [|split; [|split; [|split]]].
  - intros c Hc. by apply joinRoomHandler_calls in Hc as (_ & _ & ?).
  - intros encryptedData iv c Hc.
    by apply serverBroadcastHandler_calls in Hc as (_ & ?).
  - intros w'. apply member_ids_members.
  - intros Hauth Hd.
    destruct (joinRoomHandler_syncs w sid roomID Hauth Hd) as (c & ? & _). eauto.
  - intros d. apply member_ids_joined_new.
Qed.

(** ** Joining and leaving *)

(** C2 (amended): when a connection joins a room and the Room Store
    returns a snapshot, the snapshot is delivered to the joining connection
    only, and one presence list is emitted to every member of the room, the
    joiner included; the list names the members other than the joiner.  In
    particular, when a connection joins a room that holds exactly one other
    member, that member receives a presence change that lists exactly
    itself. *)
Theorem join_snapshot_and_presence w sid roomID d st room :
  let w1 := joined w sid roomID in
  let call := {| call_roomID := roomID; call_data := Some JNull;
                 call_users := member_ids w1 roomID;
                 call_lastEditedUser := Null;
                 call_jwtToken := match token d with
                                  | Some t => Val t
                                  | None => Undefined
                                  end |} in
  let tr := (joinRoomHandler sid roomID w).1.2 in
  room_authenticated w1 roomID →
  socketData w !! sid = Some d →
  store_syncRoomData (store w) call = (st, Some room) →
  (∀ peer,
     received peer tr
     = (if bool_decide (peer = sid)
        then [joined_data (encode (room_data room)) []] else [])
       ++ (if bool_decide (peer ∈ sock_id <$> members w1 roomID)
           then [room_user_change (others w sid roomID)] else [])) ∧
  (∀ first d1,
     members w roomID = [first] → sock_id first ≠ sid →
     socketData w !! sock_id first = Some d1 →
     received (sock_id first) tr
     = [room_user_change [{| socketId := sock_id first; socketUser := user d1 |}]]).
Proof.
  intros w1 call tr Hauth Hd Hstore.
  assert (∀ peer,
     received peer tr
     = (if bool_decide (peer = sid)
        then [joined_data (encode (room_data room)) []] else [])
       ++ (if bool_decide (peer ∈ sock_id <$> members w1 roomID)
           then [room_user_change (others w sid roomID)] else [])) as Hrec.
  { intros peer. unfold tr.
    rewrite (joinRoomHandler_found w sid roomID d st room Hauth Hd Hstore).
    cbn [fst snd]. rewrite !received_cons, received_nil, app_nil_r.
    cbn [app]. fold w1. rewrite <- (others_joined w sid roomID).
    f_equal. destruct (decide (peer = sid)) as [->|Hne].
    - by rewrite !bool_decide_eq_true_2 by (done || by apply list_elem_of_singleton).
    - by rewrite !bool_decide_eq_false_2
        by (done || by rewrite list_elem_of_singleton). }
  split; [done|].
  intros first d1 Hmem Hne Hd1. rewrite Hrec.
  rewrite bool_decide_eq_false_2 by done.
  assert (first ∈ members w1 roomID) as Hin.
  { assert (first ∈ filter (λ s, sock_id s ≠ sid) (members w1 roomID)) as Hf.
    { unfold w1. rewrite members_joined_others, Hmem.
      rewrite filter_cons. rewrite decide_True by done. by left. }
    by apply list_elem_of_filter in Hf as [_ ?]. }
  rewrite bool_decide_eq_true_2 by (by apply list_elem_of_fmap_2).
  cbn [app]. unfold others, presence. rewrite Hmem.
  rewrite filter_cons, decide_True by done. cbn.
  unfold user_socket. by rewrite Hd1.
Qed.

Lemma user_id_in_member_ids w sid roomID d :
  sid ∈ sock_id <$> members w roomID → socketData w !! sid = Some d →
  User.id (user d) ∈ member_ids w roomID.
Proof.
  intros (s & Hid & Hs)%list_elem_of_fmap Hd.
  unfold member_ids. apply list_elem_of_omap. exists s. split; [done|].
  unfold user_id_of. by rewrite <- Hid, Hd.
Qed.

Lemma flat_map_ext_elem {A B} (f g : A → list B) l :
  (∀ x, x ∈ l → f x = g x) → flat_map f l = flat_map g l.
Proof.
  induction l as [|x l IH]; intros Hfg; [done|].
  cbn. rewrite Hfg by left. rewrite IH; [done|]. intros; apply Hfg. by right.
Qed.

Lemma disconnecting_room_self w sid :
  disconnecting_room sid sid w = (w, [], Ok tt).
Proof. unfold disconnecting_room. by rewrite String.eqb_refl. Qed.

(** The loop of [disconnectingHandler] over the rooms of the connection:
    room after room, the self-room skipped. *)
Lemma disconnecting_rooms_run sid l : ∀ w,
  (∀ r, r ∈ l → r ≠ sid → room_authenticated w r) →
  ∃ st, mapM (disconnecting_room sid) l w
        = (with_store w st,
           flat_map (λ r, if String.eqb r sid then []
                          else disconnecting_trace w sid r) l,
           Ok ((λ _, tt) <$> l)).
Proof.
  induction l as [|r l IH]; intros w Hauth.
  - exists (store w). by destruct w.
  - cbn [mapM flat_map fmap list_fmap].
    destruct (String.eqb r sid) eqn:Hr.
    + apply String.eqb_eq in Hr as ->.
      rewrite (bind_pure _ _ _ _ (disconnecting_room_self w sid)).
      destruct (IH w) as [st Hl];
        [intros r' Hr' Hne'; apply Hauth; [by right|done]|].
      exists st. rewrite (bind_ok _ _ _ _ _ _ Hl).
      rewrite mret_run. by rewrite app_nil_r.
    + apply String.eqb_neq in Hr.
      rewrite (bind_ok _ _ _ _ _ _
                 (disconnecting_room_run w sid r Hr (Hauth r ltac:(by left) Hr))).
      set (w1 := with_store w _).
      destruct (IH w1) as [st Hl];
        [intros r' Hr' Hne'; apply (Hauth r'); [by right|done]|].
      exists st. rewrite (bind_ok _ _ _ _ _ _ Hl).
      rewrite mret_run. by rewrite app_nil_r.
Qed.

(** The handler of [disconnecting] when nothing happens while it waits:
    the connection is still in its rooms when it resumes. *)
Lemma disconnectingHandler_run w sid d :
  socketData w !! sid = Some d →
  (∀ r, r ∈ rooms_of w sid → r ≠ sid → room_authenticated w r) →
  (disconnectingHandler sid (mret tt) w).1.2
  = flat_map (λ r, if String.eqb r sid then [] else disconnecting_trace w sid r)
      (rooms_of w sid).
Proof.
  intros Hd Hauth. unfold disconnectingHandler.
  rewrite (bind_pure _ _ _ _ (getSocketData_run w sid)), Hd.
  rewrite (bind_pure _ _ _ _ (mret_run w tt)).
  rewrite (bind_quiet _ _ _ _ (user_of_run _ _)). cbn [fmap option_fmap option_map pure_result].
  rewrite (bind_pure _ _ _ _ (socket_rooms_run w sid)).
  destruct (disconnecting_rooms_run sid (rooms_of w sid) w Hauth) as [st Hl].
  rewrite (bind_ok _ _ _ _ _ _ Hl). rewrite mret_run. cbn [fst snd].
  by rewrite app_nil_r.
Qed.

(** C3: what the code does when a connection leaves.  As the transport
    fires the event, the handler is suspended at its first [await] while
    the connection leaves its rooms and is removed; when it resumes,
    [socket.rooms] is empty: nobody is notified and the Room Store is not
    called, whoever remains in the rooms.  The body of the loop, run for a
    room other than the self-room in which the connection is still
    enumerated, with session data for every member, notifies the others
    exactly when there are any and hands the Room Store null for the
    content and the member list of the room as enumerated, the leaving
    connection's user id still in it. *)
Theorem disconnecting_after_leave_pushes_nothing w sid roomID d :
  roomID ≠ sid → sid ∈ sock_id <$> members w roomID →
  room_authenticated w roomID → socketData w !! sid = Some d →
  let fired := dispatch (close sid) w in
  let tr := (disconnecting_room sid roomID w).1.2 in
  (connected w sid = true →
   fired.1.2 = [] ∧ (∀ peer, received peer fired.1.2 = []) ∧
   store_calls fired.1.2 = [] ∧ rooms_of fired.1.1 sid = []) ∧
  (disconnecting_room sid sid w).1.2 = [] ∧
  ((∀ r, r ∈ rooms_of w sid → r ≠ sid → room_authenticated w r) →
   (disconnectingHandler sid (mret tt) w).1.2
   = flat_map (λ r, if String.eqb r sid then []
                    else (disconnecting_room sid r w).1.2) (rooms_of w sid)) ∧
  (others w sid roomID = [] → ∀ peer, received peer tr = []) ∧
  (others w sid roomID ≠ [] →
   ∀ peer, peer ∈ recipients w (BroadcastTo sid roomID) →
           received peer tr = [room_user_change (others w sid roomID)]) ∧
  (∃ c, store_calls tr = [c] ∧ call_roomID c = roomID ∧
        call_data c = Some JNull ∧
        call_users c = member_ids w roomID ∧
        User.id (user d) ∈ call_users c).
Proof.
  intros Hne Hin Hauth Hd fired tr. unfold fired, tr.
  split.
  { intros Hlive. rewrite (dispatch_close_run w sid Hlive). cbn [fst snd].
    split; [done|]. split; [done|]. split; [done|]. apply rooms_of_removed. }
  split; [by rewrite disconnecting_room_self|]. split.
  { intros Hall. rewrite (disconnectingHandler_run w sid d Hd Hall).
    apply flat_map_ext_elem. intros r Hr.
    destruct (String.eqb r sid) eqn:Hrs; [done|]. apply String.eqb_neq in Hrs.
    by rewrite (disconnecting_room_run w sid r Hrs (Hall r Hr Hrs)). }
  rewrite (disconnecting_room_run w sid roomID Hne Hauth). cbn [fst snd].
  unfold disconnecting_trace. split; [|split].
  - intros -> peer. done.
  - intros Hothers peer Hpeer.
    rewrite bool_decide_eq_true_2
      by (destruct (others w sid roomID); [done|cbn; lia]).
    cbn [app]. rewrite !received_cons, received_nil.
    by rewrite bool_decide_eq_true_2.
  - exists (disconnecting_call w roomID).
    split; [by destruct (bool_decide _)|].
    repeat split. by eapply user_id_in_member_ids.
Qed.

(** ** Session data of the connections *)

#[local] Instance same_sessions_frame : Frame same_sessions any_effect.
Proof.
  split; try done.
  - intros w1 w2 w3 [??] [??]. split; congruence.
  - intros w s r. split; [done|]. apply ids_joined.
Qed.

Lemma same_sessions_authenticated w w' :
  same_sessions w w' → authenticated w → authenticated w'.
Proof. intros [Hd Hc] Hauth i. rewrite Hc, Hd. apply Hauth. Qed.

Lemma authenticated_room w roomID : authenticated w → room_authenticated w roomID.
Proof.
  intros Hauth. apply Forall_forall.
  intros s (i & _ & [Hs _]%socket_of_Some)%list_elem_of_omap.
  apply Hauth. by apply list_elem_of_fmap_2.
Qed.

(** The handshake either accepts the connection, with session data stored
    under its id, or rejects it and stores none; it adds no connection
    itself. *)
Lemma socketAuthenticateHandler_cases s t w :
  ∃ w' tr n,
    socketAuthenticateHandler s t w = (w', tr, Ok n) ∧ conns w' = conns w ∧
    match n with
    | next_ok => ∃ d, socketData w' = <[s := d]> (socketData w)
    | next_error _ => socketData w' = socketData w
    end.
Proof.
  unfold socketAuthenticateHandler, try_catch.
  destruct (truthy t) eqn:Ht.
  2:{ rewrite bind_run. cbn. eauto 10. }
  destruct t as [tok|]; [|done].
  rewrite (bind_pure _ _ _ _ (mret_run w tok)).
  rewrite bind_run.
  destruct (cachedTokens w !! tok) as [c|] eqn:Hc.
  - rewrite (verifyToken_hit _ _ _ Hc).
    rewrite (bind_ok _ _ _ _ _ _ (setSocketData_run _ _ _)).
    destruct (permissions c =? 1).
    + rewrite (bind_ok _ _ _ _ _ _ (emit_run _ _ _)). cbn. eauto 10.
    + rewrite (bind_pure _ _ _ _ (mret_run _ _)). cbn. eauto 10.
  - rewrite (verifyToken_miss _ _ Hc).
    destruct (jwt_verify _ _) as [d| |]; [|cbn; eauto 10..].
    rewrite (bind_ok _ _ _ _ _ _ (setSocketData_run _ _ _)).
    destruct (permissions d =? 1).
    + rewrite (bind_ok _ _ _ _ _ _ (emit_run _ _ _)). cbn. eauto 10.
    + rewrite (bind_pure _ _ _ _ (mret_run _ _)). cbn. eauto 10.
Qed.

(** Handling an event keeps every connection authenticated. *)
Lemma dispatch_authenticated ev w :
  authenticated w → authenticated (dispatch ev w).1.1.
Proof.
  intros Hauth.
  destruct ev as [s t|s r|s r b iv|s r b|s].
  - unfold dispatch. rewrite (bind_pure _ _ _ _ (get_world_run w)).
    destruct (socketAuthenticateHandler_cases s t w) as (w' & tr & n & Hrun & Hc & Hn).
    rewrite (bind_ok _ _ _ _ _ _ Hrun).
    destruct n as [|e].
    + destruct Hn as [d Hd].
      rewrite (bind_ok _ _ _ _ _ _ (add_socket_run _ _)).
      unfold handleConnection. rewrite emit_run. cbn [fst snd].
      intros i.
      change (conns (added w' s)) with (conns w' ++ [{| sock_id := s; rooms := [s] |}]).
      change (socketData (added w' s)) with (socketData w').
      rewrite Hc, Hd, fmap_app, elem_of_app.
      destruct (decide (i = s)) as [->|Hne];
        [by rewrite lookup_insert_eq|rewrite lookup_insert_ne by done].
      intros [Hi|Hi]; [by apply Hauth|].
      apply list_elem_of_fmap in Hi as (x & -> & ->%list_elem_of_singleton).
      by destruct Hne.
    + rewrite mret_run. cbn [fst snd]. intros i. rewrite Hc, Hn. apply Hauth.
  - eapply same_sessions_authenticated; [|done].
    by apply (keeps_dispatch same_sessions any_effect (join_room s r)).
  - eapply same_sessions_authenticated; [|done].
    by apply (keeps_dispatch same_sessions any_effect (server_broadcast s r b iv)).
  - eapply same_sessions_authenticated; [|done].
    by apply (keeps_dispatch same_sessions any_effect (server_volatile_broadcast s r b)).
  - destruct (connected w s) eqn:Hlive.
    + rewrite (dispatch_close_run w s Hlive). cbn [fst snd].
      intros i. change (conns (with_socketData (removed w s) (delete s (socketData w))))
        with (filter (λ c, sock_id c ≠ s) (conns w)).
      cbn [socketData with_socketData].
      intros (x & -> & [Hx Hin]%list_elem_of_filter)%list_elem_of_fmap.
      rewrite lookup_delete_ne by done. apply Hauth. by apply list_elem_of_fmap_2.
    + unfold dispatch. rewrite (bind_pure _ _ _ _ (get_world_run w)).
      by rewrite Hlive.
Qed.

(** The invariant of the relay: in every state the server reaches from
    one in which every connection has session data, every connection has
    session data. *)
Lemma run_authenticated evs : ∀ w,
  authenticated w → authenticated (run evs w).1.
Proof.
  induction evs as [|ev evs IH]; intros w Hauth; [done|].
  cbn [run]. pose proof (dispatch_authenticated ev w Hauth) as H1.
  destruct (dispatch ev w) as [[w1 t1] [[]|e]]; cbn [fst snd] in H1; [|done].
  specialize (IH w1 H1). by destruct (run evs w1) as [w2 t2].
Qed.

(** ** The handshake *)

Lemma accepted_claims_verifyToken w tok :
  verifyToken tok w
  = match accepted_claims w tok with
    | Some d =>
        match cachedTokens w !! tok with
        | Some _ => (w, [], Ok d)
        | None => (with_cachedTokens w (<[tok := d]> (cachedTokens w)),
                   [JwtVerify tok (env w !! "JWT_SECRET_KEY")], Ok d)
        end
    | None => (w, [JwtVerify tok (env w !! "JWT_SECRET_KEY")],
               Throw "Authentication error")
    end.
Proof.
  unfold accepted_claims.
  destruct (cachedTokens w !! tok) as [c|] eqn:Hc.
  - by apply verifyToken_hit.
  - rewrite (verifyToken_miss _ _ Hc). by destruct (jwt_verify _ _).
Qed.

(** The handshake of a request without a credential. *)
Lemma socketAuthenticateHandler_no_token w sid t :
  truthy t = false →
  socketAuthenticateHandler sid t w = (w, [], Ok (next_error "Authentication error")).
Proof.
  intros Ht. unfold socketAuthenticateHandler, try_catch. rewrite Ht.
  by rewrite bind_run.
Qed.

(** The handshake of a request with a credential. *)
Lemma socketAuthenticateHandler_token w sid tok :
  tok ≠ EmptyString →
  socketAuthenticateHandler sid (Some tok) w
  = match verifyToken tok w with
    | (w1, t1, Ok d) =>
        (with_socketData w1 (<[sid := d]> (socketData w1)),
         t1 ++ (if Z.eqb (permissions d) 1
                then [Emit (ToSocket sid) read_only [sid]] else []),
         Ok next_ok)
    | (w1, t1, Throw _) => (w1, t1, Ok (next_error "Authentication error"))
    end.
Proof.
  intros Hne%truthy_Some_iff. unfold socketAuthenticateHandler, try_catch.
  rewrite Hne. rewrite (bind_pure _ _ _ _ (mret_run w tok)).
  destruct (verifyToken tok w) as [[w1 t1] [d|e]] eqn:Hv.
  - rewrite (bind_ok _ _ _ _ _ _ Hv).
    rewrite (bind_ok _ _ _ _ _ _ (setSocketData_run _ _ _)).
    destruct (permissions d =? 1).
    + rewrite (bind_ok _ _ _ _ _ _ (emit_run _ _ _)). rewrite mret_run.
      cbn [recipients]. by rewrite app_nil_r.
    + rewrite (bind_pure _ _ _ _ (mret_run _ _)). rewrite mret_run.
      by rewrite !app_nil_r.
  - rewrite (bind_throw _ _ _ _ _ _ Hv). rewrite mret_run. by rewrite app_nil_r.
Qed.

Lemma received_app peer t1 t2 :
  received peer (t1 ++ t2) = received peer t1 ++ received peer t2.
Proof. unfold received. apply omap_app. Qed.

(** X8: a handshake without a credential, or with one that is neither
    cached nor accepted by the verifier, is rejected: [next] gets the
    error Authentication error whatever the reason was, the state stays
    as it is (no session data, no cache entry, no connection), and no
    event is emitted to anybody; the verifier is asked at most once, and
    not at all without a credential. *)
Theorem handshake_rejected w sid t :
  truthy t = false ∨ (∃ tok, t = Some tok ∧ accepted_claims w tok = None) →
  let out := socketAuthenticateHandler sid t w in
  out.2 = Ok (next_error "Authentication error") ∧
  out.1.1 = w ∧
  (dispatch (handshake sid t) w).1.1 = w ∧
  (dispatch (handshake sid t) w).1.2 = out.1.2 ∧
  (∀ peer, received peer out.1.2 = []) ∧
  (List.length (verifications out.1.2) ≤ 1)%nat ∧
  (truthy t = false → out.1.2 = []).
Proof.
  intros Hwhy out.
  assert (∃ tr, out = (w, tr, Ok (next_error "Authentication error")) ∧
                (∀ peer, received peer tr = []) ∧
                (List.length (verifications tr) ≤ 1)%nat ∧
                (truthy t = false → tr = [])) as (tr & Hout & Hrecv & Hver & Hnone).
  { destruct (truthy t) eqn:Ht.
    - destruct Hwhy as [?|(tok & -> & Hclaims)]; [done|].
      apply truthy_Some_iff in Ht.
      exists [JwtVerify tok (env w !! "JWT_SECRET_KEY")].
      unfold out. rewrite (socketAuthenticateHandler_token _ _ _ Ht).
      rewrite accepted_claims_verifyToken, Hclaims.
      split; [done|]. split; [done|]. split; [cbn; lia|done].
    - exists []. unfold out. rewrite (socketAuthenticateHandler_no_token _ _ _ Ht).
      split; [done|]. split; [done|]. split; [cbn; lia|done]. }
  assert (dispatch (handshake sid t) w = (w, tr, Ok tt)) as Hdispatch.
  { unfold dispatch. rewrite (bind_pure _ _ _ _ (get_world_run w)).
    fold out. rewrite (bind_ok _ _ _ _ _ _ Hout). rewrite mret_run.
    by rewrite app_nil_r. }
  rewrite Hdispatch, Hout. cbn [fst snd]. done.
Qed.

(** An accepted handshake, from the check of the credential to the
    greeting of the connection. *)
Lemma dispatch_handshake_accepted w sid tok d :
  tok ≠ EmptyString →
  accepted_claims w tok = Some d →
  ∃ w1 t1,
    dispatch (handshake sid (Some tok)) w
    = (added (with_socketData w1 (<[sid := d]> (socketData w1))) sid,
       (t1 ++ (if Z.eqb (permissions d) 1
               then [Emit (ToSocket sid) read_only [sid]] else []))
       ++ [Emit (ToSocket sid) init_room [sid]],
       Ok tt) ∧
    socketData w1 = socketData w ∧ conns w1 = conns w ∧
    cachedTokens w1 !! tok = Some d ∧
    ∀ peer, received peer t1 = [].
Proof.
  intros Hne Hclaims.
  assert (∃ w1 t1,
            verifyToken tok w = (w1, t1, Ok d) ∧ socketData w1 = socketData w ∧
            conns w1 = conns w ∧ cachedTokens w1 !! tok = Some d ∧
            ∀ peer, received peer t1 = []) as (w1 & t1 & Hv & Hd & Hc & Hcache & Ht1).
  { rewrite accepted_claims_verifyToken, Hclaims.
    unfold accepted_claims in Hclaims.
    destruct (cachedTokens w !! tok) as [c|] eqn:Hhit.
    - exists w, []. by simplify_eq.
    - eexists _, _. split; [done|]. cbn [socketData conns cachedTokens with_cachedTokens].
      by rewrite lookup_insert_eq. }
  exists w1, t1. split; [|done].
  unfold dispatch. rewrite (bind_pure _ _ _ _ (get_world_run w)).
  pose proof (socketAuthenticateHandler_token w sid tok Hne) as Hauth.
  rewrite Hv in Hauth. rewrite (bind_ok _ _ _ _ _ _ Hauth).
  rewrite (bind_ok _ _ _ _ _ _ (add_socket_run _ _)).
  unfold handleConnection. rewrite emit_run. done.
Qed.

(** X9: a handshake with a non-empty credential that is cached or that
    the verifier accepts is accepted with the cached claims if there are
    any, else the decoded ones: the claims become the session data of the
    connection id and the cache entry of the credential, the connection
    comes into being as a member of its self-room only, and the events
    emitted are, to the connection alone, read-only exactly when the
    permission level of the claims is 1, then init-room. *)
Theorem handshake_accepted w sid tok d :
  tok ≠ EmptyString →
  accepted_claims w tok = Some d →
  let out := dispatch (handshake sid (Some tok)) w in
  socketData out.1.1 = <[sid := d]> (socketData w) ∧
  cachedTokens out.1.1 !! tok = Some d ∧
  conns out.1.1 = conns w ++ [{| sock_id := sid; rooms := [sid] |}] ∧
  received sid out.1.2
  = (if Z.eqb (permissions d) 1 then [read_only] else []) ++ [init_room] ∧
  (∀ peer, peer ≠ sid → received peer out.1.2 = []).
Proof.
  intros Hne Hclaims out.
  destruct (dispatch_handshake_accepted w sid tok d Hne Hclaims)
    as (w1 & t1 & Hrun & Hd & Hc & Hcache & Ht1).
  unfold out. rewrite Hrun. cbn [fst snd].
  rewrite added_conns.
  destruct (added_sessions (with_socketData w1 (<[sid := d]> (socketData w1))) sid)
    as (-> & -> & _).
  cbn [socketData conns cachedTokens with_socketData].
  rewrite Hd, Hc. split; [done|]. split; [done|]. split; [done|].
  split.
  - rewrite !received_app, Ht1. cbn [app].
    destruct (permissions d =? 1); rewrite !received_cons, received_nil;
      by rewrite !bool_decide_true by (by apply list_elem_of_singleton).
  - intros peer Hpeer. rewrite !received_app, Ht1. cbn [app].
    destruct (permissions d =? 1); rewrite !received_cons, received_nil;
      by rewrite !bool_decide_false by (by rewrite list_elem_of_singleton).
Qed.

(** X19: what the connection is told at the handshake is what the guard
    of the durable broadcast goes by: an accepted connection is sent
    read-only exactly when the permission level of its claims is 1, which
    is exactly when [isSocketReadOnly] holds of it afterwards and its
    durable broadcasts, to any room, do nothing. *)
Theorem read_only_notice_matches_guard w sid tok d :
  tok ≠ EmptyString →
  accepted_claims w tok = Some d →
  let out := dispatch (handshake sid (Some tok)) w in
  (read_only ∈ received sid out.1.2 ↔ permissions d = 1) ∧
  isSocketReadOnly sid out.1.1 = (out.1.1, [], Ok (Z.eqb (permissions d) 1)) ∧
  (read_only ∈ received sid out.1.2 →
   ∀ roomID encryptedData iv,
     serverBroadcastHandler sid roomID encryptedData iv out.1.1
     = (out.1.1, [], Ok tt)).
Proof.
  intros Hne Hclaims out.
  destruct (dispatch_handshake_accepted w sid tok d Hne Hclaims)
    as (w1 & t1 & Hrun & Hd & Hc & Hcache & Ht1).
  unfold out. rewrite Hrun. cbn [fst snd].
  set (w' := added _ _).
  assert (socketData w' !! sid = Some d) as Hdata
    by (unfold w'; rewrite (proj1 (added_sessions _ _));
        cbn [socketData with_socketData]; apply lookup_insert_eq).
  assert (read_only ∈ received sid
            ((t1 ++ (if permissions d =? 1
                     then [Emit (ToSocket sid) read_only [sid]] else []))
             ++ [Emit (ToSocket sid) init_room [sid]])
          ↔ permissions d = 1) as Hnotice.
  { rewrite !received_app, Ht1. cbn [app].
    destruct (Z.eqb_spec (permissions d) 1) as [Hone|Hother];
      rewrite !received_cons, received_nil;
      rewrite !bool_decide_true by (by apply list_elem_of_singleton).
    - split; [done|]. intros _. left.
    - split; [|done].
      intros [Heq|Hin%elem_of_nil]%elem_of_cons; [discriminate Heq|done]. }
  split; [done|]. split.
  - by rewrite isSocketReadOnly_run, Hdata.
  - intros Hone%Hnotice roomID encryptedData iv.
    apply serverBroadcastHandler_guarded. left. by exists d.
Qed.

(** ** Joining a room the Room Store does not know *)

Lemma set_add_elem x l : x ∈ set_add x l.
Proof.
  unfold set_add. case_bool_decide as Hin; [done|].
  apply elem_of_app. right. by apply list_elem_of_singleton.
Qed.

(** After [socket.join] a live connection is a member of the room. *)
Lemma rooms_of_joined w sid roomID :
  connected w sid = true → roomID ∈ rooms_of (joined w sid roomID) sid.
Proof.
  unfold connected, rooms_of.
  change (conns (joined w sid roomID))
    with ((λ s0, if String.eqb (sock_id s0) sid
                 then {| sock_id := sock_id s0; rooms := set_add roomID (rooms s0) |}
                 else s0) <$> conns w).
  intros Hin%bool_decide_eq_true.
  induction (conns w) as [|s l IH]; [by apply elem_of_nil in Hin|].
  cbn [fmap list_fmap find].
  destruct (String.eqb_spec (sock_id s) sid) as [Heq|Hne].
  - cbn [sock_id]. rewrite (proj2 (String.eqb_eq _ _) Heq). cbn [rooms].
    apply set_add_elem.
  - rewrite (proj2 (String.eqb_neq _ _) Hne). apply IH.
    apply elem_of_cons in Hin as [Hhead|Htail]; [by destruct Hne|done].
Qed.

(** X10: when the Room Store answers a join with no room, the joining
    connection alone is told room-not-found and nobody gets a presence
    list; yet the Room Store was asked with the member ids of the room the
    joiner already counted in and with the joiner's credential, and the
    connection stays a member of the room, so that its later broadcasts to
    the room pass the membership check. *)
Theorem join_room_not_found w sid roomID d st :
  let w1 := joined w sid roomID in
  let call := {| call_roomID := roomID; call_data := Some JNull;
                 call_users := member_ids w1 roomID;
                 call_lastEditedUser := Null;
                 call_jwtToken := match token d with
                                  | Some t => Val t
                                  | None => Undefined
                                  end |} in
  let out := joinRoomHandler sid roomID w in
  room_authenticated w1 roomID →
  socketData w !! sid = Some d →
  store_syncRoomData (store w) call = (st, None) →
  out = (with_store w1 st,
         [SyncRoomData call; Emit (ToSocket sid) room_not_found [sid]], Ok tt) ∧
  (∀ peer, received peer out.1.2
           = if bool_decide (peer = sid) then [room_not_found] else []) ∧
  (connected w sid = true → roomID ∈ rooms_of out.1.1 sid).
Proof.
  intros w1 call out Hauth Hd Hstore.
  assert (out = (with_store w1 st,
                 [SyncRoomData call; Emit (ToSocket sid) room_not_found [sid]],
                 Ok tt)) as ->.
  { unfold out, joinRoomHandler.
    assert (socket_join sid roomID w = (w1, [], Ok tt)) as Hjoin by done.
    rewrite (bind_ok _ _ _ _ _ _ Hjoin).
    rewrite bind_member_ids.
    rewrite (mapM_user_socket _ _ Hauth).
    rewrite (bind_pure _ _ _ _ (getSocketData_run w1 sid)).
    assert (socketData w1 = socketData w) as Hsd by done.
    rewrite Hsd, Hd.
    rewrite (bind_pure _ _ _ _ (mret_run w1 _)).
    rewrite (bind_ok _ _ _ _ _ _ (syncRoomData_run _ _ _ _ _ _)).
    change (store w1) with (store w). cbn zeta. fold call. rewrite Hstore.
    cbn [fst snd]. rewrite emit_run. done. }
  split; [done|]. cbn [fst snd]. split.
  - intros peer. rewrite !received_cons, received_nil.
    destruct (decide (peer = sid)) as [->|Hne].
    + rewrite bool_decide_true by (by apply list_elem_of_singleton).
      by rewrite bool_decide_true.
    + rewrite bool_decide_false by (by rewrite list_elem_of_singleton).
      by rewrite bool_decide_false.
  - apply rooms_of_joined.
Qed.

(** ** The durable broadcast of a writer *)

(** X11: a durable broadcast of a member that may write is relayed before
    its payload is looked at.  If the relayed buffer decodes to an object
    whose [payload] can be read for [elements], the Room Store is then
    called once with those elements, the user ids of the room's
    connections and, as last editor, the sender's user id on record; if it
    does not (no JSON, no payload), the handler throws after the relay:
    the peers got the buffer, the Room Store is not called and the state
    stays as it was. *)
Theorem durable_broadcast_relays_then_persists w sid roomID encryptedData iv d :
  socketData w !! sid = Some d → permissions d ≠ 1 →
  roomID ∈ rooms_of w sid → room_authenticated w roomID →
  let relay := Emit (BroadcastTo sid roomID) (client_broadcast [encryptedData; iv])
                 (recipients w (BroadcastTo sid roomID)) in
  serverBroadcastHandler sid roomID encryptedData iv w
  = match decoded_elements encryptedData with
    | Ok elements =>
        let call := {| call_roomID := roomID; call_data := elements;
                       call_users := member_ids w roomID;
                       call_lastEditedUser := Val (User.id (user d));
                       call_jwtToken := Undefined |} in
        (with_store w (store_syncRoomData (store w) call).1,
         [relay; SyncRoomData call], Ok tt)
    | Throw e => (w, [relay], Throw e)
    end.
Proof.
  intros Hd Hperm Hin Hauth relay. unfold serverBroadcastHandler, decoded_elements.
  rewrite (bind_pure _ _ _ _ (isSocketReadOnly_run w sid)).
  rewrite (bind_pure _ _ _ _ (socket_rooms_run w sid)).
  rewrite bool_decide_eq_true_2 by done.
  rewrite Hd. rewrite (proj2 (Z.eqb_neq _ _) Hperm). cbn [negb orb].
  rewrite (bind_ok _ _ _ _ _ _ (emit_run _ _ _)). fold relay.
  rewrite (bind_quiet _ _ _ _ (decode_run _ _)).
  destruct (JSON_parse _) as [decryptedData|]; [|done].
  rewrite (bind_pure _ _ _ _ (getSocketData_run w sid)).
  rewrite (bind_quiet _ _ _ _ (user_of_run _ _)).
  rewrite Hd. cbn [fmap option_fmap option_map pure_result].
  rewrite bind_member_ids.
  rewrite (mapM_user_socket _ _ Hauth).
  rewrite (bind_quiet _ _ _ _ (lift_run _ _)).
  destruct (prop "payload" _) as [payload|]; [|done].
  rewrite (bind_quiet _ _ _ _ (lift_run _ _)).
  destruct (prop "elements" _) as [elements|]; [|done].
  rewrite (bind_ok _ _ _ _ _ _ (syncRoomData_run _ _ _ _ _ _)).
  by rewrite mret_run.
Qed.

(** ** The volatile broadcast of an outsider *)

(** X12: the volatile broadcast does not check that the sender is in the
    room: a MOUSE_LOCATION event of a connection that has not joined a
    room reaches every other connection of that room, tagged with the
    sender's user on record, whereas a durable broadcast of the same
    buffer to the same room reaches nobody. *)
Theorem volatile_broadcast_ignores_membership w sid roomID encryptedData iv d :
  socketData w !! sid = Some d →
  decoded_type encryptedData = Some (JStr "MOUSE_LOCATION") →
  roomID ∉ rooms_of w sid →
  (∀ peer,
     peer ∈ sock_id <$> members w roomID → peer ≠ sid →
     received peer (serverVolatileBroadcastHandler sid roomID encryptedData w).1.2
     = [client_broadcast
          [encode (mouse_location_event (user d) (decoded_payload encryptedData))]]) ∧
  (∀ peer,
     received peer (serverBroadcastHandler sid roomID encryptedData iv w).1.2 = []).
Proof.
  intros Hd Htype Hout. split.
  - intros peer Hmember Hpeer.
    destruct (serverVolatileBroadcastHandler_run w sid roomID encryptedData)
      as [r ->].
    cbn [fst snd]. unfold volatile_trace. rewrite Hd, Htype.
    rewrite (proj2 (strict_eq_string_true _ _) eq_refl).
    rewrite received_cons, received_nil, app_nil_r.
    rewrite bool_decide_true; [done|].
    cbn [recipients]. apply list_elem_of_filter. by split.
  - intros peer.
    rewrite (serverBroadcastHandler_guarded w sid roomID encryptedData iv);
      [done|by right].
Qed.

(** ** The two enumerations of a room *)

Lemma mapM_user_socket_filter w sid l us :
  mapM (user_socket w) l = Some us →
  mapM (user_socket w) (filter (λ s, sock_id s ≠ sid) l)
  = Some (filter (λ u, socketId u ≠ sid) us) ∧
  socketId <$> us = sock_id <$> l.
Proof.
  revert us. induction l as [|s l IH]; intros us; [by intros [= <-]|].
  cbn [mapM].
  destruct (socketData w !! sock_id s) as [d|] eqn:Hd.
  2:{ assert (user_socket w s = None) as ->
        by (unfold user_socket; by rewrite Hd).
      done. }
  assert (user_socket w s
          = Some {| socketId := sock_id s; socketUser := user d |}) as Hs
    by (unfold user_socket; by rewrite Hd).
  rewrite Hs. cbn [mbind option_bind].
  destruct (mapM (user_socket w) l) as [us'|]; [|done].
  cbn [mbind option_bind mret option_ret]. intros [= <-].
  destruct (IH us' eq_refl) as [IHf IHi].
  split; [|cbn [fmap list_fmap socketId]; by f_equal].
  rewrite !filter_cons. cbn [socketId].
  destruct (decide (sock_id s ≠ sid)) as [Hne|Heq]; [|done].
  cbn [mapM]. rewrite Hs. cbn [mbind option_bind]. by rewrite IHf.
Qed.

(** X13: where [getUserSockets] yields the presence list of a room,
    [getOtherUserSockets] yields that list without the entries of the
    current connection id, in the same order: one entry per other
    connection of the room, none for the current one. *)
Theorem getOtherUserSockets_filters w roomID sid us :
  getUserSockets roomID w = (w, [], Ok us) →
  getOtherUserSockets roomID sid w
  = (w, [], Ok (filter (λ u, socketId u ≠ sid) us)) ∧
  socketId <$> us = sock_id <$> members w roomID ∧
  sid ∉ socketId <$> filter (λ u, socketId u ≠ sid) us.
Proof.
  rewrite getUserSockets_run, getOtherUserSockets_run.
  destruct (mapM (user_socket w) (members w roomID)) as [us'|] eqn:Hus; [|done].
  intros [= <-].
  destruct (mapM_user_socket_filter w sid _ _ Hus) as [-> Hids].
  split; [done|]. split; [done|].
  intros (u & Hu & [Hne _]%list_elem_of_filter)%list_elem_of_fmap.
  by destruct Hne.
Qed.

(** X14: the invariant of the relay and what it buys: in every state the
    server reaches from one in which every connection has session data,
    every connection has session data, so the enumerations of any room
    never throw and yield one entry per connection of the room. *)
Theorem reached_rooms_enumerate evs w roomID sid :
  authenticated w →
  let w' := (run evs w).1 in
  authenticated w' ∧
  getUserSockets roomID w' = (w', [], Ok (presence w' (members w' roomID))) ∧
  getOtherUserSockets roomID sid w' = (w', [], Ok (others w' sid roomID)) ∧
  socketId <$> presence w' (members w' roomID) = sock_id <$> members w' roomID.
Proof.
  intros Hauth w'.
  pose proof (run_authenticated evs w Hauth) as Hauth'. fold w' in Hauth'.
  pose proof (authenticated_room w' roomID Hauth') as Hroom.
  pose proof (mapM_user_socket _ _ Hroom) as Hus.
  split; [done|]. split; [|split].
  - by rewrite getUserSockets_run, Hus.
  - rewrite getOtherUserSockets_run. rewrite mapM_user_socket; [done|].
    unfold room_authenticated in Hroom. rewrite Forall_forall in Hroom |- *.
    intros s [_ Hs]%list_elem_of_filter. by apply Hroom.
  - by destruct (mapM_user_socket_filter w' sid _ _ Hus) as [_ ->].
Qed.

End RelayFacts.

(** ** What the events leave alone *)

Section SessionFacts.
Context {codec : Codec} {verifier : TokenVerifier} {roomStore : RoomStore}.

(** The handlers of the listeners never ask the verifier: what they keep
    can be read off with a verifier that refuses everything, for which the
    frame conditions ask nothing of the credential cache. *)
#[local] Instance sessions_kept_frame :
  Frame (verifier := no_verifier) sessions_kept any_effect.
Proof.
  split; try done.
  - intros w1 w2 w3 (?&?&?&?) (?&?&?&?). repeat split; congruence.
  - intros w s r. repeat split. apply ids_joined.
Qed.

Lemma dispatch_relay_event ev w :
  relay_event ev → sessions_kept w (dispatch ev w).1.1.
Proof.
  destruct ev as [s t|s r|s r b iv|s r b|s]; intros Hev; try done.
  - apply (keeps_dispatch (verifier := no_verifier) sessions_kept any_effect
             (join_room s r) I w).
  - apply (keeps_dispatch (verifier := no_verifier) sessions_kept any_effect
             (server_broadcast s r b iv) (λ _, I) w).
  - apply (keeps_dispatch (verifier := no_verifier) sessions_kept any_effect
             (server_volatile_broadcast s r b) I w).
Qed.

Lemma fmap_filter_sock_id s (l : list Socket) :
  sock_id <$> filter (λ c, sock_id c ≠ s) l = filter (λ i, i ≠ s) (sock_id <$> l).
Proof.
  induction l as [|c l IH]; [done|].
  cbn [fmap list_fmap]. rewrite !filter_cons.
  destruct (decide (sock_id c ≠ s)); cbn [fmap list_fmap]; by rewrite <- IH.
Qed.

Lemma cache_kept_refl w : cache_kept w w.
Proof. by split. Qed.

Lemma cache_kept_trans w1 w2 w3 :
  cache_kept w1 w2 → cache_kept w2 w3 → cache_kept w1 w3.
Proof. intros [He1 Hc1] [He2 Hc2]. split; [congruence|by etrans]. Qed.

Lemma sessions_kept_cache_kept w w' : sessions_kept w w' → cache_kept w w'.
Proof. intros (_ & Hc & He & _). split; [done|by rewrite Hc]. Qed.

Lemma dispatch_cache_kept ev w : cache_kept w (dispatch ev w).1.1.
Proof.
  destruct ev as [s t|s r|s r b iv|s r b|s].
  - unfold dispatch. rewrite (bind_pure _ _ _ _ (get_world_run w)).
    assert (∃ w1 t1 n, socketAuthenticateHandler s t w = (w1, t1, Ok n) ∧
                       cache_kept w w1 ∧ env w1 = env w) as (w1 & t1 & n & Hrun & Hkept & _).
    { destruct (truthy t) eqn:Ht.
      - destruct t as [tok|]; [|done]. apply truthy_Some_iff in Ht.
        rewrite (socketAuthenticateHandler_token _ _ _ Ht).
        rewrite accepted_claims_verifyToken.
        destruct (accepted_claims w tok) as [d|];
          [|eexists _, _, _; split; [done|]; by split].
        destruct (cachedTokens w !! tok) as [c|] eqn:Hc;
          eexists _, _, _; (split; [done|]); split; try done.
        split; [done|]. cbn [cachedTokens with_socketData with_cachedTokens].
        by apply insert_subseteq.
      - rewrite (socketAuthenticateHandler_no_token _ _ _ Ht).
        eexists _, _, _. split; [done|]. by split. }
    rewrite (bind_ok _ _ _ _ _ _ Hrun). destruct n as [|e].
    + rewrite (bind_ok _ _ _ _ _ _ (add_socket_run _ _)).
      unfold handleConnection. by rewrite emit_run.
    + by rewrite mret_run.
  - by apply sessions_kept_cache_kept, dispatch_relay_event.
  - by apply sessions_kept_cache_kept, dispatch_relay_event.
  - by apply sessions_kept_cache_kept, dispatch_relay_event.
  - destruct (connected w s) eqn:Hlive.
    + rewrite (dispatch_close_run w s Hlive). by split.
    + unfold dispatch. rewrite (bind_pure _ _ _ _ (get_world_run w)).
      rewrite Hlive. apply cache_kept_refl.
Qed.

Lemma run_cache_kept evs : ∀ w, cache_kept w (run evs w).1.
Proof.
  induction evs as [|ev evs IH]; intros w; [apply cache_kept_refl|].
  cbn [run]. pose proof (dispatch_cache_kept ev w) as H1.
  destruct (dispatch ev w) as [[w1 t1] [[]|e]]; cbn [fst snd] in H1; [|done].
  specialize (IH w1). destruct (run evs w1) as [w2 t2].
  by apply (cache_kept_trans _ w1).
Qed.

(** X15: joins and broadcasts change nothing of the state but the Room
    Store's part and the rooms joined: the connections, their session
    data, the credential cache and the environment are after any sequence
    of such events what they were before. *)
Theorem relay_events_keep_sessions evs : ∀ w,
  Forall relay_event evs →
  let w' := (run evs w).1 in
  socketData w' = socketData w ∧ cachedTokens w' = cachedTokens w ∧
  env w' = env w ∧ sock_id <$> conns w' = sock_id <$> conns w.
Proof.
  induction evs as [|ev evs IH]; intros w Hevs; [done|].
  inversion_clear Hevs as [|?? Hev Hrest].
  cbn [run]. pose proof (dispatch_relay_event ev w Hev) as H1.
  destruct (dispatch ev w) as [[w1 t1] [[]|e]]; cbn [fst snd] in H1; [|done].
  specialize (IH w1 Hrest). cbn zeta in IH.
  destruct (run evs w1) as [w2 t2]. cbn [fst snd] in *.
  destruct H1 as (Hd1 & Hc1 & He1 & Hi1), IH as (Hd2 & Hc2 & He2 & Hi2).
  repeat split; congruence.
Qed.

(** X16: the closing of a live connection removes the connection and its
    session data and leaves the session data of the others, the
    credential cache and the environment as they are; a closing for an id
    that is not connected does nothing. *)
Theorem close_forgets_session w sid :
  let out := dispatch (close sid) w in
  (connected w sid = false → out = (w, [], Ok tt)) ∧
  (connected w sid = true →
   socketData out.1.1 = delete sid (socketData w) ∧
   sock_id <$> conns out.1.1 = filter (λ i, i ≠ sid) (sock_id <$> conns w) ∧
   connected out.1.1 sid = false ∧
   cachedTokens out.1.1 = cachedTokens w ∧
   env out.1.1 = env w).
Proof.
  intros out. split; intros Hlive.
  - unfold out, dispatch. rewrite (bind_pure _ _ _ _ (get_world_run w)).
    by rewrite Hlive.
  - unfold out. rewrite (dispatch_close_run w sid Hlive). cbn [fst snd].
    change (conns (with_socketData (removed w sid) (delete sid (socketData w))))
      with (filter (λ c, sock_id c ≠ sid) (conns w)).
    rewrite fmap_filter_sock_id. split; [done|]. split; [done|].
    split; [|done].
    unfold connected. apply bool_decide_eq_false.
    change (conns (with_socketData (removed w sid) (delete sid (socketData w))))
      with (filter (λ c, sock_id c ≠ sid) (conns w)).
    rewrite fmap_filter_sock_id.
    intros [Hne _]%list_elem_of_filter. by destruct Hne.
Qed.

(** X17: no handler removes or replaces an entry of the credential cache:
    a credential that is cached stays cached with the same claims whatever
    events the server handles, closings included, and a later handshake
    with it is accepted with those claims without the verifier being
    asked. *)
Theorem cached_credential_stays w evs sid tok d :
  tok ≠ EmptyString →
  cachedTokens w !! tok = Some d →
  let w' := (run evs w).1 in
  let out := socketAuthenticateHandler sid (Some tok) w' in
  cachedTokens w' !! tok = Some d ∧
  verifyToken tok w' = (w', [], Ok d) ∧
  out.2 = Ok next_ok ∧
  socketData out.1.1 !! sid = Some d ∧
  verifications out.1.2 = [].
Proof.
  intros Hne Hcached w' out.
  destruct (run_cache_kept evs w) as [_ Hsub]. fold w' in Hsub.
  assert (cachedTokens w' !! tok = Some d) as Hcached'
    by (by eapply lookup_weaken).
  pose proof (verifyToken_hit w' tok d Hcached') as Hhit.
  split; [done|]. split; [done|].
  unfold out. rewrite (socketAuthenticateHandler_token _ _ _ Hne), Hhit.
  cbn [fst snd socketData with_socketData]. rewrite lookup_insert_eq.
  split; [done|]. split; [done|]. by destruct (permissions d =? 1).
Qed.

End SessionFacts.

(** ** The properties at work on the example server *)

Import Example.

(** C1, as stated, fails: read-only Bob sends his cursor position as a
    volatile broadcast, and Alice receives it, tagged with Bob's
    identity. *)
Lemma read_only_volatile_is_relayed :
  read_only_conn w_both_in "B" ∧
  received "A" (run [server_volatile_broadcast "B" "doc-42" cursor_bytes] w_both_in).2
  = [client_broadcast
       [encode (mouse_location_event bob
                  (Some (JObj [("pointer", JObj [("x", JNum 10); ("y", JNum 20)]);
                               ("user", JObj [("id", JStr "mallory")])])))]] ∧
  relayed_by "B" (run [server_volatile_broadcast "B" "doc-42" cursor_bytes] w_both_in).2
  ≠ [].
Proof.
  split; [exists bob_session; split; reflexivity|].
  split; [vm_compute; reflexivity|]. vm_compute. discriminate.
Qed.

(** Read-only Bob tries durable broadcasts again and again, into the room
    he is in and into one he joins meanwhile: none is relayed. *)
Lemma read_only_relays_only_volatile_witness :
  Forall (no_durable_relay_by "B")
    (run [server_broadcast "B" "doc-42" scene_bytes iv_bytes;
          server_volatile_broadcast "B" "doc-42" cursor_bytes;
          server_broadcast "B" "doc-42" scene_bytes iv_bytes;
          join_room "B" "doc-7";
          server_broadcast "B" "doc-7" scene_bytes iv_bytes] w_both_in).2.
Proof.
  assert (read_only_conn w_both_in "B") as Hro
    by (exists bob_session; split; reflexivity).
  refine (proj1 (read_only_relays_only_volatile "B" w_both_in _ Hro _)).
  repeat constructor; intros [t Ht]; discriminate Ht.
Defined.

(** C2, as stated, fails: Bob joins doc-42 where Alice is; the presence
    list Alice receives names Alice herself, not Bob, and Bob, the joiner,
    receives that list as well. *)
Lemma join_presence_lists_the_others :
  received "A" (run [join_room "B" "doc-42"] w_alice_in).2
  = [room_user_change [{| socketId := "A"; socketUser := alice |}]] ∧
  received "A" (run [join_room "B" "doc-42"] w_alice_in).2
  ≠ [room_user_change [{| socketId := "B"; socketUser := bob |}]] ∧
  received "B" (run [join_room "B" "doc-42"] w_alice_in).2
  = [joined_data (encode (JArr [])) [];
     room_user_change [{| socketId := "A"; socketUser := alice |}]].
Proof.
  split; [vm_compute; reflexivity|].
  split; [vm_compute; discriminate|vm_compute; reflexivity].
Qed.

(** Bob joins doc-42, where Alice is: the snapshot goes to Bob, and Alice
    is sent the list of the members other than Bob, herself. *)
Lemma join_snapshot_and_presence_witness :
  (∀ peer,
     received peer (joinRoomHandler "B" "doc-42" w_alice_in).1.2
     = (if bool_decide (peer = "B") then [joined_data (encode (JArr [])) []] else [])
       ++ (if bool_decide (peer ∈ sock_id <$> members (joined w_alice_in "B" "doc-42") "doc-42")
           then [room_user_change (others w_alice_in "B" "doc-42")] else [])) ∧
  received "A" (joinRoomHandler "B" "doc-42" w_alice_in).1.2
  = [room_user_change [{| socketId := "A"; socketUser := alice |}]].
Proof.
  assert (room_authenticated (joined w_alice_in "B" "doc-42") "doc-42") as Hauth.
  { unfold room_authenticated. vm_compute members.
    repeat constructor; eexists; vm_compute; reflexivity. }
  assert (socketData w_alice_in !! "B" = Some bob_session) as Hd
    by (vm_compute; reflexivity).
  pose proof (join_snapshot_and_presence w_alice_in "B" "doc-42" bob_session
                documents {| room_data := JArr [] |} Hauth Hd) as H.
  destruct H as [Hall Hfirst]; [vm_compute; reflexivity|].
  split; [exact Hall|].
  apply (Hfirst (sock "A" ["doc-42"]) alice_session);
    [vm_compute; reflexivity|vm_compute; discriminate|vm_compute; reflexivity].
Defined.

(** C3 at the failing input: Alice closes her connection while Bob stays
    in doc-42.  Nothing is emitted and the Room Store is not called: Bob is
    not told.  Had the loop run for doc-42 with Alice still enumerated,
    Bob would have been told that he alone remains, and the Room Store be
    handed a member list that still names Alice. *)
Lemma disconnecting_after_leave_pushes_nothing_witness :
  others w_both_in "A" "doc-42" = [{| socketId := "B"; socketUser := bob |}] ∧
  (dispatch (close "A") w_both_in).1.2 = [] ∧
  received "B" (dispatch (close "A") w_both_in).1.2 = [] ∧
  store_calls (dispatch (close "A") w_both_in).1.2 = [] ∧
  received "B" (disconnecting_room "A" "doc-42" w_both_in).1.2
  = [room_user_change [{| socketId := "B"; socketUser := bob |}]] ∧
  ∃ c, store_calls (disconnecting_room "A" "doc-42" w_both_in).1.2 = [c] ∧
       call_roomID c = "doc-42" ∧ call_data c = Some JNull ∧
       call_users c = member_ids w_both_in "doc-42" ∧
       "alice" ∈ call_users c.
Proof.
  assert (room_authenticated w_both_in "doc-42") as Hauth.
  { unfold room_authenticated. vm_compute members.
    repeat constructor; eexists; vm_compute; reflexivity. }
  assert (socketData w_both_in !! "A" = Some alice_session) as Hd
    by (vm_compute; reflexivity).
  assert ("A" ∈ sock_id <$> members w_both_in "doc-42") as Hin
    by (vm_compute; left).
  assert ("doc-42" ≠ "A") as Hne by discriminate.
  destruct (disconnecting_after_leave_pushes_nothing w_both_in "A" "doc-42"
              alice_session Hne Hin Hauth Hd) as (Hfired & _ & _ & _ & Hsome & Hcall).
  destruct Hfired as (Hnone & Hquiet & Hstore & _); [vm_compute; reflexivity|].
  split; [vm_compute; reflexivity|]. split; [exact Hnone|].
  split; [apply Hquiet|]. split; [exact Hstore|]. split; [|exact Hcall].
  rewrite Hsome; [vm_compute; reflexivity|vm_compute; discriminate|].
  vm_compute. left.
Defined.

(** C4, as stated, fails: Alice, already in doc-42 on connection A, joins
    it on a second connection A2; the member list handed to the Room Store
    names her twice. *)
Lemma second_connection_repeats_user_id :
  store_calls (run [join_room "A2" "doc-42"] w_two_tabs).2
  = [{| call_roomID := "doc-42"; call_data := Some JNull;
        call_users := ["alice"; "bob"; "alice"];
        call_lastEditedUser := Null; call_jwtToken := Val "jwt-alice" |}] ∧
  ¬ NoDup ["alice"; "bob"; "alice"].
Proof.
  split; [vm_compute; reflexivity|].
  intros Hnd. apply NoDup_cons in Hnd as [Hnotin _]. apply Hnotin. right. left.
Qed.

(** The member list of a join is the one of the room once joined, and the
    ids are paired with the connections of the room in order. *)
Lemma member_ids_one_per_connection_witness :
  call_users {| call_roomID := "doc-42"; call_data := Some JNull;
                call_users := ["alice"; "bob"; "alice"];
                call_lastEditedUser := Null; call_jwtToken := Val "jwt-alice" |}
  = member_ids (joined w_two_tabs "A2" "doc-42") "doc-42" ∧
  Forall2 (λ s uid, user_id_of w_both_in (sock_id s) = Some uid)
    (members w_both_in "doc-42") (member_ids w_both_in "doc-42").
Proof.
  destruct (member_ids_one_per_connection w_two_tabs "A2" "doc-42")
    as (Hjoin & _ & _ & _ & _).
  split.
  - apply Hjoin. vm_compute. left.
  - destruct (member_ids_one_per_connection w_both_in "A" "doc-42")
      as (_ & _ & Hshape' & _).
    apply Hshape'. unfold room_authenticated. vm_compute members.
    repeat constructor; eexists; vm_compute; reflexivity.
Defined.

(** A credential the verifier now knows as expired is still answered from
    the cache, and a fresh one enters the cache when verified. *)
Lemma verifyToken_cache_witness :
  jwt_verify "jwt-old" (env w_cached !! "JWT_SECRET_KEY") = TokenExpiredError ∧
  (verifyToken "jwt-old" w_cached = (w_cached, [], Ok alice_session) ∧
   verifications (verifyToken "jwt-old" w_cached).1.2 = []) ∧
  ∃ decoded,
    jwt_verify "jwt-bob" (env w_cached !! "JWT_SECRET_KEY") = Decoded decoded ∧
    verifyToken "jwt-bob" w_cached
    = (with_cachedTokens w_cached (<["jwt-bob" := decoded]> (cachedTokens w_cached)),
       [JwtVerify "jwt-bob" (env w_cached !! "JWT_SECRET_KEY")], Ok decoded).
Proof.
  split; [reflexivity|]. split.
  - apply (proj1 (verifyToken_cache w_cached "jwt-old")). vm_compute. reflexivity.
  - apply (proj2 (verifyToken_cache w_cached "jwt-bob")). vm_compute. discriminate.
Defined.

(** Read-only Bob broadcasting into his room, and Alice broadcasting into a
    room she never joined: nothing happens. *)
Lemma durable_broadcast_guard_noop_witness :
  (serverBroadcastHandler "B" "doc-42" scene_bytes iv_bytes w_both_in
   = (w_both_in, [], Ok tt) ∧
   dispatch (server_broadcast "B" "doc-42" scene_bytes iv_bytes) w_both_in
   = (w_both_in, [], Ok tt)) ∧
  (serverBroadcastHandler "A" "doc-7" scene_bytes iv_bytes w_both_in
   = (w_both_in, [], Ok tt) ∧
   dispatch (server_broadcast "A" "doc-7" scene_bytes iv_bytes) w_both_in
   = (w_both_in, [], Ok tt)).
Proof.
  split.
  - apply durable_broadcast_guard_noop. left.
    exists bob_session. split; vm_compute; reflexivity.
  - apply durable_broadcast_guard_noop. right. vm_compute rooms_of.
    intros Hin. repeat (apply elem_of_cons in Hin as [Hin|Hin]; [discriminate Hin|]).
    by apply elem_of_nil in Hin.
Defined.

(** Alice broadcasts a scene update: Bob receives the two buffers she
    sent. *)
Lemma durable_relay_verbatim_witness :
  received "B" (serverBroadcastHandler "A" "doc-42" scene_bytes iv_bytes w_both_in).1.2
  = [client_broadcast [scene_bytes; iv_bytes]].
Proof.
  apply (proj2 (durable_relay_verbatim w_both_in "A" "doc-42" scene_bytes iv_bytes)).
  - intros (d & Hd & Hp). vm_compute in Hd. injection Hd as <-. discriminate Hp.
  - vm_compute. right. left.
  - vm_compute. left.
Defined.

(** Alice sends her cursor position, claiming to be someone else: Bob
    receives it with her identity in place; her idle status goes nowhere. *)
Lemma volatile_relay_iff_mouse_location_witness :
  (relayed_by "A" (serverVolatileBroadcastHandler "A" "doc-42" cursor_bytes w_both_in).1.2
   ≠ [] ↔ decoded_type cursor_bytes = Some (JStr "MOUSE_LOCATION")) ∧
  (serverVolatileBroadcastHandler "A" "doc-42" idle_bytes w_both_in).1.2 = [] ∧
  received "B" (serverVolatileBroadcastHandler "A" "doc-42" cursor_bytes w_both_in).1.2
  = [client_broadcast
       [encode (JObj [("type", JStr "MOUSE_LOCATION");
                      ("payload",
                       JObj [("pointer", JObj [("x", JNum 10); ("y", JNum 20)]);
                             ("user", JObj [("id", JStr "alice");
                                            ("name", JStr "Alice")])])])]].
Proof.
  assert (socketData w_both_in !! "A" = Some alice_session) as Hd
    by (vm_compute; reflexivity).
  destruct (volatile_relay_iff_mouse_location w_both_in "A" "doc-42" cursor_bytes
              alice_session Hd) as (_ & Hiff & _ & Hrelay & _).
  destruct (volatile_relay_iff_mouse_location w_both_in "A" "doc-42" idle_bytes
              alice_session Hd) as (_ & _ & Hdrop & _).
  split; [exact Hiff|]. split.
  - apply Hdrop. vm_compute. discriminate.
  - rewrite Hrelay by (vm_compute; reflexivity). vm_compute. reflexivity.
Defined.

(** A process that starts with no secret: the first call creates one, and
    the generator and the app hold the same. *)
Lemma getOrCreateJwtSecretKey_idempotent_witness :
  (∃ k, k ≠ EmptyString ∧
        getOrCreateJwtSecretKey (replicate 32 Byte.x2a) ∅
        = (<["JWT_SECRET_KEY" := k]> ∅, Some k) ∧
        (<["JWT_SECRET_KEY" := k]> ∅ : Env) !! "JWT_SECRET_KEY" = Some k ∧
        ∀ draws,
          getOrCreateJwtSecretKey_calls draws (<["JWT_SECRET_KEY" := k]> ∅)
          = (<["JWT_SECRET_KEY" := k]> ∅, (λ _, Some k) <$> draws)) ∧
  SHARED_SECRET (SharedTokenGenerator_new (replicate 32 Byte.x2a) ∅).2
  = JWT_SECRET_KEY
      (AppManager_new (replicate 32 Byte.x07)
         (SharedTokenGenerator_new (replicate 32 Byte.x2a) ∅).1).2.
Proof.
  destruct (getOrCreateJwtSecretKey_idempotent ∅ (replicate 32 Byte.x2a)
              (replicate 32 Byte.x07) eq_refl eq_refl) as (Hk & Hboth & _).
  split; [exact Hk|]. vm_compute. reflexivity.
Defined.

(** C10, as stated, fails: with the token m3trics configured, a request
    that supplies it as query parameter is refused when its header holds
    another word, and a request that supplies it neither in a bearer header
    nor as query parameter, but after the word Basic, gets the metrics. *)
Lemma metrics_header_shadows_query :
  status (metricsHandler {| METRICS_TOKEN := Some "m3trics"; JWT_SECRET_KEY := Some "s3cret" |}
            "up 1" "text/plain"
            {| headers_authorization := Some "Bearer wrong";
               query_token := Some (QString "m3trics") |}) = 403 ∧
  status (metricsHandler {| METRICS_TOKEN := Some "m3trics"; JWT_SECRET_KEY := Some "s3cret" |}
            "up 1" "text/plain"
            {| headers_authorization := Some "Basic m3trics";
               query_token := None |}) = 200.
Proof. split; vm_compute; reflexivity. Qed.

(** No configured token, and the right token: after the word Bearer, and
    in the query of a request without a header. *)
Lemma metrics_forbidden_iff_witness :
  status (metricsHandler {| METRICS_TOKEN := None; JWT_SECRET_KEY := Some "s3cret" |}
            "up 1" "text/plain"
            {| headers_authorization := Some "Bearer anything";
               query_token := None |}) = 403 ∧
  metricsHandler {| METRICS_TOKEN := Some "m3trics"; JWT_SECRET_KEY := Some "s3cret" |}
    "up 1" "text/plain"
    {| headers_authorization := Some ("Bearer" +:+ " " +:+ "m3trics");
       query_token := Some QStructured |}
  = {| status := 200; contentType := Some "text/plain"; body := "up 1" |} ∧
  metricsHandler {| METRICS_TOKEN := Some "m3trics"; JWT_SECRET_KEY := Some "s3cret" |}
    "up 1" "text/plain"
    {| headers_authorization := None; query_token := Some (QString "m3trics") |}
  = {| status := 200; contentType := Some "text/plain"; body := "up 1" |}.
Proof.
  split; [|split].
  - apply (proj1 (proj2 (metrics_forbidden_iff
                           {| METRICS_TOKEN := None; JWT_SECRET_KEY := Some "s3cret" |}
                           "up 1" "text/plain"
                           {| headers_authorization := None; query_token := None |}))).
    by left.
  - destruct (metrics_forbidden_iff
                {| METRICS_TOKEN := Some "m3trics"; JWT_SECRET_KEY := Some "s3cret" |}
                "up 1" "text/plain"
                {| headers_authorization := Some ("Bearer" +:+ " " +:+ "m3trics");
                   query_token := Some QStructured |})
      as (Hiff & _ & Hok & Hword & _).
    apply Hok. rewrite Hiff.
    rewrite (Hword "Bearer" "m3trics" eq_refl eq_refl ltac:(discriminate) eq_refl).
    intros [[Hunset|Hempty]|Hother]; [discriminate Hunset|discriminate Hempty|].
    by apply Hother.
  - apply (proj1 (proj2 (proj2 (metrics_forbidden_iff _ _ _ _)))).
    vm_compute. discriminate.
Defined.

(** ** Further properties at work *)

Import ControlExample.

(** With the secret s3:cr3t configured, the request that presents exactly
    that secret is refused. *)
Lemma app_secret_with_colon_locks_out_witness :
  reply_status (enabledHandler app {[ "APP_SECRET" := "s3:cr3t" ]}
                  (Some "admin:s3:cr3t")).1 = 401 ∧
  (enabledHandler app {[ "APP_SECRET" := "s3:cr3t" ]} (Some "admin:s3:cr3t")).2 = [].
Proof.
  apply (app_secret_with_colon_locks_out app {[ "APP_SECRET" := "s3:cr3t" ]}
           "s3:cr3t" (Some "admin:s3:cr3t")).
  - vm_compute. reflexivity.
  - vm_compute. reflexivity.
Defined.

(** With no secret configured, a header that decodes to a bare word is let
    through and the JWT secret goes out. *)
Lemma unset_app_secret_accepts_colonless_header_witness :
  (enabledHandler app ∅ (Some "anybody")).2
  = [settings_request app ∅ (Some (fromBase64 "anybody"))] ∧
  reply_status (enabledHandler app ∅ (Some "anybody")).1 ≠ 401.
Proof.
  apply (unset_app_secret_accepts_colonless_header app ∅ "anybody").
  - vm_compute. reflexivity.
  - discriminate.
  - vm_compute. reflexivity.
Defined.

(** The token for doc-42: room id, time stamp, signature. *)
Lemma handle_token_pieces_witness :
  ∃ token,
    handle generator "doc-42" 1700000000000%N = Ok token ∧
    split ":" token
    = ["doc-42"; pretty 1700000000000%N;
       toString_hex (hmac_sha256 "s3cret" ("doc-42" +:+ ":" +:+ pretty 1700000000000%N))].
Proof.
  destruct (handle_token_pieces generator "s3cret" "doc-42" 1700000000000%N eq_refl)
    as (token & Hhandle & _ & Hthree & _).
  exists token. split; [exact Hhandle|]. apply Hthree. vm_compute. reflexivity.
Defined.

(** A process that starts with no secret: the secret registered with
    Nextcloud signs the tokens. *)
Lemma registered_secret_signs_tokens_witness :
  ∃ key,
    key ≠ EmptyString ∧
    prop "secret"
      (Some (fetch_body
               (settings_request (AppManager_new (replicate 32 Byte.x2a) ∅).2
                  (SharedTokenGenerator_new (replicate 32 Byte.x07)
                     (AppManager_new (replicate 32 Byte.x2a) ∅).1).1
                  (Some "admin"))))
    = Ok (Some (JStr key)) ∧
    handle (SharedTokenGenerator_new (replicate 32 Byte.x07)
              (AppManager_new (replicate 32 Byte.x2a) ∅).1).2 "doc-42" 1700000000000%N
    = Ok (("doc-42" +:+ ":" +:+ pretty 1700000000000%N) +:+ ":" +:+
          toString_hex (hmac_sha256 key ("doc-42" +:+ ":" +:+ pretty 1700000000000%N))).
Proof.
  apply (registered_secret_signs_tokens (replicate 32 Byte.x2a) (replicate 32 Byte.x07)
           ∅ (Some "admin") "doc-42" 1700000000000%N).
  reflexivity.
Defined.

(** The scheme word Token serves as well as Bearer, and a configured token
    with a space in it cannot be presented in a header. *)
Lemma metrics_header_word_witness :
  status (metricsHandler {| METRICS_TOKEN := Some "m3trics"; JWT_SECRET_KEY := None |}
            "up 1" "text/plain"
            {| headers_authorization := Some ("Token" +:+ " " +:+ "m3trics");
               query_token := None |}) = 200 ∧
  status (metricsHandler {| METRICS_TOKEN := Some "m3 trics"; JWT_SECRET_KEY := None |}
            "up 1" "text/plain"
            {| headers_authorization := Some "Bearer m3 trics";
               query_token := None |}) = 403.
Proof.
  split.
  - apply (proj1 (metrics_header_word
                    {| METRICS_TOKEN := Some "m3trics"; JWT_SECRET_KEY := None |}
                    "m3trics" "up 1" "text/plain" eq_refl ltac:(discriminate)));
      reflexivity.
  - apply (proj2 (metrics_header_word
                    {| METRICS_TOKEN := Some "m3 trics"; JWT_SECRET_KEY := None |}
                    "m3 trics" "up 1" "text/plain" eq_refl ltac:(discriminate)));
      reflexivity.
Defined.

(** A handshake with the expired credential, which is not cached on this
    server, is rejected and leaves no trace in the state. *)
Lemma handshake_rejected_witness :
  (socketAuthenticateHandler "C" (Some "jwt-old") w_both_in).2
  = Ok (next_error "Authentication error") ∧
  (dispatch (handshake "C" (Some "jwt-old")) w_both_in).1.1 = w_both_in ∧
  (∀ peer, received peer (socketAuthenticateHandler "C" (Some "jwt-old") w_both_in).1.2
           = []).
Proof.
  assert (accepted_claims w_both_in "jwt-old" = None) as Hnone
    by (vm_compute; reflexivity).
  destruct (handshake_rejected w_both_in "C" (Some "jwt-old")
              (or_intror (ex_intro _ "jwt-old" (conj eq_refl Hnone))))
    as (Hnext & _ & Hstate & _ & Hquiet & _).
  split; [exact Hnext|]. split; [exact Hstate|exact Hquiet].
Defined.

(** Bob opens a second connection C: it is told that it is read-only, then
    to initialise the room. *)
Lemma handshake_accepted_witness :
  socketData (dispatch (handshake "C" (Some "jwt-bob")) w_both_in).1.1 !! "C"
  = Some bob_session ∧
  received "C" (dispatch (handshake "C" (Some "jwt-bob")) w_both_in).1.2
  = [read_only; init_room] ∧
  received "A" (dispatch (handshake "C" (Some "jwt-bob")) w_both_in).1.2 = [].
Proof.
  assert ("jwt-bob" ≠ EmptyString) as Hne by discriminate.
  assert (accepted_claims w_both_in "jwt-bob" = Some bob_session) as Hclaims
    by (vm_compute; reflexivity).
  destruct (handshake_accepted w_both_in "C" "jwt-bob" bob_session Hne Hclaims)
    as (Hdata & _ & _ & Hown & Hothers).
  split; [|split].
  - rewrite Hdata. apply lookup_insert_eq.
  - exact Hown.
  - apply Hothers. discriminate.
Defined.

(** Bob's second connection is told that it is read-only, and its durable
    broadcasts do nothing; Alice's is not told so. *)
Lemma read_only_notice_matches_guard_witness :
  read_only ∈ received "C" (dispatch (handshake "C" (Some "jwt-bob")) w_both_in).1.2 ∧
  serverBroadcastHandler "C" "C" scene_bytes iv_bytes
    (dispatch (handshake "C" (Some "jwt-bob")) w_both_in).1.1
  = ((dispatch (handshake "C" (Some "jwt-bob")) w_both_in).1.1, [], Ok tt) ∧
  (read_only ∈ received "C" (dispatch (handshake "C" (Some "jwt-alice")) w_both_in).1.2
   ↔ permissions alice_session = 1).
Proof.
  assert ("jwt-bob" ≠ EmptyString) as Hbob by discriminate.
  assert ("jwt-alice" ≠ EmptyString) as Halice by discriminate.
  assert (accepted_claims w_both_in "jwt-bob" = Some bob_session) as Hclaims
    by (vm_compute; reflexivity).
  assert (accepted_claims w_both_in "jwt-alice" = Some alice_session) as Hclaims'
    by (vm_compute; reflexivity).
  destruct (read_only_notice_matches_guard w_both_in "C" "jwt-bob" bob_session
              Hbob Hclaims) as (Hnotice & _ & Hguard).
  destruct (read_only_notice_matches_guard w_both_in "C" "jwt-alice" alice_session
              Halice Hclaims') as (Hnotice' & _ & _).
  assert (read_only
            ∈ received "C" (dispatch (handshake "C" (Some "jwt-bob")) w_both_in).1.2)
    as Htold by (apply Hnotice; reflexivity).
  split; [exact Htold|]. split; [apply (Hguard Htold)|exact Hnotice'].
Defined.

(** Alice joins doc-7, which the Room Store does not hold: she is told so
    and is a member of doc-7 all the same. *)
Lemma join_room_not_found_witness :
  received "A" (joinRoomHandler "A" "doc-7" w_both_in).1.2 = [room_not_found] ∧
  received "B" (joinRoomHandler "A" "doc-7" w_both_in).1.2 = [] ∧
  "doc-7" ∈ rooms_of (joinRoomHandler "A" "doc-7" w_both_in).1.1 "A".
Proof.
  assert (room_authenticated (joined w_both_in "A" "doc-7") "doc-7") as Hauth.
  { unfold room_authenticated. vm_compute members.
    repeat constructor; eexists; vm_compute; reflexivity. }
  assert (socketData w_both_in !! "A" = Some alice_session) as Hd
    by (vm_compute; reflexivity).
  destruct (join_room_not_found w_both_in "A" "doc-7" alice_session documents
              Hauth Hd) as (_ & Hrecv & Hmember); [vm_compute; reflexivity|].
  split; [|split].
  - apply (Hrecv "A").
  - apply (Hrecv "B").
  - apply Hmember. vm_compute. reflexivity.
Defined.

(** Alice broadcasts a scene update into doc-42: it is relayed, then its
    elements go to the Room Store in her name. *)
Lemma durable_broadcast_relays_then_persists_witness :
  decoded_elements scene_bytes = Ok (Some (JArr [JObj [("id", JStr "e1")]])) ∧
  serverBroadcastHandler "A" "doc-42" scene_bytes iv_bytes w_both_in
  = match decoded_elements scene_bytes with
    | Ok elements =>
        let call := {| call_roomID := "doc-42"; call_data := elements;
                       call_users := member_ids w_both_in "doc-42";
                       call_lastEditedUser := Val (User.id (user alice_session));
                       call_jwtToken := Undefined |} in
        (with_store w_both_in (store_syncRoomData (store w_both_in) call).1,
         [Emit (BroadcastTo "A" "doc-42") (client_broadcast [scene_bytes; iv_bytes])
            (recipients w_both_in (BroadcastTo "A" "doc-42"));
          SyncRoomData call], Ok tt)
    | Throw e =>
        (w_both_in,
         [Emit (BroadcastTo "A" "doc-42") (client_broadcast [scene_bytes; iv_bytes])
            (recipients w_both_in (BroadcastTo "A" "doc-42"))], Throw e)
    end.
Proof.
  split; [vm_compute; reflexivity|].
  apply (durable_broadcast_relays_then_persists w_both_in "A" "doc-42"
           scene_bytes iv_bytes alice_session).
  - vm_compute. reflexivity.
  - discriminate.
  - vm_compute. right. left.
  - unfold room_authenticated. vm_compute members.
    repeat constructor; eexists; vm_compute; reflexivity.
Defined.

(** Bob, who has not joined doc-42, sends his cursor there: Alice, who is
    in doc-42, receives it. *)
Lemma volatile_broadcast_ignores_membership_witness :
  received "A" (serverVolatileBroadcastHandler "B" "doc-42" cursor_bytes w_alice_in).1.2
  = [client_broadcast
       [encode (mouse_location_event (user bob_session) (decoded_payload cursor_bytes))]] ∧
  received "A" (serverBroadcastHandler "B" "doc-42" cursor_bytes iv_bytes w_alice_in).1.2
  = [].
Proof.
  assert (socketData w_alice_in !! "B" = Some bob_session) as Hd
    by (vm_compute; reflexivity).
  assert (decoded_type cursor_bytes = Some (JStr "MOUSE_LOCATION")) as Htype
    by (vm_compute; reflexivity).
  assert ("doc-42" ∉ rooms_of w_alice_in "B") as Hout.
  { vm_compute rooms_of. intros Hin.
    repeat (apply elem_of_cons in Hin as [Hin|Hin]; [discriminate Hin|]).
    by apply elem_of_nil in Hin. }
  destruct (volatile_broadcast_ignores_membership w_alice_in "B" "doc-42"
              cursor_bytes iv_bytes bob_session Hd Htype Hout) as [Hvolatile Hdurable].
  split; [|apply Hdurable].
  apply Hvolatile; [vm_compute; left|discriminate].
Defined.

(** The presence list of doc-42 and the one Alice's connection is left out
    of. *)
Lemma getOtherUserSockets_filters_witness :
  getOtherUserSockets "doc-42" "A" w_both_in
  = (w_both_in, [],
     Ok (filter (λ u, socketId u ≠ "A")
           [{| socketId := "A"; socketUser := alice |};
            {| socketId := "B"; socketUser := bob |}])).
Proof.
  apply (getOtherUserSockets_filters w_both_in "doc-42" "A"
           [{| socketId := "A"; socketUser := alice |};
            {| socketId := "B"; socketUser := bob |}]).
  vm_compute. reflexivity.
Defined.

Lemma w_both_in_authenticated : authenticated w_both_in.
Proof.
  intros i Hi. vm_compute in Hi.
  repeat (apply elem_of_cons in Hi as [->|Hi]; [eexists; vm_compute; reflexivity|]).
  by apply elem_of_nil in Hi.
Qed.

(** After a handshake, a join, a closing and a rejected handshake the
    rooms still enumerate. *)
Lemma reached_rooms_enumerate_witness :
  authenticated
    (run [handshake "C" (Some "jwt-alice"); join_room "C" "doc-42"; close "A";
          handshake "D" None] w_both_in).1 ∧
  socketId <$> presence
    (run [handshake "C" (Some "jwt-alice"); join_room "C" "doc-42"; close "A";
          handshake "D" None] w_both_in).1
    (members
       (run [handshake "C" (Some "jwt-alice"); join_room "C" "doc-42"; close "A";
             handshake "D" None] w_both_in).1 "doc-42")
  = sock_id <$> members
      (run [handshake "C" (Some "jwt-alice"); join_room "C" "doc-42"; close "A";
            handshake "D" None] w_both_in).1 "doc-42".
Proof.
  destruct (reached_rooms_enumerate
              [handshake "C" (Some "jwt-alice"); join_room "C" "doc-42"; close "A";
               handshake "D" None] w_both_in "doc-42" "C" w_both_in_authenticated)
    as (Hauth & _ & _ & Hids).
  split; [exact Hauth|exact Hids].
Defined.

(** A join and two broadcasts leave the session data as they were. *)
Lemma relay_events_keep_sessions_witness :
  socketData (run [join_room "B" "doc-7";
                   server_broadcast "A" "doc-42" scene_bytes iv_bytes;
                   server_volatile_broadcast "B" "doc-42" cursor_bytes] w_both_in).1
  = socketData w_both_in.
Proof.
  refine (proj1 (relay_events_keep_sessions
                   [join_room "B" "doc-7";
                    server_broadcast "A" "doc-42" scene_bytes iv_bytes;
                    server_volatile_broadcast "B" "doc-42" cursor_bytes]
                   w_both_in _)).
  repeat constructor.
Defined.

(** The credential cached before it expired survives a connection coming
    and going, and is then accepted for a connection D. *)
Lemma cached_credential_stays_witness :
  jwt_verify "jwt-old" (env w_cached !! "JWT_SECRET_KEY") = TokenExpiredError ∧
  cachedTokens (run [handshake "C" (Some "jwt-bob"); close "C"] w_cached).1 !! "jwt-old"
  = Some alice_session ∧
  (socketAuthenticateHandler "D" (Some "jwt-old")
     (run [handshake "C" (Some "jwt-bob"); close "C"] w_cached).1).2 = Ok next_ok.
Proof.
  assert ("jwt-old" ≠ EmptyString) as Hne by discriminate.
  assert (cachedTokens w_cached !! "jwt-old" = Some alice_session) as Hcached
    by (vm_compute; reflexivity).
  destruct (cached_credential_stays w_cached [handshake "C" (Some "jwt-bob"); close "C"]
              "D" "jwt-old" alice_session Hne Hcached) as (Hstays & _ & Hok & _).
  split; [reflexivity|]. split; [exact Hstays|exact Hok].
Defined.
